(** * RAPTIC: a text-mode front end for a remote-desktop thin client

    A shallow embedding of [raptic.py] and of the parts of Python's
    [configparser] and of the [dialog] widgets it relies on, followed by
    the properties of the configuration store, the first-run wizard, the
    configuration editor, the launcher and the main menu.

    Conventions.
    - A Python [str] is a [string]; each character stands for a code
      point below 256, and the encoding of the files holds them all (as
      UTF-8 does), so that a file is the text written to it.
    - A Python dict is an association list in insertion order
      ([configparser] writes sections and options in that order).
    - The file system is a finite map from the regular files that
      [stat] finds, each under one name of its own, to their text, and a
      function that takes every path to the name of the file it leads to
      once symbolic links are followed (the paths of two hard links lead
      to one file).  A file that is there may still refuse to be opened,
      for reading or for writing.  The program creates no link and
      removes no file.
    - The user is a script: the list of answers still to be given to the
      blocking dialogs.  Every dialog call appends the screen it shows to
      a log and consumes one answer; with no answer left the process
      waits for ever. *)

From Stdlib Require Import ZArith NArith Ascii String List Bool Lia.
From stdpp Require Import base option list strings gmap relations.

#[local] Open Scope string_scope.
#[local] Open Scope list_scope.

(** ** Text *)

Module Text.

Definition code (c : ascii) : N := N_of_ascii c.

(** [str.isspace] on the code points below 256; [str.strip] and the
    regular-expression classes [\s] and [\S] use the same set. *)
Definition isspace (c : ascii) : bool :=
  let n := code c in
  ((9 <=? n) && (n <=? 13) || (28 <=? n) && (n <=? 32)
   || (n =? 133) || (n =? 160))%N.

(** [str.lower] on one code point below 256. *)
Definition lower_char (c : ascii) : ascii :=
  let n := code c in
  if ((65 <=? n) && (n <=? 90)
      || (192 <=? n) && (n <=? 222) && negb (n =? 215))%N
  then ascii_of_N (n + 32) else c.

Fixpoint lower (s : string) : string :=
  match s with
  | EmptyString => EmptyString
  | String c r => String (lower_char c) (lower r)
  end.

Fixpoint lstrip (s : string) : string :=
  match s with
  | EmptyString => EmptyString
  | String c r => if isspace c then lstrip r else s
  end.

Fixpoint rstrip (s : string) : string :=
  match s with
  | EmptyString => EmptyString
  | String c r =>
      match rstrip r with
      | EmptyString => if isspace c then EmptyString else String c EmptyString
      | r' => String c r'
      end
  end.

Definition strip (s : string) : string := rstrip (lstrip s).

Definition is_empty (s : string) : bool :=
  match s with EmptyString => true | _ => false end.

Definition startswith (p s : string) : bool := String.prefix p s.

(** [c in s] for a one-character string [c]. *)
Fixpoint contains (c : ascii) (s : string) : bool :=
  match s with
  | EmptyString => false
  | String d r => Ascii.eqb c d || contains c r
  end.

(** [s.replace(old, new)] for a one-character [old]. *)
Fixpoint replace_char (old : ascii) (new : string) (s : string) : string :=
  match s with
  | EmptyString => EmptyString
  | String c r =>
      if Ascii.eqb c old then new ++ replace_char old new r
      else String c (replace_char old new r)
  end.

(** [sep.join(parts)]. *)
Fixpoint join (sep : string) (parts : list string) : string :=
  match parts with
  | [] => EmptyString
  | [p] => p
  | p :: ps => p ++ sep ++ join sep ps
  end.

(** Position of the first character that is not white space
    ([re.compile(r"\S").search]). *)
Fixpoint first_nonspace (s : string) : option nat :=
  match s with
  | EmptyString => None
  | String c r => if isspace c then S <$> first_nonspace r else Some 0
  end.

Definition LF : ascii := "010"%char.
Definition CR : ascii := "013"%char.
Definition TAB : ascii := "009"%char.
Definition nl : string := String LF EmptyString.

(** The lines a text-mode file object yields, with universal newlines:
    a line ends at LF, at CR or at CR LF.  The terminator itself is
    dropped here: it is white space, and every reader strips it. *)
Definition cons_line (c : ascii) (ls : list string) : list string :=
  match ls with
  | [] => [String c EmptyString]
  | l :: ls' => String c l :: ls'
  end.

Fixpoint lines (s : string) : list string :=
  match s with
  | EmptyString => []
  | String c r =>
      if Ascii.eqb c LF then EmptyString :: lines r
      else if Ascii.eqb c CR then
        match r with
        | String d r' =>
            if Ascii.eqb d LF then EmptyString :: lines r'
            else EmptyString :: lines r
        | EmptyString => [EmptyString]
        end
      else cons_line c (lines r)
  end.

End Text.

(** ** Path names

    The functions of [posixpath] that the program applies to the names
    of its candidates. *)

Module Path.

Definition SEP : ascii := "/"%char.

(** [s.rstrip('/')] *)
Fixpoint rstrip_sep (s : string) : string :=
  match s with
  | EmptyString => EmptyString
  | String c r =>
      match rstrip_sep r with
      | EmptyString =>
          if Ascii.eqb c SEP then EmptyString else String c EmptyString
      | r' => String c r'
      end
  end.

(** [s.endswith('/')] *)
Fixpoint ends_with_sep (s : string) : bool :=
  match s with
  | EmptyString => false
  | String c EmptyString => Ascii.eqb c SEP
  | String _ r => ends_with_sep r
  end.

(** [s.split('/')] *)
Fixpoint split (s : string) : list string :=
  match s with
  | EmptyString => [EmptyString]
  | String c r =>
      if Ascii.eqb c SEP then EmptyString :: split r
      else match split r with
           | comp :: comps => String c comp :: comps
           | [] => [String c EmptyString]
           end
  end.

(** ['/' * n] *)
Fixpoint slashes (n : nat) : string :=
  match n with
  | O => EmptyString
  | S m => String SEP (slashes m)
  end.

Definition isabs (path : string) : bool := Text.startswith "/" path.

(** [join(a, b)] *)
Definition join (a b : string) : string :=
  if Text.startswith "/" b then b
  else if Text.is_empty a || ends_with_sep a then a +:+ b
  else a +:+ "/" +:+ b.

(** One turn of the loop of [normpath] over the components. *)
Definition norm_step (initial_slashes : nat) (new_comps : list string)
    (comp : string) : list string :=
  if Text.is_empty comp || String.eqb comp "." then new_comps
  else if negb (String.eqb comp "..")
          || Nat.eqb initial_slashes 0 && bool_decide (new_comps = [])
          || bool_decide (last new_comps = Some "..")
  then new_comps ++ [comp]
  else removelast new_comps.

(** [normpath]: one or two leading slashes are kept, three or more
    count as one. *)
Definition normpath (path : string) : string :=
  if Text.is_empty path then "."
  else
    let initial_slashes :=
      if Text.startswith "/" path then
        if Text.startswith "//" path && negb (Text.startswith "///" path)
        then 2 else 1
      else 0 in
    let comps := fold_left (norm_step initial_slashes) (split path) [] in
    let path := Text.join "/" comps in
    let path := slashes initial_slashes +:+ path in
    if Text.is_empty path then "." else path.

(** [abspath], in the working directory [cwd]. *)
Definition abspath (cwd path : string) : string :=
  normpath (if isabs path then path else join cwd path).

(** [expanduser] for a name that is [~] or opens with [~/]; [userhome]
    is [$HOME] or, when that is not set, the home directory the
    password database has for the user, if it has one. *)
Definition expanduser (userhome : option string) (path : string) : string :=
  match path with
  | String "~"%char rest =>
      if Text.is_empty rest || Text.startswith "/" rest then
        match userhome with
        | None => path
        | Some userhome =>
            let path := rstrip_sep userhome +:+ rest in
            if Text.is_empty path then "/" else path
        end
      else path
  | _ => path
  end.

(** [expandvars] for a name without [$], which comes back as it is. *)
Definition expandvars (path : string) : string := path.

End Path.

(** ** Exceptions and results *)

(** The Python exceptions that the program or the libraries under it can
    raise on the paths modelled here. *)
Inductive exn : Type :=
| KeyError (key : string)
| ValueError
| NoSectionError (section : string)
| NoOptionError (option section : string)
| DuplicateSectionError (section : string)
| DuplicateOptionError (section option : string)
| MissingSectionHeaderError
| ParsingError
| InterpolationSyntaxError
| InterpolationMissingOptionError (reference : string)
| InterpolationDepthError
| FileNotFoundError
| PermissionError
| IsADirectoryError.

Inductive result (A : Type) : Type :=
| Ok (a : A)
| Err (e : exn).
Arguments Ok {A} a.
Arguments Err {A} e.

#[global] Instance result_ret : MRet result := fun A a => Ok a.
#[global] Instance result_bind : MBind result := fun A B f m =>
  match m with
  | Ok a => f a
  | Err e => Err e
  end.
#[global] Instance result_fmap : FMap result := fun A B f m =>
  match m with
  | Ok a => Ok (f a)
  | Err e => Err e
  end.

(** ** Ordered dictionaries *)

Section Dict.
Context {V : Type}.

Fixpoint dict_get (k : string) (d : list (string * V)) : option V :=
  match d with
  | [] => None
  | (k', v) :: r => if String.eqb k k' then Some v else dict_get k r
  end.

(** [d[k] = v]: an existing key keeps its place. *)
Fixpoint dict_set (k : string) (v : V) (d : list (string * V))
  : list (string * V) :=
  match d with
  | [] => [(k, v)]
  | (k', v') :: r =>
      if String.eqb k k' then (k, v) :: r else (k', v') :: dict_set k v r
  end.

Definition dict_mem (k : string) (d : list (string * V)) : bool :=
  match dict_get k d with Some _ => true | None => false end.

Definition dict_keys (d : list (string * V)) : list string := map fst d.
End Dict.

(** ** The configuration parser

    [configparser.ConfigParser] with its default settings: delimiters
    [=] and [:], comment prefixes [#] and [;], no inline comments, strict,
    empty lines allowed in values, no valueless options, default section
    [DEFAULT], basic interpolation, option names lower-cased. *)

Module ConfigParser.

Definition items : Type := list (string * string).

(** [_defaults] and [_sections] of a parser object. *)
Record t : Type := mk {
  defaults : items;
  sections_ : list (string * items)
}.

(** [ConfigParser()] *)
Definition empty : t := mk [] [].

Definition default_section : string := "DEFAULT".
Definition optionxform (opt : string) : string := Text.lower opt.

(** [parser.sections()] *)
Definition sections (p : t) : list string := dict_keys (sections_ p).

Definition has_section (p : t) (section : string) : bool :=
  dict_mem section (sections_ p).

Definition add_section (p : t) (section : string) : result t :=
  if String.eqb section default_section then Err ValueError
  else if has_section p section then Err (DuplicateSectionError section)
  else Ok (mk (defaults p) (sections_ p ++ [(section, [])])).

(** [opts = sections[section].copy(); opts.update(defaults); list(opts)] *)
Definition options (p : t) (section : string) : result (list string) :=
  match dict_get section (sections_ p) with
  | None => Err (NoSectionError section)
  | Some d =>
      Ok (dict_keys d
          ++ filter (fun k => negb (dict_mem k d)) (dict_keys (defaults p)))
  end.

Definition has_option (p : t) (section opt : string) : bool :=
  if Text.is_empty section || String.eqb section default_section
  then dict_mem (optionxform opt) (defaults p)
  else match dict_get section (sections_ p) with
       | None => false
       | Some d =>
           dict_mem (optionxform opt) d
           || dict_mem (optionxform opt) (defaults p)
       end.

(** [_unify_values]: the section's own options, then the defaults. *)
Definition unify_values (p : t) (section : string) : result (items * items) :=
  match dict_get section (sections_ p) with
  | Some d => Ok (d, defaults p)
  | None =>
      if String.eqb section default_section then Ok ([], defaults p)
      else Err (NoSectionError section)
  end.

Definition chain_get (d : items * items) (opt : string) : option string :=
  match dict_get opt (fst d) with
  | Some v => Some v
  | None => dict_get opt (snd d)
  end.

(** *** Basic interpolation *)

Definition PERCENT : ascii := "%"%char.
Definition LPAREN : ascii := "("%char.
Definition RPAREN : ascii := ")"%char.

(** The [while rest] loop of [_interpolate_some], one character at a
    time.  [name] is [None] outside a reference and [Some acc] inside
    [%(acc...]; a reference must match [%\(([^)]+)\)s].  [deeper] expands a
    referenced value that itself holds a [%]. *)
Fixpoint interpolate_loop (deeper : string -> result string)
    (d : items * items) (name : option string) (rest : string)
  : result string :=
  match name, rest with
  | None, EmptyString => Ok EmptyString
  | None, String c r =>
      if Ascii.eqb c PERCENT then
        match r with
        | String c' r' =>
            if Ascii.eqb c' PERCENT then
              String PERCENT <$> interpolate_loop deeper d None r'
            else if Ascii.eqb c' LPAREN then
              interpolate_loop deeper d (Some EmptyString) r'
            else Err InterpolationSyntaxError
        | EmptyString => Err InterpolationSyntaxError
        end
      else String c <$> interpolate_loop deeper d None r
  | Some acc, EmptyString => Err InterpolationSyntaxError
  | Some acc, String c r =>
      if Ascii.eqb c RPAREN then
        match acc, r with
        | EmptyString, _ => Err InterpolationSyntaxError
        | _, String "s"%char r' =>
            let var := optionxform (String.rev acc) in
            match chain_get d var with
            | None => Err (InterpolationMissingOptionError var)
            | Some v =>
                v' ← (if Text.contains PERCENT v then deeper v else Ok v);
                String.append v' <$> interpolate_loop deeper d None r'
            end
        | _, _ => Err InterpolationSyntaxError
        end
      else interpolate_loop deeper d (Some (String c acc)) r
  end.

(** [_interpolate_some] at a given number of remaining levels;
    [MAX_INTERPOLATION_DEPTH] is 10. *)
Fixpoint interpolate_some (levels : nat) (d : items * items) (rest : string)
  : result string :=
  match levels with
  | O => Err InterpolationDepthError
  | S n => interpolate_loop (interpolate_some n d) d None rest
  end.

Definition MAX_INTERPOLATION_DEPTH : nat := 10.

Definition before_get (d : items * items) (value : string) : result string :=
  interpolate_some MAX_INTERPOLATION_DEPTH d value.

(** [value.replace('%%', '')] *)
Fixpoint drop_escaped (s : string) : string :=
  match s with
  | String c ((String c' r') as r) =>
      if Ascii.eqb c PERCENT && Ascii.eqb c' PERCENT then drop_escaped r'
      else String c (drop_escaped r)
  | _ => s
  end.

(** Whether [_KEYCRE.sub('', s)] still holds a [%]: scanning from the
    left, every [%] outside a reference must open a reference that
    matches [%\(([^)]+)\)s]. *)
Fixpoint percent_left (name : option string) (s : string) : bool :=
  match name, s with
  | None, EmptyString => false
  | None, String c r =>
      if Ascii.eqb c PERCENT then
        match r with
        | String c' r' =>
            if Ascii.eqb c' LPAREN then percent_left (Some EmptyString) r'
            else true
        | EmptyString => true
        end
      else percent_left None r
  | Some acc, EmptyString => true
  | Some acc, String c r =>
      if Ascii.eqb c RPAREN then
        match acc, r with
        | EmptyString, _ => true
        | _, String "s"%char r' => percent_left None r'
        | _, _ => true
        end
      else percent_left (Some (String c acc)) r
  end.

Definition before_set (value : string) : result string :=
  if percent_left None (drop_escaped value) then Err ValueError
  else Ok value.

(** *** Reading and setting options *)

Definition get (p : t) (section opt : string) : result string :=
  d ← unify_values p section;
  let opt := optionxform opt in
  match chain_get d opt with
  | None => Err (NoOptionError opt section)
  | Some v => before_get d v
  end.

Definition BOOLEAN_TRUE : list string := ["1"; "yes"; "true"; "on"].
Definition BOOLEAN_FALSE : list string := ["0"; "no"; "false"; "off"].

Definition mem_string (x : string) (l : list string) : bool :=
  existsb (String.eqb x) l.

Definition convert_to_boolean (value : string) : result bool :=
  let v := Text.lower value in
  if mem_string v BOOLEAN_TRUE then Ok true
  else if mem_string v BOOLEAN_FALSE then Ok false
  else Err ValueError.

Definition getboolean (p : t) (section opt : string) : result bool :=
  get p section opt ≫= convert_to_boolean.

Definition set (p : t) (section opt value : string) : result t :=
  value ← (if Text.is_empty value then Ok value else before_set value);
  if Text.is_empty section || String.eqb section default_section
  then Ok (mk (dict_set (optionxform opt) value (defaults p)) (sections_ p))
  else match dict_get section (sections_ p) with
       | None => Err (NoSectionError section)
       | Some d =>
           Ok (mk (defaults p)
                 (dict_set section (dict_set (optionxform opt) value d)
                    (sections_ p)))
       end.

(** *** The mapping protocol *)

(** [parser[section]]: the section proxy, or [KeyError]. *)
Definition getitem (p : t) (section : string) : result unit :=
  if negb (String.eqb section default_section) && negb (has_section p section)
  then Err (KeyError section) else Ok tt.

(** [proxy[opt]] for the proxy of [section]. *)
Definition proxy_getitem (p : t) (section opt : string) : result string :=
  if has_option p section opt then get p section opt else Err (KeyError opt).

(** [parser[section][opt]] *)
Definition section_get (p : t) (section opt : string) : result string :=
  _ ← getitem p section; proxy_getitem p section opt.

(** [parser[section][opt] = value] *)
Definition section_set (p : t) (section opt value : string) : result t :=
  _ ← getitem p section; set p section opt value.

(** The keys a section proxy iterates over. *)
Definition proxy_options (p : t) (section : string) : result (list string) :=
  if String.eqb section default_section then Ok (dict_keys (defaults p))
  else options p section.

Definition clear_section (p : t) (section : string) : t :=
  if String.eqb section default_section then mk [] (sections_ p)
  else if has_section p section
       then mk (defaults p) (dict_set section [] (sections_ p))
       else p.

(** [read_dict] adds the section and ignores that it may exist. *)
Definition ensure_section (p : t) (section : string) : t :=
  match add_section p section with
  | Ok p' => p'
  | Err _ => p
  end.

(** [parser[section] = {}] *)
Definition setitem_empty (p : t) (section : string) : t :=
  ensure_section (clear_section p section) section.

Fixpoint fold_result {A B : Type} (f : A -> B -> result A) (a : A)
    (l : list B) : result A :=
  match l with
  | [] => Ok a
  | b :: r => a' ← f a b; fold_result f a' r
  end.

(** [dst[section] = src[section]]: the section of [dst] is emptied, then
    every option the proxy of [src] lists is read from [src], with
    interpolation, and set in [dst]. *)
Definition setitem_proxy (src : t) (dst : t) (section : string) : result t :=
  let dst := setitem_empty dst section in
  keys ← proxy_options src section;
  fold_result
    (fun dst k =>
       v ← proxy_getitem src section k;
       set dst section (optionxform k) v)
    dst keys.

(** [dst.update(src)], the [MutableMapping] method: one assignment per
    section of [src], [DEFAULT] first. *)
Definition update (dst src : t) : result t :=
  fold_result (setitem_proxy src) dst (default_section :: sections src).

(** No method of the parser is atomic.  What a loop of assignments
    leaves behind when it stops, at its end or where a step raises;
    [left a b] is what the raising step leaves of [a]. *)
Fixpoint fold_leaves {A B : Type} (f : A -> B -> result A)
    (left : A -> B -> A) (a : A) (l : list B) : A :=
  match l with
  | [] => a
  | b :: r =>
      match f a b with
      | Ok a' => fold_leaves f left a' r
      | Err _ => left a b
      end
  end.

(** What [dst[section] = src[section]] leaves of [dst], also when it
    raises: the section emptied, then the options set before the one
    that raised. *)
Definition setitem_proxy_leaves (src : t) (dst : t) (section : string) : t :=
  let dst := setitem_empty dst section in
  match proxy_options src section with
  | Err _ => dst
  | Ok keys =>
      fold_leaves
        (fun dst k =>
           v ← proxy_getitem src section k;
           set dst section (optionxform k) v)
        (fun dst _ => dst)
        dst keys
  end.

(** What [dst.update(src)] leaves of [dst], also when it raises. *)
Definition update_leaves (dst src : t) : t :=
  fold_leaves (setitem_proxy src) (setitem_proxy_leaves src) dst
    (default_section :: sections src).

(** *** Writing *)

Definition write_value (value : string) : string :=
  Text.replace_char Text.LF (String Text.LF (String Text.TAB EmptyString)) value.

Fixpoint write_items (d : items) : string :=
  match d with
  | [] => EmptyString
  | (key, value) :: r =>
      key ++ " = " ++ write_value value ++ Text.nl ++ write_items r
  end.

Definition write_section (name : string) (d : items) : string :=
  "[" ++ name ++ "]" ++ Text.nl ++ write_items d ++ Text.nl.

Fixpoint write_sections (l : list (string * items)) : string :=
  match l with
  | [] => EmptyString
  | (name, d) :: r => write_section name d ++ write_sections r
  end.

(** [parser.write(fp)]: the text written to [fp]. *)
Definition write (p : t) : string :=
  (match defaults p with
   | [] => EmptyString
   | d => write_section default_section d
   end) ++ write_sections (sections_ p).

(** *** Parsing *)

(** While a file is read, a value is the list of its lines. *)
Definition raw_items : Type := list (string * list string).

Record pstate : Type := mk_pstate {
  ps_defaults : raw_items;
  ps_sections : list (string * raw_items);
  ps_cursect : option string;  (* name of the section [cursect] is *)
  ps_optname : option string;
  ps_indent : nat;
  ps_error : bool              (* a [ParsingError] is pending *)
}.

Definition ps_init : pstate := mk_pstate [] [] None None 0 false.

Definition cursect (st : pstate) (sect : string) : raw_items :=
  if String.eqb sect default_section then ps_defaults st
  else default [] (dict_get sect (ps_sections st)).

Definition set_cursect (st : pstate) (sect : string) (d : raw_items)
  : pstate :=
  if String.eqb sect default_section
  then mk_pstate d (ps_sections st) (ps_cursect st) (ps_optname st)
         (ps_indent st) (ps_error st)
  else mk_pstate (ps_defaults st) (dict_set sect d (ps_sections st))
         (ps_cursect st) (ps_optname st) (ps_indent st) (ps_error st).

(** [cursect[optname].append(value)] *)
Definition append_value (st : pstate) (sect opt value : string) : pstate :=
  let d := cursect st sect in
  set_cursect st sect (dict_set opt (default [] (dict_get opt d) ++ [value]) d).

(** [SECTCRE]: a bracket, one character or more, a bracket; the header
    runs to the last closing bracket of the line. *)
Fixpoint upto_last_bracket (s : string) : option string :=
  match s with
  | EmptyString => None
  | String c r =>
      match upto_last_bracket r with
      | Some h => Some (String c h)
      | None => if Ascii.eqb c "]"%char then Some EmptyString else None
      end
  end.

Definition sect_match (value : string) : option string :=
  match value with
  | String c r =>
      if Ascii.eqb c "["%char then
        match upto_last_bracket r with
        | Some h => if Text.is_empty h then None else Some h
        | None => None
        end
      else None
  | EmptyString => None
  end.

Definition is_delimiter (c : ascii) : bool :=
  Ascii.eqb c "="%char || Ascii.eqb c ":"%char.

(** The text before and after the first delimiter. *)
Fixpoint split_delimiter (s : string) : option (string * string) :=
  match s with
  | EmptyString => None
  | String c r =>
      if is_delimiter c then Some (EmptyString, r)
      else match split_delimiter r with
           | Some (a, b) => Some (String c a, b)
           | None => None
           end
  end.

(** [_optcre]: the groups [option] and [value]; the lazy [option] group
    stops before the white space that precedes the first delimiter. *)
Definition opt_match (value : string) : option (string * string) :=
  match split_delimiter value with
  | Some (a, b) => Some (Text.rstrip a, b)
  | None => None
  end.

Definition is_comment (stripped : string) : bool :=
  Text.startswith "#" stripped || Text.startswith ";" stripped.

(** A Python [if optname]: neither [None] nor the empty string. *)
Definition truthy (o : option string) : option string :=
  match o with
  | Some s => if Text.is_empty s then None else Some s
  | None => None
  end.

Definition header_line (st : pstate) (indent : nat) (sectname : string)
  : result pstate :=
  if dict_mem sectname (ps_sections st)
  then Err (DuplicateSectionError sectname)
  else if String.eqb sectname default_section
  then Ok (mk_pstate (ps_defaults st) (ps_sections st) (Some sectname) None
             indent (ps_error st))
  else Ok (mk_pstate (ps_defaults st) (ps_sections st ++ [(sectname, [])])
             (Some sectname) None indent (ps_error st)).

Definition option_line (st : pstate) (indent : nat) (sect : string)
    (value : string) : result pstate :=
  match opt_match value with
  | Some (name, optval) =>
      let err := ps_error st || Text.is_empty name in
      let optname := optionxform (Text.rstrip name) in
      if dict_mem optname (cursect st sect)
      then Err (DuplicateOptionError sect optname)
      else
        let st' := set_cursect st sect
                     (dict_set optname [Text.strip optval] (cursect st sect)) in
        Ok (mk_pstate (ps_defaults st') (ps_sections st') (ps_cursect st)
              (Some optname) indent err)
  | None =>
      Ok (mk_pstate (ps_defaults st) (ps_sections st) (ps_cursect st)
            (ps_optname st) indent true)
  end.

(** One turn of the loop of [_read]. *)
Definition read_line (st : pstate) (line : string) : result pstate :=
  let stripped := Text.strip line in
  let comment := is_comment stripped in
  let value := if comment then EmptyString else stripped in
  if Text.is_empty value then
    match ps_cursect st, truthy (ps_optname st) with
    | Some sect, Some opt =>
        if comment then Ok st else Ok (append_value st sect opt EmptyString)
    | _, _ => Ok st
    end
  else
    let cur_indent := default 0 (Text.first_nonspace line) in
    let continuation :=
      match ps_cursect st, truthy (ps_optname st) with
      | Some sect, Some opt =>
          if Nat.ltb (ps_indent st) cur_indent then Some (sect, opt) else None
      | _, _ => None
      end in
    match continuation with
    | Some (sect, opt) => Ok (append_value st sect opt value)
    | None =>
        match sect_match value with
        | Some sectname => header_line st cur_indent sectname
        | None =>
            match ps_cursect st with
            | None => Err MissingSectionHeaderError
            | Some sect => option_line st cur_indent sect value
            end
        end
    end.

(** [_join_multiline_values] *)
Definition join_values (d : raw_items) : items :=
  map (fun kv => (fst kv, Text.rstrip (Text.join Text.nl (snd kv)))) d.

(** [_read] on a new parser: the text of the file to the parser it
    yields.  A pending [ParsingError] is raised after the last line. *)
Definition read_string (text : string) : result t :=
  st ← fold_result read_line ps_init (Text.lines text);
  if ps_error st then Err ParsingError
  else Ok (mk (join_values (ps_defaults st))
             (map (fun s => (fst s, join_values (snd s))) (ps_sections st))).

End ConfigParser.

(** ** The option schema *)

Inductive OptionType : Type := str | bool_.

Record ConfigOption : Type := mk_option {
  name : string;
  label : string;
  description : string;
  option_type : OptionType;
  default_ : string;
  required : bool
}.

Definition Server : ConfigOption :=
  mk_option "server" "Server"
    "Hostname or IP-Address of the ThinClient-Host-Server" str "" true.
Definition Username : ConfigOption :=
  mk_option "user" "Username"
    "Username of the user that should be used by this ThinClient" str "" true.
Definition Fullscreen : ConfigOption :=
  mk_option "fullscreen" "Fullscreen"
    "Run rdesktop in fullscreen mode (default: yes)" bool_ "yes" false.

(** [RAPTIC.configuration_options], a dict keyed by label. *)
Definition configuration_options : list (string * ConfigOption) :=
  [("Server", Server); ("Username", Username); ("Fullscreen", Fullscreen)].

(** ** The terminal, the file system and the process *)

(** Exit codes of a [dialog] widget. *)
Inductive DialogCode : Type := OK | CANCEL | ESC | EXTRA | HELP.

#[global] Instance DialogCode_eq_dec : EqDecision DialogCode.
Proof. solve_decision. Defined.

(** What the user does with one widget: the button, the item the cursor
    is on (menus and radio lists) and the text typed (input boxes). *)
Record answer : Type := mk_answer {
  a_code : DialogCode;
  a_pick : nat;
  a_text : string
}.

(** What the process shows or launches, in order. *)
Inductive event : Type :=
| Msgbox (text title : string)
| Inputbox (text init : string)
| Menu (text : string) (choices : list (string * string))
| Radiolist (text : string) (choices : list (string * string * bool))
| Yesno (text : string)
| Call (command : string)
| Clear.

(** The object [self] and the world around it. *)
Record state : Type := mk_state {
  config : ConfigParser.t;             (* self.config *)
  config_path : string;                (* self.__config_path *)
  files : gmap string string;          (* regular files: file to text *)
  resolve : string -> string;          (* the file a path leads to *)
  unreadable : string -> bool;         (* open(path) raises an OSError *)
  open_error : string -> option exn;   (* what open(path, 'w') raises *)
  home : option string;                (* the home directory, if known *)
  cwd : string;                        (* os.getcwd() *)
  which_rdesktop : option string;      (* output of `which rdesktop` *)
  answers : list answer;               (* the user's answers to come *)
  log : list event
}.

Definition with_config (c : ConfigParser.t) (st : state) : state :=
  mk_state c (config_path st) (files st) (resolve st) (unreadable st)
    (open_error st) (home st) (cwd st) (which_rdesktop st) (answers st)
    (log st).
Definition with_config_path (p : string) (st : state) : state :=
  mk_state (config st) p (files st) (resolve st) (unreadable st)
    (open_error st) (home st) (cwd st) (which_rdesktop st) (answers st)
    (log st).
Definition with_files (f : gmap string string) (st : state) : state :=
  mk_state (config st) (config_path st) f (resolve st) (unreadable st)
    (open_error st) (home st) (cwd st) (which_rdesktop st) (answers st)
    (log st).
Definition with_answers (a : list answer) (st : state) : state :=
  mk_state (config st) (config_path st) (files st) (resolve st)
    (unreadable st) (open_error st) (home st) (cwd st) (which_rdesktop st)
    a (log st).
Definition with_log (l : list event) (st : state) : state :=
  mk_state (config st) (config_path st) (files st) (resolve st)
    (unreadable st) (open_error st) (home st) (cwd st) (which_rdesktop st)
    (answers st) l.

(** How a piece of the program ends. *)
Inductive outcome (A : Type) : Type :=
| Ret (a : A) (st : state)          (* it returns [a] *)
| Raised (e : exn) (st : state)     (* an exception propagates *)
| Exited (code : Z) (st : state)    (* [exit(code)] was called *)
| Blocked (st : state)              (* a dialog waits for an answer *)
| OutOfFuel (st : state).
Arguments Ret {A} a st.
Arguments Raised {A} e st.
Arguments Exited {A} code st.
Arguments Blocked {A} st.
Arguments OutOfFuel {A} st.

Definition M (A : Type) : Type := state -> outcome A.

#[global] Instance M_ret : MRet M := fun A a st => Ret a st.
#[global] Instance M_bind : MBind M := fun A B f m st =>
  match m st with
  | Ret a st' => f a st'
  | Raised e st' => Raised e st'
  | Exited c st' => Exited c st'
  | Blocked st' => Blocked st'
  | OutOfFuel st' => OutOfFuel st'
  end.

Definition final {A : Type} (o : outcome A) : state :=
  match o with
  | Ret _ st | Raised _ st | Exited _ st | Blocked st | OutOfFuel st => st
  end.

Definition get_state : M state := fun st => Ret st st.
Definition modify (f : state -> state) : M unit := fun st => Ret tt (f st).
Definition raise {A : Type} (e : exn) : M A := fun st => Raised e st.

(** A pure library call made from the program. *)
Definition lift {A : Type} (r : result A) : M A :=
  match r with
  | Ok a => mret a
  | Err e => raise e
  end.

(** [try: body  except FileNotFoundError: handler] *)
Definition try_except_FileNotFoundError {A : Type} (body handler : M A)
  : M A := fun st =>
  match body st with
  | Raised FileNotFoundError st' => handler st'
  | o => o
  end.

(** Every widget blocks until the user answers. *)
Definition show (e : event) : M answer := fun st =>
  let st' := with_log (log st ++ [e]) st in
  match answers st with
  | [] => Blocked st'
  | a :: r => Ret a (with_answers r st')
  end.

Module Dialog.

Definition msgbox (text title : string) : M DialogCode :=
  a ← show (Msgbox text title); mret (a_code a).

Definition inputbox (text init : string) : M (DialogCode * string) :=
  a ← show (Inputbox text init); mret (a_code a, a_text a).

(** The tag under the cursor; the cursor starts on [start]. *)
Definition selected (tags : list string) (start : string) (pick : nat)
  : string := nth pick tags start.

Definition menu (text : string) (choices : list (string * string))
  : M (DialogCode * string) :=
  a ← show (Menu text choices);
  mret (a_code a, selected (map fst choices) (hd "" (map fst choices))
                    (a_pick a)).

Definition radiolist (text : string) (choices : list (string * string * bool))
    (default_item : string) : M (DialogCode * string) :=
  a ← show (Radiolist text choices);
  mret (a_code a, selected (map (fun c => fst (fst c)) choices) default_item
                    (a_pick a)).

Definition yesno (text : string) : M DialogCode :=
  a ← show (Yesno text); mret (a_code a).

End Dialog.

(** ** The program *)

Definition WELCOME : string :=
  "Welcome to RAPTIC!" ++ Text.nl ++
  "This appears to be the first time you run RAPTIC on this PC. We therefore will generate a new configuration in the following steps.".
Definition ABORTED : string :=
  "Configuration aborted. No configuration file written...".
Definition WRITTEN : string :=
  "Configuration file has been written. You can now start using RAPTIC.".
Definition NOT_WRITEABLE (path : string) : string :=
  "Configuration file (" ++ path ++ ") is not writeable.".
Definition SAVED : string := "The config has been written to file.".
Definition NOT_IN_PATH : string :=
  "It appears that rdesktop is not in your PATH. This could be becauseof wrong settings or rdesktop is currently not installed.".
Definition WHAT_SETTING : string := "What setting do you want to change?".
Definition REALLY_BACK : string :=
  "Do you really want to go back without saving the configuration?".
Definition WHAT_TO_DO : string := "What do you want to do?".

Definition MAIN_CHOICES : list (string * string) :=
  [ ("1", "Start ThinClient"); ("2", "Change configuration");
    ("3", "Start desktop environment"); ("x", "Exit RAPTIC") ].

(** [abspath(expanduser(expandvars(filename)))] *)
Definition expand (home_dir : option string) (cwd filename : string)
  : string :=
  Path.abspath cwd (Path.expanduser home_dir (Path.expandvars filename)).

Definition CANDIDATES : list string := ["~/.raptic"; "~/.config/raptic"].

(** The text of the regular file that [path] leads to, if there is
    one. *)
Definition file_at (st : state) (path : string) : option string :=
  files st !! resolve st path.

(** [isfile(path)]: [stat] follows symbolic links. *)
Definition isfile (st : state) (path : string) : bool :=
  bool_decide (is_Some (file_at st path)).

(** [self.config.read(filename)]: [read] passes over a file that [open]
    raises an [OSError] for (it is not there, or the process may not read
    it); a file that cannot be parsed raises. *)
Definition config_read (filename : string) : M unit := fun st =>
  match file_at st filename with
  | None => Ret tt st
  | Some text =>
      if unreadable st filename then Ret tt st
      else
        match ConfigParser.read_string text with
        | Ok p => Ret tt (with_config p st)
        | Err e => Raised e st
        end
  end.

(** The loop of [__read_config], left by [break] at the first file. *)
Fixpoint read_candidates (l : list string) : M unit :=
  match l with
  | [] => mret tt
  | filename :: r =>
      st ← get_state;
      let filename := expand (home st) (cwd st) filename in
      if isfile st filename then
        _ ← config_read filename;
        modify (with_config_path filename)
      else read_candidates r
  end.

Definition read_config : M unit :=
  _ ← modify (with_config_path "");
  _ ← modify (with_config ConfigParser.empty);
  _ ← read_candidates CANDIDATES;
  st ← get_state;
  if Text.is_empty (config_path st)
  then modify (with_config_path (expand (home st) (cwd st) "~/.raptic"))
  else mret tt.

(** [Popen('clear')], then [exit(code)]. *)
Definition exit {A : Type} (code : Z) : M A := fun st =>
  Exited code (with_log (log st ++ [Clear]) st).

(** [open(path, 'w')] truncates or creates the file that [path] leads
    to, or raises; [self.config.write(f)] then fills it. *)
Definition config_save : M unit := fun st =>
  match open_error st (config_path st) with
  | Some e => Raised e st
  | None =>
      Ret tt (with_files
                (<[resolve st (config_path st) :=
                     ConfigParser.write (config st)]> (files st)) st)
  end.

(** [self.config['general'][opt] = value] *)
Definition config_set (opt value : string) : M unit :=
  st ← get_state;
  c ← lift (ConfigParser.section_set (config st) "general" opt value);
  modify (with_config c).

(** One turn of the loop of [__first_start]. *)
Definition first_start_option (option : ConfigOption) : M unit :=
  value ← (if required option then
             '(code, value) ← Dialog.inputbox (label option) "";
             _ ← (if bool_decide (code ≠ OK)
                  then _ ← Dialog.msgbox ABORTED ""; mret tt
                  else mret tt);
             mret value
           else mret (default_ option));
  config_set (name option) value.

Fixpoint for_each {A : Type} (body : A -> M unit) (l : list A) : M unit :=
  match l with
  | [] => mret tt
  | a :: r => _ ← body a; for_each body r
  end.

(** The [try] statement that ends [__first_start]. *)
Definition first_start_save : M unit :=
  try_except_FileNotFoundError
    (_ ← config_save;
     _ ← Dialog.msgbox WRITTEN "";
     mret tt)
    (st ← get_state;
     _ ← Dialog.msgbox (NOT_WRITEABLE (config_path st)) "";
     exit 1).

Definition first_start : M unit :=
  _ ← Dialog.msgbox WELCOME "";
  _ ← modify (fun st =>
         with_config (ConfigParser.setitem_empty (config st) "general") st);
  _ ← for_each first_start_option (map snd configuration_options);
  first_start_save.

(** The choices of the edit menu: each label with the value the scratch
    copy holds. *)
Fixpoint edit_choices (config_tmp : ConfigParser.t)
    (options : list ConfigOption) : result (list (string * string)) :=
  match options with
  | [] => Ok []
  | option :: r =>
      v ← ConfigParser.section_get config_tmp "general" (name option);
      rest ← edit_choices config_tmp r;
      Ok ((label option, v) :: rest)
  end.

(** The [CHANGE] branch: the new scratch copy, and whether a value was
    confirmed. *)
Definition change_option (config_tmp : ConfigParser.t) (tag : string)
  : M (ConfigParser.t * bool) :=
  match dict_get tag configuration_options with
  | None => raise (KeyError tag)
  | Some option =>
      '(code_change, value) ←
        match option_type option with
        | bool_ =>
            current_value ←
              lift (ConfigParser.getboolean config_tmp "general" (name option));
            Dialog.radiolist (label option)
              [ ("yes", "", current_value); ("no", "", negb current_value) ]
              (if current_value then "yes" else "no")
        | str =>
            init ← lift (ConfigParser.section_get config_tmp "general"
                           (name option));
            Dialog.inputbox (label option) init
        end;
      if bool_decide (code_change = OK) then
        c ← lift (ConfigParser.section_set config_tmp "general"
                    (name option) value);
        mret (c, true)
      else mret (config_tmp, false)
  end.

(** The [SAVE] branch.  [self.config.update(config_tmp)] is not atomic:
    [self.config] becomes what the update leaves of it, and the exception
    of the update, if there is one, propagates. *)
Definition save_edit (config_tmp : ConfigParser.t) : M unit :=
  st ← get_state;
  _ ← modify (with_config
                (ConfigParser.update_leaves (config st) config_tmp));
  _ ← lift (ConfigParser.update (config st) config_tmp);
  try_except_FileNotFoundError
    (_ ← config_save;
     _ ← Dialog.msgbox SAVED "RAPTIC";
     mret tt)
    (st ← get_state;
     _ ← Dialog.msgbox (NOT_WRITEABLE (config_path st)) "ERROR";
     mret tt).

(** What one turn of the loop of [__config_edit] does: it returns from
    the function, or goes round again with the scratch copy and the
    [config_changed] flag. *)
Inductive edit_turn : Type :=
| Return
| Again (config_tmp : ConfigParser.t) (config_changed : bool).

Definition config_edit_turn (config_tmp : ConfigParser.t)
    (config_changed : bool) : M edit_turn :=
  choices ← lift (edit_choices config_tmp (map snd configuration_options));
  '(code, tag) ← Dialog.menu WHAT_SETTING choices;
  match code with
  | CANCEL =>
      if config_changed then
        code_exit ← Dialog.yesno REALLY_BACK;
        if bool_decide (code_exit = OK) then mret Return
        else mret (Again config_tmp config_changed)
      else mret Return
  | OK =>
      '(c, changed) ← change_option config_tmp tag;
      mret (Again c (changed || config_changed))
  | EXTRA =>
      _ ← save_edit config_tmp;
      mret Return
  | _ => mret (Again config_tmp config_changed)
  end.

Fixpoint config_edit_loop (fuel : nat) (config_tmp : ConfigParser.t)
    (config_changed : bool) : M unit :=
  match fuel with
  | O => fun st => OutOfFuel st
  | S n =>
      turn ← config_edit_turn config_tmp config_changed;
      match turn with
      | Return => mret tt
      | Again c changed => config_edit_loop n c changed
      end
  end.

(** [__config_edit].  Every turn of its loop takes an answer, so one
    turn more than there are answers is as good as [while True]. *)
Definition config_edit : M unit :=
  st ← get_state;
  config_tmp ← lift (ConfigParser.update ConfigParser.empty (config st));
  config_edit_loop (S (length (answers st))) config_tmp false.

(** [subprocess.call(command, shell=True)]: the child runs, the parent
    waits and ignores its exit status. *)
Definition call (command : string) : M unit :=
  modify (fun st => with_log (log st ++ [Call command]) st).

(** The command line of [__rdesktop_start]. *)
Definition rdesktop_command (rdesktop user server : string)
    (fullscreen : bool) : string :=
  "xinit " ++ rdesktop ++ " -u " ++ user ++ " " ++ server ++ " "
  ++ (if fullscreen then "-f" else "").

Definition rdesktop_start : M unit :=
  st ← get_state;
  rdesktop_path ←
    match which_rdesktop st with
    | Some out => mret (Text.strip out)
    | None => _ ← Dialog.msgbox NOT_IN_PATH ""; exit 1
    end;
  user ← lift (ConfigParser.get (config st) "general" "user");
  server ← lift (ConfigParser.get (config st) "general" "server");
  fullscreen ← lift (ConfigParser.getboolean (config st) "general"
                       "fullscreen");
  call (rdesktop_command rdesktop_path user server fullscreen).

Definition desktop_environment_start : M unit := call "startx".

(** [__menu]: [false] when the user chose to leave. *)
Definition menu : M bool :=
  '(code, tag) ← Dialog.menu WHAT_TO_DO MAIN_CHOICES;
  _ ← (if bool_decide (code ≠ OK) then exit 1 else mret tt);
  if String.eqb tag "1" then _ ← rdesktop_start; mret true
  else if String.eqb tag "2" then _ ← config_edit; mret true
  else if String.eqb tag "3" then _ ← desktop_environment_start; mret true
  else if String.eqb tag "x" then mret false
  else mret true.

Fixpoint menu_loop (fuel : nat) : M unit :=
  match fuel with
  | O => fun st => OutOfFuel st
  | S n =>
      continue ← menu;
      _ ← (if continue : bool then mret tt else exit 0) : M unit;
      menu_loop n
  end.

(** [run].  Every turn of the menu loop takes an answer. *)
Definition run : M unit :=
  st ← get_state;
  _ ← (if bool_decide (ConfigParser.sections (config st) = [])
       then first_start else mret tt);
  st ← get_state;
  menu_loop (S (length (answers st))).

(** [raptic = RAPTIC()] and [raptic.run()] *)
Definition main : M unit :=
  _ ← read_config;
  run.

(** * Vocabulary of the properties *)

(** ** The candidate paths *)

(** The two candidates of [__read_config], expanded. *)
Definition first_candidate (st : state) : string :=
  expand (home st) (cwd st) "~/.raptic".
Definition second_candidate (st : state) : string :=
  expand (home st) (cwd st) "~/.config/raptic".

(** ** What the process shows *)

(** A piece of the program only adds to what was shown. *)
Definition extends {A : Type} (m : M A) : Prop :=
  forall st, exists l, log (final (m st)) = log st ++ l.

(** The first screen a piece of the program shows when started in [st]. *)
Definition first_screen {A : Type} (st : state) (o : outcome A)
  : option event := log (final o) !! length (log st).

(** Wherever it starts, the first screen it shows is [e]. *)
Definition starts_with {A : Type} (e : event) (m : M A) : Prop :=
  forall st, first_screen st (m st) = Some e.

(** The state in which the process ends when it leaves the main menu:
    the menu was shown, its answer taken, the screen cleared. *)
Definition after_menu_exit (st : state) (rest : list answer) : state :=
  with_log ((log st ++ [Menu WHAT_TO_DO MAIN_CHOICES]) ++ [Clear])
    (with_answers rest st).

(** The last character of a text, if any. *)
Fixpoint last_char (s : string) : option ascii :=
  match s with
  | EmptyString => None
  | String c EmptyString => Some c
  | String _ r => last_char r
  end.

(** ** Weakest preconditions *)

(** [wp m Q E st]: started in [st], [m] returns a value and a state that
    satisfy [Q], or ends in any other way in a state that satisfies [E]. *)
Definition wp {A : Type} (m : M A) (Q : A -> state -> Prop)
    (E : state -> Prop) (st : state) : Prop :=
  match m st with
  | Ret a st' => Q a st'
  | Raised _ st' | Exited _ st' | Blocked st' | OutOfFuel st' => E st'
  end.

(** ** Ending *)

(** A piece of the program takes answers and never gives any back. *)
Definition shrinks {A : Type} (m : M A) : Prop :=
  forall st, length (answers (final (m st))) <= length (answers st).

(** It ends by itself: returning, raising, exiting or waiting. *)
Definition ends {A : Type} (o : outcome A) : Prop :=
  match o with
  | OutOfFuel _ => False
  | _ => True
  end.

(** It does so wherever it starts. *)
Definition total {A : Type} (m : M A) : Prop := forall st, ends (m st).

(** ** What is committed *)

(** What is committed: the configuration of the object, its save target
    and the files. *)
Definition committed (st0 st : state) : Prop :=
  config st = config st0 /\ config_path st = config_path st0
  /\ files st = files st0.

(** The user never presses SAVE. *)
Definition no_save (st : state) : Prop :=
  Forall (fun a => a_code a <> EXTRA) (answers st).

(** The committed state is that of [st0] and SAVE is not to come. *)
Definition untouched (st0 st : state) : Prop := committed st0 st /\ no_save st.

(** A piece of the program that leaves the committed state alone as long
    as SAVE is not pressed. *)
Definition keeps {A : Type} (st0 : state) (m : M A) : Prop :=
  forall st, untouched st0 st ->
    wp m (fun _ => untouched st0) (untouched st0) st.

(** ** What a parser stores *)

(** The raw value a parser holds for an option of [[general]]. *)
Definition stored (c : ConfigParser.t) (opt : string) : option string :=
  match dict_get "general" (ConfigParser.sections_ c) with
  | Some d => dict_get opt d
  | None => None
  end.

(** The scratch copy holds [yes] or [no] for [fullscreen]. *)
Definition yes_or_no (c : ConfigParser.t) : Prop :=
  stored c "fullscreen" = Some "yes" \/ stored c "fullscreen" = Some "no".

(** One turn of the editor from one scratch copy to the next, whatever
    the state of the world and whatever the user answers. *)
Definition edit_step (c c' : ConfigParser.t) : Prop :=
  exists changed st changed' st',
    config_edit_turn c changed st = Ret (Again c' changed') st'.

(** ** Plain configurations *)

(** Every character of the text satisfies [p]. *)
Fixpoint all_chars (p : ascii -> bool) (s : string) : bool :=
  match s with
  | EmptyString => true
  | String c r => p c && all_chars p r
  end.

(** The characters that end a line of a text-mode file. *)
Definition is_newline (c : ascii) : bool :=
  Ascii.eqb c Text.LF || Ascii.eqb c Text.CR.

(** The text holds no line terminator. *)
Definition one_line (s : string) : bool :=
  all_chars (fun c => negb (is_newline c)) s.

(** [s.lstrip() == s] and [s.rstrip() == s]. *)
Definition no_leading_space (s : string) : bool :=
  match s with
  | EmptyString => true
  | String c _ => negb (Text.isspace c)
  end.

Definition no_trailing_space (s : string) : bool :=
  String.eqb (Text.rstrip s) s.

(** The first character of an option name: not white space and not the
    opening of a comment or of a section header. *)
Definition first_char_ok (k : string) : bool :=
  match k with
  | EmptyString => false
  | String c _ =>
      negb (Text.isspace c) && negb (Ascii.eqb c "#"%char)
      && negb (Ascii.eqb c ";"%char) && negb (Ascii.eqb c "["%char)
  end.

(** An option name that survives the round trip: not empty, on one
    line, no white space at either end, no delimiter, not opening like a
    comment or a section header, and already in lower case. *)
Definition plain_key (k : string) : bool :=
  first_char_ok k && no_trailing_space k && one_line k
  && all_chars (fun c => negb (ConfigParser.is_delimiter c)) k
  && String.eqb (Text.lower k) k.

(** A value that survives: on one line, no white space at either end. *)
Definition plain_value (v : string) : bool :=
  no_leading_space v && no_trailing_space v && one_line v.

(** A section name that survives: not empty and on one line. *)
Definition plain_name (name : string) : bool :=
  negb (Text.is_empty name) && one_line name.

(** An option that survives. *)
Definition plain_item (kv : string * string) : bool :=
  plain_key (fst kv) && plain_value (snd kv).

(** No key occurs twice. *)
Fixpoint distinct_keys {V : Type} (d : list (string * V)) : bool :=
  match d with
  | [] => true
  | (k, _) :: r => negb (dict_mem k r) && distinct_keys r
  end.

(** Options of a section that survive: plain names, plain values, no
    name twice. *)
Definition plain_items (d : ConfigParser.items) : bool :=
  forallb plain_item d && distinct_keys d.

(** A section that survives; [DEFAULT] is written apart. *)
Definition plain_section (s : string * ConfigParser.items) : bool :=
  plain_name (fst s)
  && negb (String.eqb (fst s) ConfigParser.default_section)
  && plain_items (snd s).

(** A parser that survives the round trip. *)
Definition plain (p : ConfigParser.t) : bool :=
  plain_items (ConfigParser.defaults p)
  && forallb plain_section (ConfigParser.sections_ p)
  && distinct_keys (ConfigParser.sections_ p).

(** ** The lines of a written file and the parser over them *)

(** The lines [_write_section] produces. *)
Definition header (name : string) : string := "[" +:+ name +:+ "]".

Definition item_line (k v : string) : string := k +:+ " = " +:+ v.

(** What is left of an option line once stripped. *)
Definition stripped_item (k v : string) : string :=
  k +:+ " =" +:+ (if Text.is_empty v then "" else " " +:+ v).

Definition item_lines (d : ConfigParser.items) : list string :=
  map (fun kv => item_line (fst kv) (snd kv)) d.

(** The lines the writer produces for one section. *)
Definition section_lines (name : string) (d : ConfigParser.items)
  : list string := header name :: item_lines d ++ [""].

(** The lines of all the sections, in order. *)
Definition sections_lines (secs : list (string * ConfigParser.items))
  : list string := concat (map (fun s => section_lines (fst s) (snd s)) secs).

(** The values of a section while its lines are read: one line each. *)
Definition raw_open (d : ConfigParser.items) : ConfigParser.raw_items :=
  map (fun kv => (fst kv, [snd kv])) d.

(** The values of a section once the empty line that ends it is read:
    the line was added to the last value. *)
Fixpoint raw_closed (d : ConfigParser.items) : ConfigParser.raw_items :=
  match d with
  | [] => []
  | [(k, v)] => [(k, [v; ""])]
  | (k, v) :: r => (k, [v]) :: raw_closed r
  end.

(** The option a continuation line would be added to. *)
Definition last_key (d : ConfigParser.items) : option string :=
  fst <$> last d.

(** After the header of [sect] and the option lines of [d]. *)
Definition reading (st : ConfigParser.pstate) (sect : string)
    (d : ConfigParser.items) : ConfigParser.pstate :=
  let st' := ConfigParser.set_cursect st sect (raw_open d) in
  ConfigParser.mk_pstate (ConfigParser.ps_defaults st')
    (ConfigParser.ps_sections st') (Some sect) (last_key d) 0 false.

(** After the empty line as well. *)
Definition closed (st : ConfigParser.pstate) (sect : string)
    (d : ConfigParser.items) : ConfigParser.pstate :=
  let st' := ConfigParser.set_cursect st sect (raw_closed d) in
  ConfigParser.mk_pstate (ConfigParser.ps_defaults st')
    (ConfigParser.ps_sections st') (Some sect) (last_key d) 0 false.

(** A section as the parser holds it once all its lines are read. *)
Definition close_section (s : string * ConfigParser.items)
  : string * ConfigParser.raw_items := (fst s, raw_closed (snd s)).

(** ** Worlds and users for the examples *)

(** A world with the given files and no link, in which every file can
    be read, every path can be written and [rdesktop] is installed, and a
    user with the given answers. *)
Definition pi_home : string := "/home/pi".

Definition world (fs : gmap string string) (a : list answer) : state :=
  mk_state ConfigParser.empty "" fs (fun path => path) (fun _ => false)
    (fun _ => None) (Some pi_home) "/" (Some "/usr/bin/rdesktop") a [].

(** Answers: a button, a text confirmed with OK, an item and a button. *)
Definition press (c : DialogCode) : answer := mk_answer c 0 "".
Definition enter (text : string) : answer := mk_answer OK 0 text.
Definition choose (c : DialogCode) (item : nat) : answer := mk_answer c item "".

(** Both candidates exist and differ. *)
Definition two_files : gmap string string :=
  <["/home/pi/.raptic" := "[general]
server = first
"]> (<["/home/pi/.config/raptic" := "[general]
server = second
"]> ∅).

(** Both candidates exist; the first one cannot be opened for reading. *)
Definition locked_first : state :=
  mk_state ConfigParser.empty "" two_files (fun path => path)
    (fun path => String.eqb path "/home/pi/.raptic") (fun _ => None)
    (Some pi_home) "/" (Some "/usr/bin/rdesktop") [] [].

(** A configuration file that holds options under [[DEFAULT]] only. *)
Definition default_only : gmap string string :=
  <["/home/pi/.raptic" := "[DEFAULT]
server = 10.0.0.5
"]> ∅.

(** A configuration file that holds the bare header [[general]]. *)
Definition bare_header : gmap string string :=
  <["/home/pi/.raptic" := "[general]
"]> ∅.

(** The configuration of the launch example. *)
Definition alice_config (fullscreen : string) : ConfigParser.t :=
  ConfigParser.mk []
    [("general",
      [("server", "10.0.0.5"); ("user", "alice"); ("fullscreen", fullscreen)])].

Definition alice_file : gmap string string :=
  <["/home/pi/.raptic" := ConfigParser.write (alice_config "yes")]> ∅.

Definition saved_alice : state :=
  with_config_path "/home/pi/.raptic"
    (with_config (alice_config "yes") (world ∅ [])).

(** No configuration file; the user acknowledges the welcome, cancels
    the input box for the server, acknowledges the message, enters a user
    name and acknowledges the last message. *)
Definition cancelled_wizard : state :=
  world ∅ [press OK; press CANCEL; press OK; enter "alice"; press OK].

(** The same world with nothing writable. *)
Definition read_only (st : state) : state :=
  mk_state (config st) (config_path st) (files st) (resolve st)
    (unreadable st) (fun _ => Some PermissionError) (home st) (cwd st)
    (which_rdesktop st) (answers st) (log st).

(** First run in a home directory that is not writable. *)
Definition wizard_read_only : state :=
  read_only (world ∅ [press OK; enter "10.0.0.5"; enter "alice"; press OK]).

(** An existing, read-only configuration file; the user opens the
    editor and presses SAVE. *)
Definition editor_read_only : state :=
  read_only (world alice_file [choose OK 1; choose EXTRA 0; press OK]).

(** The user changes the server, presses BACK, declines to discard,
    presses BACK again and confirms. *)
Definition change_then_back : state :=
  with_config (alice_config "yes")
    (world ∅ [ choose OK 0; enter "192.168.1.1"; press CANCEL; press CANCEL;
               press CANCEL; press OK ]).

(** The user changes the server and presses SAVE. *)
Definition change_then_save : state :=
  with_config_path "/home/pi/.raptic"
    (with_config (alice_config "yes")
       (world ∅ [choose OK 0; enter "192.168.1.1"; choose EXTRA 0; press OK])).

(** The user picks [Fullscreen] in the editor and moves to [no]. *)
Definition toggle_fullscreen : state :=
  with_config (alice_config "yes") (world ∅ [choose OK 2; choose OK 1]).

(** The user types a blank before the user name in the wizard. *)
Definition wizard_leading_space : state :=
  world ∅ [press OK; enter "10.0.0.5"; enter " alice"; press OK].

(** ** Escapes in the editor *)

(** A button of the edit menu that none of the three branches of the
    loop handles. *)
Definition unhandled (a : answer) : bool :=
  match a_code a with
  | ESC | HELP => true
  | _ => false
  end.

(** ** Tidy configurations *)

(** The text holds no [%], the one character interpolation looks at. *)
Definition percent_free (v : string) : bool :=
  negb (Text.contains ConfigParser.PERCENT v).

(** An option as the parser and the wizard store it: the name in lower
    case, the value free of [%]. *)
Definition tidy_item (kv : string * string) : bool :=
  String.eqb (Text.lower (fst kv)) (fst kv) && percent_free (snd kv).

(** The options of a section: tidy, and no name twice. *)
Definition tidy_items (d : ConfigParser.items) : bool :=
  forallb tidy_item d && distinct_keys d.

(** A section other than [DEFAULT], with a name and tidy options. *)
Definition tidy_section (s : string * ConfigParser.items) : bool :=
  negb (Text.is_empty (fst s))
  && negb (String.eqb (fst s) ConfigParser.default_section)
  && tidy_items (snd s).

(** A configuration without defaults whose sections are tidy and occur
    once each. *)
Definition tidy (p : ConfigParser.t) : bool :=
  match ConfigParser.defaults p with [] => true | _ => false end
  && forallb tidy_section (ConfigParser.sections_ p)
  && distinct_keys (ConfigParser.sections_ p).

(** ** What the wizard builds *)

(** The configuration the wizard stores for a server and a user name,
    over the defaults [dflt]. *)
Definition wizard_config (dflt : ConfigParser.items) (server user : string)
  : ConfigParser.t :=
  ConfigParser.mk dflt
    [("general", [("server", server); ("user", user); ("fullscreen", "yes")])].

(** The state in which the wizard reaches its [try] statement when both
    input boxes were confirmed. *)
Definition collected (st : state) (server user : string)
    (rest : list answer) : state :=
  with_answers rest
    (with_log (log st ++ [ Msgbox WELCOME ""; Inputbox "Server" "";
                           Inputbox "Username" "" ])
       (with_config
          (wizard_config (ConfigParser.defaults (config st)) server user)
          st)).

(** The state the wizard ends in when every step succeeds. *)
Definition after_wizard (st : state) (server user : string)
    (rest : list answer) : state :=
  let c := wizard_config (ConfigParser.defaults (config st)) server user in
  with_answers rest
    (with_log (log st ++ [ Msgbox WELCOME ""; Inputbox "Server" "";
                           Inputbox "Username" ""; Msgbox WRITTEN "" ])
       (with_files (<[resolve st (config_path st) :=
                        ConfigParser.write c]> (files st))
          (with_config c st))).

(** The first [%] of the text is followed neither by a second [%] nor
    by an opening parenthesis. *)
Fixpoint stray_percent (v : string) : bool :=
  match v with
  | EmptyString => false
  | String c r =>
      if Ascii.eqb c ConfigParser.PERCENT then
        match r with
        | EmptyString => true
        | String c' _ =>
            negb (Ascii.eqb c' ConfigParser.PERCENT
                  || Ascii.eqb c' ConfigParser.LPAREN)
        end
      else stray_percent r
  end.

(** ** The three options *)

(** The section [general] holds the three options of the schema. *)
Definition complete (c : ConfigParser.t) (server user fullscreen : string)
  : Prop :=
  stored c "server" = Some server
  /\ stored c "user" = Some user
  /\ stored c "fullscreen" = Some fullscreen.

(** The choices of the edit menu for the three values. *)
Definition choices_of (server user fullscreen : string)
  : list (string * string) :=
  [("Server", server); ("Username", user); ("Fullscreen", fullscreen)].

(** The state after [SAVE] succeeded with the scratch copy
    [config_tmp]: the menu and the confirmation were shown. *)
Definition after_save (st : state) (config_tmp : ConfigParser.t)
    (choices : list (string * string)) (rest : list answer) : state :=
  with_answers rest
    (with_log (log st ++ [Menu WHAT_SETTING choices; Msgbox SAVED "RAPTIC"])
       (with_files
          (<[resolve st (config_path st) :=
               ConfigParser.write config_tmp]> (files st))
          (with_config config_tmp st))).

(** ** Missing options *)

(** The exceptions of [parser.get] for a section or an option that is
    not there. *)
Definition not_there (e : exn) : Prop :=
  e = NoSectionError "general" \/ exists k, e = NoOptionError k "general".

(** ** Invariants of the process *)

(** A piece of the program keeps [P] in whatever way it ends. *)
Definition inv (P : state -> Prop) {A : Type} (m : M A) : Prop :=
  forall st, P st -> wp m (fun _ => P) P st.

(** With respect to [st0]: the save target is the same and leads where
    it led, every file other than the one it leads to is as it was, and
    no file is gone. *)
Definition only_target (st0 st : state) : Prop :=
  config_path st = config_path st0
  /\ resolve st = resolve st0
  /\ (forall f, f <> resolve st0 (config_path st0) ->
        files st !! f = files st0 !! f)
  /\ (forall f, is_Some (files st0 !! f) -> is_Some (files st !! f)).

(** ** How the process leaves *)

(** [wpx m Q X st]: started in [st], if [m] returns, the value and the
    state satisfy [Q]; if it calls [exit], the code and the state
    satisfy [X]. *)
Definition wpx {A : Type} (m : M A) (Q : A -> state -> Prop)
    (X : Z -> state -> Prop) (st : state) : Prop :=
  match m st with
  | Ret a st' => Q a st'
  | Exited c st' => X c st'
  | _ => True
  end.

(** The two ways out: code 0 straight from the main menu, or code 1;
    the screen is cleared last. *)
Definition clean_exit (c : Z) (st : state) : Prop :=
  (c = 0%Z /\ exists l, log st = l ++ [Menu WHAT_TO_DO MAIN_CHOICES; Clear])
  \/ (c = 1%Z /\ exists l, log st = l ++ [Clear]).

(** A piece of the program that calls [exit] only in a way [X] allows. *)
Definition leaves (X : Z -> state -> Prop) {A : Type} (m : M A) : Prop :=
  forall st, wpx m (fun _ _ => True) X st.

(** How a run of the whole program may end. *)
Definition ends_cleanly (o : outcome unit) : Prop :=
  match o with
  | Ret _ _ => False
  | OutOfFuel _ => False
  | Exited c st => clean_exit c st
  | Raised _ _ | Blocked _ => True
  end.

(** ** Screens of the editor *)

(** The two items of the radio list, with the one that is on. *)
Definition yes_no_items (current_value : bool)
  : list (string * string * bool) :=
  [("yes", "", current_value); ("no", "", negb current_value)].

(** The question about leaving without saving is among the screens. *)
Definition asked (l : list event) : Prop := In (Yesno REALLY_BACK) l.

(** ** An escaped percent sign *)

(** A configuration whose user name holds one escaped percent sign,
    [%%], between two texts free of [%]. *)
Definition escaped_user (server a b fullscreen : string) : ConfigParser.t :=
  ConfigParser.mk []
    [("general", [ ("server", server); ("user", a +:+ "%%" +:+ b);
                   ("fullscreen", fullscreen) ])].

(** ** Lines the parser passes over *)

(** A line that is blank or a comment. *)
Definition skipped (line : string) : bool :=
  Text.is_empty (Text.strip line)
  || ConfigParser.is_comment (Text.strip line).

(** A line that is not a section header. *)
Definition not_a_header (line : string) : bool :=
  match ConfigParser.sect_match (Text.strip line) with
  | None => true
  | Some _ => false
  end.

(** ** What editing may change *)

(** The scratch copy [c'] differs from [c] at most in the values of
    [server], [user] and [fullscreen] under [general]: the defaults, the
    names and the order of the sections, the other sections and the
    other options of [general] are as they were, and no option of
    [general] is gone. *)
Definition edited (c c' : ConfigParser.t) : Prop :=
  ConfigParser.defaults c' = ConfigParser.defaults c
  /\ ConfigParser.sections c' = ConfigParser.sections c
  /\ (forall sect, sect <> "general" ->
        dict_get sect (ConfigParser.sections_ c')
        = dict_get sect (ConfigParser.sections_ c))
  /\ (forall k, ~ In k ["server"; "user"; "fullscreen"] ->
        stored c' k = stored c k)
  /\ (forall k, is_Some (stored c k) -> is_Some (stored c' k)).

(** ** More worlds and users for the examples *)

(** Only the second candidate exists. *)
Definition second_only : gmap string string :=
  <["/home/pi/.config/raptic" := "[general]
server = second
"]> ∅.

(** The same world without [rdesktop] on the search path. *)
Definition without_rdesktop (st : state) : state :=
  mk_state (config st) (config_path st) (files st) (resolve st)
    (unreadable st) (open_error st) (home st) (cwd st) None (answers st)
    (log st).

(** The same world in which the directory of every path is missing. *)
Definition no_directory (st : state) : state :=
  mk_state (config st) (config_path st) (files st) (resolve st)
    (unreadable st) (fun _ => Some FileNotFoundError) (home st) (cwd st)
    (which_rdesktop st) (answers st) (log st).

(** A world in which [~/.raptic] is a symbolic link to
    [/etc/raptic.conf], which holds the configuration of the launch
    example; the user opens the editor, changes the server and presses
    SAVE. *)
Definition linked_editor : state :=
  mk_state ConfigParser.empty ""
    (<["/etc/raptic.conf" := ConfigParser.write (alice_config "yes")]> ∅)
    (fun path =>
       if String.eqb path "/home/pi/.raptic" then "/etc/raptic.conf"
       else path)
    (fun _ => false) (fun _ => None) (Some pi_home) "/"
    (Some "/usr/bin/rdesktop")
    [choose OK 1; choose OK 0; enter "192.168.1.1"; choose EXTRA 0; press OK]
    [].

(** A process that found no file: its save target is [~/.raptic]. *)
Definition fresh_start (a : list answer) : state :=
  with_config_path "/home/pi/.raptic" (world ∅ a).

(** A process that loaded the configuration of the launch example. *)
Definition alice_start (fullscreen : string) (a : list answer) : state :=
  with_config_path "/home/pi/.raptic"
    (with_config (alice_config fullscreen) (world ∅ a)).

(** The user opens the editor, types a user name with an escaped
    percent sign and presses SAVE. *)
Definition escaped_then_save : list answer :=
  [choose OK 1; enter "100%%"; choose EXTRA 0].

(** The user completes the wizard. *)
Definition wizard_answers : list answer :=
  [press OK; enter "10.0.0.5"; enter "alice"; press OK].

(** The user changes the server, presses BACK and answers the question
    with yes, or with escape. *)
Definition change_back_yes : list answer :=
  [choose OK 0; enter "192.168.1.1"; press CANCEL; press OK].
Definition change_back_no : list answer :=
  [choose OK 0; enter "192.168.1.1"; press CANCEL; press ESC].

(** A configuration without the option [fullscreen]. *)
Definition no_fullscreen : ConfigParser.t :=
  ConfigParser.mk [] [("general", [("server", "10.0.0.5"); ("user", "alice")])].

(** A file without a section header. *)
Definition headless : gmap string string :=
  <["/home/pi/.raptic" := "# my thin client
server = 10.0.0.5
"]> ∅.

(** A file of comments and blank lines. *)
Definition comments_only : gmap string string :=
  <["/home/pi/.raptic" := "# to be filled in

; later
"]> ∅.

(** ** Texts within the command *)

(** [needle in s] *)
Fixpoint occurs (needle s : string) : bool :=
  String.prefix needle s
  || match s with
     | EmptyString => false
     | String _ r => occurs needle r
     end.

(** The flag that asks [rdesktop] for the full screen. *)
Definition FLAG : string := "-f".

(** The text ends with the first character of the flag; the text opens
    with its second one. *)
Definition ends_with_dash (s : string) : bool :=
  match last_char s with
  | Some c => Ascii.eqb c "-"%char
  | None => false
  end.

Definition starts_with_f (s : string) : bool :=
  match s with
  | String c _ => Ascii.eqb c "f"%char
  | EmptyString => false
  end.

(** A configuration whose server name holds the flag, with the option
    [fullscreen] off. *)
Definition flag_in_server : ConfigParser.t :=
  ConfigParser.mk []
    [("general",
      [("server", "10.0.0.5 -f"); ("user", "alice"); ("fullscreen", "no")])].

(** * Properties *)

(** ** Running the monad *)

Lemma bind_Ret {A B : Type} (m : M A) (f : A -> M B) st a st' :
  m st = Ret a st' -> (m ≫= f) st = f a st'.
Proof. intros H. unfold mbind, M_bind. now rewrite H. Qed.

Lemma bind_Raised {A B : Type} (m : M A) (f : A -> M B) st e st' :
  m st = Raised e st' -> (m ≫= f) st = Raised e st'.
Proof. intros H. unfold mbind, M_bind. now rewrite H. Qed.

Lemma bind_assoc {A B C : Type} (m : M A) (f : A -> M B) (g : B -> M C) st :
  ((m ≫= f) ≫= g) st = (m ≫= (fun a => f a ≫= g)) st.
Proof. unfold mbind, M_bind. now destruct (m st). Qed.

Ltac step H := rewrite ?bind_assoc; rewrite (bind_Ret _ _ _ _ _ H).

Ltac run_M :=
  unfold mbind, M_bind, mret, M_ret, get_state, modify, raise, lift; simpl.

(** ** Loading the configuration *)

Lemma expand_candidates st :
  map (expand (home st) (cwd st)) CANDIDATES
  = [first_candidate st; second_candidate st].
Proof. reflexivity. Qed.

(** [normpath] ends in [return path or dot]. *)
Lemma normpath_not_empty path : Text.is_empty (Path.normpath path) = false.
Proof.
  unfold Path.normpath. destruct (Text.is_empty path); [reflexivity|].
  cbv zeta.
  match goal with |- Text.is_empty (if Text.is_empty ?x then _ else _) = _ =>
    destruct (Text.is_empty x) eqn:E end; [reflexivity|exact E].
Qed.

Lemma expand_not_empty home_dir cwd filename :
  Text.is_empty (expand home_dir cwd filename) = false.
Proof. apply normpath_not_empty. Qed.

Lemma first_candidate_not_empty st : Text.is_empty (first_candidate st) = false.
Proof. apply expand_not_empty. Qed.

(** The candidates for a home directory that is [/], that is given with
    a slash at its end or relative to the working directory, and for a
    user without a home directory. *)
Lemma candidates_normalised :
  expand (Some "/") "/" "~/.raptic" = "/.raptic"
  /\ expand (Some "/home/pi/") "/" "~/.config/raptic"
     = "/home/pi/.config/raptic"
  /\ expand (Some "pi") "/home" "~/.raptic" = "/home/pi/.raptic"
  /\ expand None "/srv" "~/.raptic" = "/srv/~/.raptic".
Proof. repeat split; vm_compute; reflexivity. Qed.

#[local] Arguments expand : simpl never.

(** The loop of [__read_config] when the first candidate is a file. *)
Lemma read_config_at_first st text :
  file_at st (first_candidate st) = Some text ->
  read_config st =
    (_ ← config_read (first_candidate st);
     modify (with_config_path (first_candidate st)))
      (with_config ConfigParser.empty (with_config_path "" st)).
Proof.
  intros Hf. unfold read_config, CANDIDATES, read_candidates. run_M.
  unfold isfile, file_at. simpl. fold (first_candidate st).
  unfold file_at in Hf. rewrite Hf. simpl.
  destruct (config_read (first_candidate st) _) eqn:E; try reflexivity.
  simpl. now rewrite (first_candidate_not_empty st).
Qed.

(** What [__read_config] does when the first candidate is a file that
    can be read: the second candidate is never looked at. *)
Lemma read_config_first st text :
  file_at st (first_candidate st) = Some text ->
  unreadable st (first_candidate st) = false ->
  read_config st =
    match ConfigParser.read_string text with
    | Ok p =>
        Ret tt (with_config_path (first_candidate st)
                  (with_config p (with_config_path "" st)))
    | Err e =>
        Raised e (with_config ConfigParser.empty (with_config_path "" st))
    end.
Proof.
  intros Hf Hr. rewrite (read_config_at_first st text Hf). run_M.
  unfold config_read, file_at in *. simpl. rewrite Hf, Hr.
  now destruct (ConfigParser.read_string text).
Qed.

(** What it does when the first candidate is a file that cannot be
    read: [read] passes over it, the path is kept all the same and the
    second candidate is never looked at. *)
Lemma read_config_first_unreadable st text :
  file_at st (first_candidate st) = Some text ->
  unreadable st (first_candidate st) = true ->
  read_config st =
    Ret tt (with_config_path (first_candidate st)
              (with_config ConfigParser.empty (with_config_path "" st))).
Proof.
  intros Hf Hr. rewrite (read_config_at_first st text Hf). run_M.
  unfold config_read, file_at in *. simpl. now rewrite Hf, Hr.
Qed.

(** C5, as stated, fails: both candidate files exist and the first one
    parses, but it cannot be opened for reading; [read] passes over it,
    and loading yields the empty configuration, not the content of
    [~/.raptic], while it keeps that path as the save target. *)
Lemma unreadable_first_candidate :
  file_at locked_first (first_candidate locked_first) = Some "[general]
server = first
"
  /\ file_at locked_first (second_candidate locked_first) = Some "[general]
server = second
"
  /\ ConfigParser.read_string "[general]
server = first
" = Ok (ConfigParser.mk [] [("general", [("server", "first")])])
  /\ exists st',
       read_config locked_first = Ret tt st'
       /\ config st' = ConfigParser.empty
       /\ config st' <> ConfigParser.mk [] [("general", [("server", "first")])]
       /\ config_path st' = first_candidate locked_first.
Proof.
  split; [vm_compute; reflexivity|]. split; [vm_compute; reflexivity|].
  split; [vm_compute; reflexivity|]. eexists.
  split; [vm_compute; reflexivity|]. split; [reflexivity|].
  split; [discriminate|]. vm_compute; reflexivity.
Qed.

(** C5, amended.  When both candidate files exist and the first one,
    [~/.raptic], can be opened for reading, loading parses its text,
    whatever the second holds: the parser it yields becomes the
    configuration, that path becomes the save target and no file is
    touched (a text that does not parse makes the parser raise).  When
    the first one cannot be opened, loading yields the empty
    configuration and keeps [~/.raptic] as the save target all the same.
    Nothing is taken from the second file in either case. *)
Theorem load_priority st text1 text2 :
  file_at st (first_candidate st) = Some text1 ->
  file_at st (second_candidate st) = Some text2 ->
  (unreadable st (first_candidate st) = false ->
     (forall p, ConfigParser.read_string text1 = Ok p ->
        exists st', read_config st = Ret tt st'
          /\ config st' = p
          /\ config_path st' = first_candidate st
          /\ files st' = files st)
     /\ (forall e, ConfigParser.read_string text1 = Err e ->
           exists st', read_config st = Raised e st'))
  /\ (unreadable st (first_candidate st) = true ->
        exists st', read_config st = Ret tt st'
          /\ config st' = ConfigParser.empty
          /\ config_path st' = first_candidate st
          /\ files st' = files st).
Proof.
  intros H1 _. split; intros Hr.
  - rewrite (read_config_first st text1 H1 Hr). split.
    + intros p ->. eexists. split; [reflexivity|]. now simpl.
    + intros e ->. eexists. reflexivity.
  - rewrite (read_config_first_unreadable st text1 H1 Hr).
    eexists. split; [reflexivity|]. now simpl.
Qed.

(** C6.  When neither candidate file exists, loading yields the empty
    configuration and remembers [~/.raptic] as the save target; the next
    save, when the path can be written, writes exactly that file. *)
Theorem load_missing_files st :
  file_at st (first_candidate st) = None ->
  file_at st (second_candidate st) = None ->
  exists st', read_config st = Ret tt st'
    /\ config st' = ConfigParser.empty
    /\ config_path st' = first_candidate st
    /\ files st' = files st
    /\ (open_error st (first_candidate st) = None ->
        exists st'', config_save st' = Ret tt st''
          /\ files st'' =
               <[resolve st (first_candidate st) :=
                   ConfigParser.write ConfigParser.empty]>
                 (files st)).
Proof.
  intros H1 H2. unfold read_config, CANDIDATES, read_candidates. run_M.
  unfold isfile. simpl. unfold file_at, first_candidate, second_candidate in *.
  repeat (simpl; first [rewrite H1 | rewrite H2]). simpl.
  eexists. split; [reflexivity|]. simpl. repeat split.
  intros Hw. unfold config_save. simpl. rewrite Hw. eexists.
  split; reflexivity.
Qed.

Lemma load_priority_witness :
  (exists st', read_config (world two_files []) = Ret tt st'
     /\ config st' = ConfigParser.mk [] [("general", [("server", "first")])]
     /\ config_path st' = first_candidate (world two_files [])
     /\ files st' = files (world two_files []))
  /\ (exists st', read_config locked_first = Ret tt st'
        /\ config st' = ConfigParser.empty
        /\ config_path st' = first_candidate locked_first
        /\ files st' = files locked_first).
Proof.
  split.
  - refine (proj1 (proj1 (load_priority (world two_files []) "[general]
server = first
" "[general]
server = second
" _ _) _) _ _); vm_compute; reflexivity.
  - refine (proj2 (load_priority locked_first "[general]
server = first
" "[general]
server = second
" _ _) _); vm_compute; reflexivity.
Defined.

Lemma load_missing_files_witness :
  exists st', read_config (world ∅ []) = Ret tt st'
    /\ config st' = ConfigParser.empty
    /\ config_path st' = first_candidate (world ∅ [])
    /\ files st' = files (world ∅ [])
    /\ (open_error (world ∅ []) (first_candidate (world ∅ [])) = None ->
        exists st'', config_save st' = Ret tt st''
          /\ files st'' =
               <[resolve (world ∅ []) (first_candidate (world ∅ [])) :=
                   ConfigParser.write ConfigParser.empty]>
                 (files (world ∅ []))).
Proof.
  apply (load_missing_files (world ∅ [])); reflexivity.
Defined.

(** ** Launching the remote desktop *)

Lemma append_cons (x : ascii) (a b : string) :
  String x a +:+ b = String x (a +:+ b).
Proof. reflexivity. Qed.

Lemma append_nil_l (b : string) : "" +:+ b = b.
Proof. reflexivity. Qed.

Lemma append_assoc (a b c : string) : (a +:+ b) +:+ c = a +:+ (b +:+ c).
Proof.
  induction a as [|x a IH]; [reflexivity|].
  rewrite !append_cons. now f_equal.
Qed.

Lemma append_nil_r (a : string) : a +:+ "" = a.
Proof.
  induction a as [|x a IH]; [reflexivity|].
  rewrite append_cons. now f_equal.
Qed.

Lemma rdesktop_start_found st out user server fullscreen :
  which_rdesktop st = Some out ->
  ConfigParser.get (config st) "general" "user" = Ok user ->
  ConfigParser.get (config st) "general" "server" = Ok server ->
  ConfigParser.getboolean (config st) "general" "fullscreen" = Ok fullscreen ->
  rdesktop_start st =
    Ret tt (with_log
              (log st ++ [Call (rdesktop_command (Text.strip out) user server
                                  fullscreen)]) st).
Proof.
  intros Hw Hu Hs Hf. unfold rdesktop_start, call. run_M.
  rewrite Hw, Hu, Hs, Hf. reflexivity.
Qed.

(** ** The log only grows *)

Lemma extends_ret {A : Type} (a : A) : extends (mret a : M A).
Proof. intros st. exists []. simpl. now rewrite app_nil_r. Qed.

Lemma extends_bind {A B : Type} (m : M A) (f : A -> M B) :
  extends m -> (forall a, extends (f a)) -> extends (m ≫= f).
Proof.
  intros Hm Hf st. destruct (Hm st) as [l Hl].
  unfold mbind, M_bind. destruct (m st) as [a st'| | | |]; simpl in *;
    try (now exists l).
  destruct (Hf a st') as [l' Hl']. exists (l ++ l').
  now rewrite Hl', Hl, app_assoc.
Qed.

Lemma extends_get_state : extends get_state.
Proof. intros st. exists []. simpl. now rewrite app_nil_r. Qed.

Lemma extends_modify (f : state -> state) :
  (forall st, log (f st) = log st) -> extends (modify f).
Proof. intros H st. exists []. simpl. now rewrite H, app_nil_r. Qed.

Lemma extends_raise {A : Type} (e : exn) : extends (raise e : M A).
Proof. intros st. exists []. simpl. now rewrite app_nil_r. Qed.

Lemma extends_lift {A : Type} (r : result A) : extends (lift r).
Proof. destruct r; [apply extends_ret|apply extends_raise]. Qed.

Lemma extends_show e : extends (show e).
Proof.
  intros st. exists [e]. unfold show. now destruct (answers st).
Qed.

Lemma extends_exit {A : Type} (c : Z) : extends (exit c : M A).
Proof. intros st. now exists [Clear]. Qed.

Lemma extends_call command : extends (call command).
Proof. intros st. now exists [Call command]. Qed.

Lemma extends_try {A : Type} (body handler : M A) :
  extends body -> extends handler ->
  extends (try_except_FileNotFoundError body handler).
Proof.
  intros Hb Hh st. unfold try_except_FileNotFoundError.
  destruct (Hb st) as [l Hl].
  destruct (body st) as [| e st'| | |]; simpl in *; try (now exists l).
  destruct e; simpl; try (now exists l).
  destruct (Hh st') as [l' Hl']. exists (l ++ l').
  now rewrite Hl', Hl, app_assoc.
Qed.

Lemma extends_config_save : extends config_save.
Proof.
  intros st. exists []. unfold config_save.
  destruct (open_error st (config_path st)); simpl; now rewrite app_nil_r.
Qed.

Lemma extends_out_of_fuel {A : Type} :
  extends (fun st => OutOfFuel st : outcome A).
Proof. intros st. exists []. simpl. now rewrite app_nil_r. Qed.

Lemma extends_for_each {A : Type} (body : A -> M unit) (l : list A) :
  (forall a, extends (body a)) -> extends (for_each body l).
Proof.
  intros H. induction l as [|a l IH]; simpl; [apply extends_ret|].
  apply extends_bind; [apply H|intros; apply IH].
Qed.

Ltac extends_step :=
  lazymatch goal with
  | |- extends (mbind _ _) => apply extends_bind; [|intros]
  | |- extends (mret _) => apply extends_ret
  | |- extends get_state => apply extends_get_state
  | |- extends (raise _) => apply extends_raise
  | |- extends (lift _) => apply extends_lift
  | |- extends (show _) => apply extends_show
  | |- extends (exit _) => apply extends_exit
  | |- extends (call _) => apply extends_call
  | |- extends config_save => apply extends_config_save
  | |- extends (modify _) => apply extends_modify; reflexivity
  | |- extends (try_except_FileNotFoundError _ _) => apply extends_try
  | |- extends (for_each _ _) => apply extends_for_each; intros
  | |- extends (match ?x with _ => _ end) => destruct x
  end.

Ltac extends_auto := repeat extends_step.

Lemma extends_msgbox text title : extends (Dialog.msgbox text title).
Proof. unfold Dialog.msgbox. extends_auto. Qed.

Lemma extends_inputbox text init : extends (Dialog.inputbox text init).
Proof. unfold Dialog.inputbox. extends_auto. Qed.

Lemma extends_menu_dialog text choices : extends (Dialog.menu text choices).
Proof. unfold Dialog.menu. extends_auto. Qed.

Lemma extends_radiolist text choices item :
  extends (Dialog.radiolist text choices item).
Proof. unfold Dialog.radiolist. extends_auto. Qed.

Lemma extends_yesno text : extends (Dialog.yesno text).
Proof. unfold Dialog.yesno. extends_auto. Qed.

Lemma extends_first_start_option option :
  extends (first_start_option option).
Proof.
  unfold first_start_option, config_set.
  pose proof extends_msgbox. pose proof extends_inputbox.
  extends_auto; auto.
Qed.

Lemma extends_first_start : extends first_start.
Proof.
  unfold first_start, first_start_save.
  pose proof extends_msgbox.
  pose proof extends_first_start_option.
  extends_auto; auto.
Qed.

Lemma extends_change_option config_tmp tag :
  extends (change_option config_tmp tag).
Proof.
  unfold change_option.
  pose proof extends_radiolist. pose proof extends_inputbox.
  extends_auto; auto.
Qed.

Lemma extends_save_edit config_tmp : extends (save_edit config_tmp).
Proof.
  unfold save_edit. pose proof extends_msgbox. extends_auto; auto.
Qed.

Lemma extends_config_edit_turn config_tmp config_changed :
  extends (config_edit_turn config_tmp config_changed).
Proof.
  unfold config_edit_turn.
  pose proof extends_menu_dialog. pose proof extends_yesno.
  pose proof extends_change_option. pose proof extends_save_edit.
  extends_auto; auto.
Qed.

Lemma extends_config_edit_loop fuel config_tmp config_changed :
  extends (config_edit_loop fuel config_tmp config_changed).
Proof.
  revert config_tmp config_changed.
  induction fuel as [|n IH]; intros; simpl; [apply extends_out_of_fuel|].
  apply extends_bind; [apply extends_config_edit_turn|].
  intros [|c ch]; [apply extends_ret|apply IH].
Qed.

Lemma extends_config_edit : extends config_edit.
Proof.
  unfold config_edit. pose proof extends_config_edit_loop.
  extends_auto; auto.
Qed.

Lemma extends_rdesktop_start : extends rdesktop_start.
Proof.
  unfold rdesktop_start. pose proof extends_msgbox. extends_auto; auto.
Qed.

Lemma extends_menu : extends menu.
Proof.
  unfold menu, desktop_environment_start.
  pose proof extends_menu_dialog. pose proof extends_rdesktop_start.
  pose proof extends_config_edit.
  extends_auto; auto.
Qed.

Lemma extends_menu_loop fuel : extends (menu_loop fuel).
Proof.
  induction fuel as [|n IH]; simpl; [apply extends_out_of_fuel|].
  pose proof extends_menu. extends_auto; auto.
Qed.

(** ** First-run gating *)

Lemma starts_with_show e : starts_with e (show e).
Proof.
  intros st. unfold first_screen, show.
  destruct (answers st); simpl;
    rewrite lookup_app_r, Nat.sub_diag by lia; reflexivity.
Qed.

Lemma starts_with_bind {A B : Type} e (m : M A) (f : A -> M B) :
  starts_with e m -> (forall a, extends (f a)) -> starts_with e (m ≫= f).
Proof.
  intros Hm Hf st. specialize (Hm st). unfold first_screen in *.
  unfold mbind, M_bind. destruct (m st) as [a st'| | | |]; simpl in *; auto.
  destruct (Hf a st') as [l ->]. rewrite lookup_app_l; [assumption|].
  now apply lookup_lt_Some in Hm.
Qed.

Lemma starts_with_first_start : starts_with (Msgbox WELCOME "") first_start.
Proof.
  unfold first_start, first_start_save.
  pose proof extends_msgbox. pose proof extends_first_start_option.
  apply starts_with_bind; [|intros; extends_auto; auto].
  unfold Dialog.msgbox.
  apply starts_with_bind; [apply starts_with_show|intros; extends_auto].
Qed.

Lemma starts_with_menu_loop n :
  starts_with (Menu WHAT_TO_DO MAIN_CHOICES) (menu_loop (S n)).
Proof.
  simpl. pose proof (extends_menu_loop n).
  apply starts_with_bind; [|intros; extends_auto; auto].
  unfold menu, desktop_environment_start.
  pose proof extends_rdesktop_start. pose proof extends_config_edit.
  apply starts_with_bind; [|intros; extends_auto; auto].
  unfold Dialog.menu.
  apply starts_with_bind; [apply starts_with_show|intros; extends_auto].
Qed.

Lemma run_first_run st :
  ConfigParser.sections (config st) = [] ->
  run st =
    (first_start ≫= fun _ =>
     get_state ≫= fun st' => menu_loop (S (length (answers st')))) st.
Proof.
  intros H. unfold run. unfold mbind at 1, M_bind at 1, get_state at 1.
  now rewrite bool_decide_eq_true_2.
Qed.

Lemma run_main_menu st :
  ConfigParser.sections (config st) <> [] ->
  run st = menu_loop (S (length (answers st))) st.
Proof.
  intros H. unfold run. unfold mbind at 1, M_bind at 1, get_state at 1.
  now rewrite bool_decide_eq_false_2.
Qed.

(** C2, as stated, fails: a file with the section [general] and no key
    in it loads as a configuration whose only section is empty, and the
    process opens the main menu, not the first-run wizard. *)
Lemma empty_section_opens_main_menu :
  (exists st', read_config (world bare_header []) = Ret tt st'
     /\ config st' = ConfigParser.mk [] [("general", [])])
  /\ first_screen (world bare_header []) (main (world bare_header []))
     = Some (Menu WHAT_TO_DO MAIN_CHOICES)
  /\ first_screen (world bare_header []) (main (world bare_header []))
     <> Some (Msgbox WELCOME "").
Proof.
  split; [eexists; split; vm_compute; reflexivity|].
  split; [vm_compute; reflexivity|]. vm_compute. discriminate.
Qed.

(** A file with options under [[DEFAULT]] and no other section loads
    as a configuration whose [sections()] is empty, and the process
    opens the wizard. *)
Lemma default_only_opens_wizard :
  (exists st', read_config (world default_only []) = Ret tt st'
     /\ config st' = ConfigParser.mk [("server", "10.0.0.5")] [])
  /\ first_screen (world default_only []) (main (world default_only []))
     = Some (Msgbox WELCOME "").
Proof.
  split; [eexists; split; vm_compute; reflexivity|].
  vm_compute; reflexivity.
Qed.

(** C2, amended.  At startup the wizard runs exactly when the loaded
    configuration has no section other than [DEFAULT], that is when
    [sections()] is empty: then the first screen is the welcome message.
    With any such section present, whatever its name and whether or not
    it holds keys, the first screen is the main menu; in particular with
    a section [general], whichever keys it holds. *)
Theorem first_run_gating st :
  (ConfigParser.sections (config st) = [] ->
     first_screen st (run st) = Some (Msgbox WELCOME ""))
  /\ (ConfigParser.sections (config st) <> [] ->
        first_screen st (run st) = Some (Menu WHAT_TO_DO MAIN_CHOICES))
  /\ (forall d, dict_get "general" (ConfigParser.sections_ (config st)) = Some d ->
        first_screen st (run st) = Some (Menu WHAT_TO_DO MAIN_CHOICES)).
Proof.
  assert (Hmenu : ConfigParser.sections (config st) <> [] ->
            first_screen st (run st) = Some (Menu WHAT_TO_DO MAIN_CHOICES)).
  { intros H. rewrite (run_main_menu st H). apply starts_with_menu_loop. }
  split; [|split; [exact Hmenu|]].
  - intros H. rewrite (run_first_run st H).
    apply starts_with_bind; [apply starts_with_first_start|].
    intros _. pose proof extends_menu_loop. extends_auto; auto.
  - intros d Hd. apply Hmenu. unfold ConfigParser.sections, dict_keys.
    destruct (ConfigParser.sections_ (config st)); [discriminate|].
    discriminate.
Qed.

Lemma first_run_gating_witness :
  first_screen (world ∅ []) (run (world ∅ [])) = Some (Msgbox WELCOME "")
  /\ first_screen (with_config (alice_config "yes") (world ∅ []))
       (run (with_config (alice_config "yes") (world ∅ [])))
     = Some (Menu WHAT_TO_DO MAIN_CHOICES).
Proof.
  split.
  - apply (proj1 (first_run_gating (world ∅ []))). reflexivity.
  - apply (proj1 (proj2 (first_run_gating
                           (with_config (alice_config "yes") (world ∅ []))))).
    discriminate.
Defined.

(** ** The main menu *)

Lemma menu_answer st a rest :
  answers st = a :: rest ->
  Dialog.menu WHAT_TO_DO MAIN_CHOICES st =
    Ret (a_code a, Dialog.selected ["1"; "2"; "3"; "x"] "1" (a_pick a))
      (with_answers rest (with_log (log st ++ [Menu WHAT_TO_DO MAIN_CHOICES]) st)).
Proof.
  intros H. unfold Dialog.menu, show. run_M. now rewrite H.
Qed.

(** C9.  In the main menu, choosing the item [x] ("Exit RAPTIC") ends the
    process with exit code 0; leaving the menu with any button other
    than OK (escape, cancel) ends it with exit code 1.  In both cases the
    screen is cleared and nothing else happens.  This holds for every
    turn of the menu loop, and so for [run] when it opens on the menu. *)
Theorem main_menu_exit_codes n st a rest :
  answers st = a :: rest ->
  (a_code a = OK -> a_pick a = 3 ->
     menu_loop (S n) st = Exited 0 (after_menu_exit st rest)
     /\ (ConfigParser.sections (config st) <> [] ->
         run st = Exited 0 (after_menu_exit st rest)))
  /\ (a_code a <> OK ->
        menu_loop (S n) st = Exited 1 (after_menu_exit st rest)
        /\ (ConfigParser.sections (config st) <> [] ->
            run st = Exited 1 (after_menu_exit st rest))).
Proof.
  intros Ha.
  assert (H0 : forall k, a_code a = OK -> a_pick a = 3 ->
            menu_loop (S k) st = Exited 0 (after_menu_exit st rest)).
  { intros k Hc Hp. simpl. unfold menu.
    step (menu_answer st a rest Ha). rewrite Hc, Hp. reflexivity. }
  assert (H1 : forall k, a_code a <> OK ->
            menu_loop (S k) st = Exited 1 (after_menu_exit st rest)).
  { intros k Hc. simpl. unfold menu.
    step (menu_answer st a rest Ha).
    simpl. rewrite bool_decide_eq_true_2 by assumption. reflexivity. }
  split.
  - intros Hc Hp. split; [now apply H0|].
    intros Hs. rewrite (run_main_menu st Hs). now apply H0.
  - intros Hc. split; [now apply H1|].
    intros Hs. rewrite (run_main_menu st Hs). now apply H1.
Qed.

Lemma main_menu_exit_codes_witness :
  menu_loop 1 (world ∅ [choose OK 3]) =
    Exited 0 (after_menu_exit (world ∅ [choose OK 3]) [])
  /\ menu_loop 1 (world ∅ [press ESC]) =
       Exited 1 (after_menu_exit (world ∅ [press ESC]) []).
Proof.
  split.
  - apply (proj1 (main_menu_exit_codes 0 (world ∅ [choose OK 3])
                    (choose OK 3) [] eq_refl)); reflexivity.
  - apply (proj2 (main_menu_exit_codes 0 (world ∅ [press ESC])
                    (press ESC) [] eq_refl)). discriminate.
Defined.

(** ** Saving and its failures *)

Lemma config_save_ok st :
  open_error st (config_path st) = None ->
  config_save st =
    Ret tt (with_files (<[resolve st (config_path st) :=
                            ConfigParser.write (config st)]>
                          (files st)) st).
Proof. intros H. unfold config_save. now rewrite H. Qed.

Lemma config_save_error st e :
  open_error st (config_path st) = Some e -> config_save st = Raised e st.
Proof. intros H. unfold config_save. now rewrite H. Qed.

(** An update that returns leaves what it returns. *)
Lemma fold_leaves_Ok {A B : Type} (f : A -> B -> result A) left a l a' :
  ConfigParser.fold_result f a l = Ok a' ->
  ConfigParser.fold_leaves f left a l = a'.
Proof.
  revert a. induction l as [|b l IH]; intros a; simpl.
  - now intros [= ->].
  - destruct (f a b) as [a1|e]; simpl; [apply IH|discriminate].
Qed.

Lemma update_leaves_Ok dst src c :
  ConfigParser.update dst src = Ok c -> ConfigParser.update_leaves dst src = c.
Proof. apply fold_leaves_Ok. Qed.

(** The end of the wizard when the file can be written. *)
Lemma first_start_save_ok st a rest :
  open_error st (config_path st) = None ->
  answers st = a :: rest ->
  first_start_save st =
    Ret tt (with_answers rest
              (with_log (log st ++ [Msgbox WRITTEN ""])
                 (with_files
                    (<[resolve st (config_path st) :=
                         ConfigParser.write (config st)]>
                       (files st)) st))).
Proof.
  intros Ho Ha. unfold first_start_save, try_except_FileNotFoundError.
  step (config_save_ok st Ho). unfold Dialog.msgbox, show. run_M.
  now rewrite Ha.
Qed.

(** The end of the wizard when [open] raises [FileNotFoundError]: the
    message, then exit code 1; no file is touched. *)
Lemma first_start_save_not_found st a rest :
  open_error st (config_path st) = Some FileNotFoundError ->
  answers st = a :: rest ->
  first_start_save st =
    Exited 1
      (with_log ((log st ++ [Msgbox (NOT_WRITEABLE (config_path st)) ""])
                 ++ [Clear])
         (with_answers rest st)).
Proof.
  intros Ho Ha. unfold first_start_save, try_except_FileNotFoundError.
  rewrite (bind_Raised _ _ _ _ _ (config_save_error st _ Ho)).
  unfold Dialog.msgbox, show, exit. run_M. now rewrite Ha.
Qed.

(** Any other exception of [open] leaves the wizard uncaught. *)
Lemma first_start_save_uncaught st e :
  open_error st (config_path st) = Some e ->
  e <> FileNotFoundError ->
  first_start_save st = Raised e st.
Proof.
  intros Ho He. unfold first_start_save, try_except_FileNotFoundError.
  rewrite (bind_Raised _ _ _ _ _ (config_save_error st _ Ho)).
  now destruct e.
Qed.

(** [SAVE] in the editor when [open] raises [FileNotFoundError]: the
    scratch copy has been merged, the message is shown, no file is
    touched and the editor returns. *)
Lemma save_edit_not_found st config_tmp c a rest :
  ConfigParser.update (config st) config_tmp = Ok c ->
  open_error st (config_path st) = Some FileNotFoundError ->
  answers st = a :: rest ->
  save_edit config_tmp st =
    Ret tt
      (with_answers rest
         (with_log (log st ++ [Msgbox (NOT_WRITEABLE (config_path st)) "ERROR"])
            (with_config c st))).
Proof.
  intros Hu Ho Ha. unfold save_edit. run_M.
  rewrite Hu, (update_leaves_Ok _ _ _ Hu). simpl.
  unfold try_except_FileNotFoundError, config_save. simpl. rewrite Ho.
  unfold Dialog.msgbox, show. run_M. now rewrite Ha.
Qed.

Lemma save_edit_uncaught st config_tmp c e :
  ConfigParser.update (config st) config_tmp = Ok c ->
  open_error st (config_path st) = Some e ->
  e <> FileNotFoundError ->
  save_edit config_tmp st = Raised e (with_config c st).
Proof.
  intros Hu Ho He. unfold save_edit. run_M.
  rewrite Hu, (update_leaves_Ok _ _ _ Hu). simpl.
  unfold try_except_FileNotFoundError, config_save. simpl. rewrite Ho.
  now destruct e.
Qed.

(** *** The cancelled wizard *)

(** C1, which the code does not meet.  After the server input is
    cancelled the wizard shows its "aborted, no file written" message and
    then goes on: it asks for the user name, writes the configuration
    file, with an empty server, and says so; the process then sits in
    the main menu. *)
Theorem cancelled_wizard_writes_file :
  exists st', main cancelled_wizard = Blocked st'
    /\ log st' =
         [ Msgbox WELCOME ""; Inputbox "Server" ""; Msgbox ABORTED "";
           Inputbox "Username" ""; Msgbox WRITTEN "";
           Menu WHAT_TO_DO MAIN_CHOICES ]
    /\ files st' !! "/home/pi/.raptic" =
         Some "[general]
server = 
user = alice
fullscreen = yes

".
Proof. eexists. split; [|split]; vm_compute; reflexivity. Qed.

(** *** A path that cannot be written *)

(** C3, which the code does not meet.  When the path is not
    writable, [open] raises [PermissionError], which neither [try]
    statement catches: in the wizard and in the editor alike the
    exception ends the process, no message about the path is shown, and
    the answer meant for that message is never taken. *)
Theorem permission_error_uncaught :
  (exists st', main wizard_read_only = Raised PermissionError st'
     /\ log st' =
          [Msgbox WELCOME ""; Inputbox "Server" ""; Inputbox "Username" ""]
     /\ answers st' = [press OK])
  /\ (exists st', main editor_read_only = Raised PermissionError st'
        /\ log st' =
             [ Menu WHAT_TO_DO MAIN_CHOICES;
               Menu WHAT_SETTING
                 [ ("Server", "10.0.0.5"); ("Username", "alice");
                   ("Fullscreen", "yes") ] ]
        /\ answers st' = [press OK]).
Proof.
  split; eexists; (split; [|split]); vm_compute; reflexivity.
Qed.

(** ** Weakest preconditions *)

Lemma wp_bind {A B : Type} (m : M A) (f : A -> M B) Q E st :
  wp m (fun a => wp (f a) Q E) E st -> wp (m ≫= f) Q E st.
Proof. unfold wp, mbind, M_bind. now destruct (m st). Qed.

Lemma wp_mono {A : Type} (m : M A) (Q Q' : A -> state -> Prop)
    (E E' : state -> Prop) st :
  (forall a st', Q a st' -> Q' a st') -> (forall st', E st' -> E' st') ->
  wp m Q E st -> wp m Q' E' st.
Proof. unfold wp. destruct (m st); auto. Qed.

Lemma wp_ret {A : Type} (a : A) Q E st : Q a st -> wp (mret a) Q E st.
Proof. easy. Qed.

Lemma wp_get_state Q E st : Q st st -> wp get_state Q E st.
Proof. easy. Qed.

Lemma wp_modify f Q E st : Q tt (f st) -> wp (modify f) Q E st.
Proof. easy. Qed.

Lemma wp_raise {A : Type} e (Q : A -> state -> Prop) E st :
  E st -> wp (raise e) Q E st.
Proof. easy. Qed.

Lemma wp_exit {A : Type} c (Q : A -> state -> Prop) (E : state -> Prop) st :
  E (with_log (log st ++ [Clear]) st) -> wp (exit c) Q E st.
Proof. easy. Qed.

Lemma wp_lift {A : Type} (r : result A) Q E st :
  (forall a, r = Ok a -> Q a st) -> E st -> wp (lift r) Q E st.
Proof. destruct r; simpl; auto. intros H _. now apply H. Qed.

Lemma wp_lift_Ok {A : Type} (r : result A) a Q E st :
  r = Ok a -> Q a st -> wp (lift r) Q E st.
Proof. now intros ->. Qed.

Lemma wp_show e Q (E : state -> Prop) st :
  (forall a r, answers st = a :: r ->
     Q a (with_answers r (with_log (log st ++ [e]) st))) ->
  (answers st = [] -> E (with_log (log st ++ [e]) st)) ->
  wp (show e) Q E st.
Proof.
  unfold wp, show. destruct (answers st); auto.
Qed.

Lemma wp_any {A : Type} (m : M A) (Q : A -> state -> Prop)
    (E : state -> Prop) st :
  (forall a st', Q a st') -> (forall st', E st') -> wp m Q E st.
Proof. unfold wp. destruct (m st); auto. Qed.

Lemma wp_fact {A : Type} (m : M A) Q E st a st' :
  wp m Q E st -> m st = Ret a st' -> Q a st'.
Proof. unfold wp. intros H Heq. now rewrite Heq in H. Qed.

Lemma wp_final {A : Type} (m : M A) (P : state -> Prop) st :
  wp m (fun _ => P) P st -> P (final (m st)).
Proof. unfold wp. now destruct (m st). Qed.

Ltac wp_step :=
  cbv beta;
  lazymatch goal with
  | |- wp (mbind _ _) _ _ _ => apply wp_bind
  | |- wp (mret _) _ _ _ => apply wp_ret
  | |- wp get_state _ _ _ => apply wp_get_state
  | |- wp (raise _) _ _ _ => apply wp_raise
  | |- wp (exit _) _ _ _ => apply wp_exit
  | |- wp (modify _) _ _ _ => apply wp_modify
  | |- wp (lift _) _ _ _ => apply wp_lift; [intros ? ?|]
  | |- wp (show _) _ _ _ => apply wp_show; [intros ? ? ?|intros ?]
  | |- wp (Dialog.msgbox _ _) _ _ _ => unfold Dialog.msgbox
  | |- wp (Dialog.inputbox _ _) _ _ _ => unfold Dialog.inputbox
  | |- wp (Dialog.menu _ _) _ _ _ => unfold Dialog.menu
  | |- wp (Dialog.radiolist _ _ _) _ _ _ => unfold Dialog.radiolist
  | |- wp (Dialog.yesno _) _ _ _ => unfold Dialog.yesno
  end.

(** ** The editor works on a scratch copy *)

Lemma untouched_log st0 st l : untouched st0 st -> untouched st0 (with_log l st).
Proof. intros [H1 H2]. split; assumption. Qed.

Lemma untouched_answer st0 st a r l :
  untouched st0 st -> answers st = a :: r ->
  untouched st0 (with_answers r (with_log l st)) /\ a_code a <> EXTRA.
Proof.
  intros [H1 H2] Ha. unfold no_save in H2. rewrite Ha in H2.
  inversion H2; subst. repeat split; try apply H1; assumption.
Qed.

Lemma keeps_show st0 e : keeps st0 (show e).
Proof.
  intros st H. wp_step.
  - now apply (untouched_answer st0 st a r).
  - now apply untouched_log.
Qed.

Lemma keeps_bind {A B : Type} st0 (m : M A) (f : A -> M B) :
  keeps st0 m -> (forall a, keeps st0 (f a)) -> keeps st0 (m ≫= f).
Proof.
  intros Hm Hf st H. wp_step.
  eapply wp_mono; [| |apply Hm, H]; [|auto]. intros a st' H'. now apply Hf.
Qed.

Lemma keeps_ret {A : Type} st0 (a : A) : keeps st0 (mret a).
Proof. intros st H. now wp_step. Qed.

Lemma keeps_lift {A : Type} st0 (r : result A) : keeps st0 (lift r).
Proof. intros st H. wp_step; assumption. Qed.

Lemma keeps_raise {A : Type} st0 e : keeps st0 (raise e : M A).
Proof. intros st H. now wp_step. Qed.

Ltac keeps_step :=
  lazymatch goal with
  | |- keeps _ (mbind _ _) => apply keeps_bind; [|intros]
  | |- keeps _ (mret _) => apply keeps_ret
  | |- keeps _ (lift _) => apply keeps_lift
  | |- keeps _ (raise _) => apply keeps_raise
  | |- keeps _ (show _) => apply keeps_show
  | |- keeps _ (Dialog.msgbox _ _) => unfold Dialog.msgbox
  | |- keeps _ (Dialog.inputbox _ _) => unfold Dialog.inputbox
  | |- keeps _ (Dialog.menu _ _) => unfold Dialog.menu
  | |- keeps _ (Dialog.radiolist _ _ _) => unfold Dialog.radiolist
  | |- keeps _ (Dialog.yesno _) => unfold Dialog.yesno
  | |- keeps _ (match ?x with _ => _ end) => destruct x
  end.

Lemma keeps_change_option st0 config_tmp tag :
  keeps st0 (change_option config_tmp tag).
Proof. unfold change_option. repeat keeps_step. Qed.

(** The menu of the editor, with what is known of the button pressed. *)
Lemma edit_menu_untouched st0 choices st :
  untouched st0 st ->
  wp (Dialog.menu WHAT_SETTING choices)
    (fun r st' => untouched st0 st' /\ fst r <> EXTRA) (untouched st0) st.
Proof.
  intros H. repeat wp_step.
  - now apply (untouched_answer st0 st a r).
  - now apply untouched_log.
Qed.

Lemma keeps_config_edit_turn st0 config_tmp config_changed :
  keeps st0 (config_edit_turn config_tmp config_changed).
Proof.
  intros st H. unfold config_edit_turn.
  apply wp_bind, wp_lift; [intros choices _|assumption].
  apply wp_bind.
  eapply wp_mono; [| |apply edit_menu_untouched, H]; [|auto].
  intros [code tag] st' [H' Hcode]. simpl in Hcode.
  destruct code; try congruence; try (now wp_step).
  - revert st' H'. apply keeps_bind; [apply keeps_change_option|].
    intros [c changed]. apply keeps_ret.
  - destruct config_changed; [|now wp_step].
    revert st' H'.
    apply keeps_bind; [repeat keeps_step|intros; repeat keeps_step].
Qed.

Lemma keeps_config_edit_loop st0 fuel config_tmp config_changed :
  keeps st0 (config_edit_loop fuel config_tmp config_changed).
Proof.
  revert config_tmp config_changed.
  induction fuel as [|n IH]; intros; simpl; [intros st H; exact H|].
  apply keeps_bind; [apply keeps_config_edit_turn|].
  intros [|c ch]; [apply keeps_ret|apply IH].
Qed.

Lemma keeps_config_edit st0 : keeps st0 config_edit.
Proof.
  intros st H. unfold config_edit. repeat wp_step; [|assumption].
  now apply keeps_config_edit_loop.
Qed.

(** ** The loops never run out of turns *)

Lemma shrinks_ret {A : Type} (a : A) : shrinks (mret a : M A).
Proof. intros st. reflexivity. Qed.

Lemma shrinks_bind {A B : Type} (m : M A) (f : A -> M B) :
  shrinks m -> (forall a, shrinks (f a)) -> shrinks (m ≫= f).
Proof.
  intros Hm Hf st. specialize (Hm st). unfold mbind, M_bind.
  destruct (m st) as [a st'| | | |]; simpl in *; try assumption.
  specialize (Hf a st'). lia.
Qed.

Lemma shrinks_get_state : shrinks get_state.
Proof. intros st. reflexivity. Qed.

Lemma shrinks_modify (f : state -> state) :
  (forall st, answers (f st) = answers st) -> shrinks (modify f).
Proof. intros H st. simpl. now rewrite H. Qed.

Lemma shrinks_raise {A : Type} (e : exn) : shrinks (raise e : M A).
Proof. intros st. reflexivity. Qed.

Lemma shrinks_lift {A : Type} (r : result A) : shrinks (lift r).
Proof. destruct r; [apply shrinks_ret|apply shrinks_raise]. Qed.

Lemma shrinks_show e : shrinks (show e).
Proof.
  intros st. unfold show.
  destruct (answers st) eqn:E; simpl; rewrite ?E; simpl; lia.
Qed.

Lemma shrinks_exit {A : Type} (c : Z) : shrinks (exit c : M A).
Proof. intros st. reflexivity. Qed.

Lemma shrinks_call command : shrinks (call command).
Proof. intros st. reflexivity. Qed.

Lemma shrinks_config_save : shrinks config_save.
Proof.
  intros st. unfold config_save.
  now destruct (open_error st (config_path st)).
Qed.

Lemma shrinks_try {A : Type} (body handler : M A) :
  shrinks body -> shrinks handler ->
  shrinks (try_except_FileNotFoundError body handler).
Proof.
  intros Hb Hh st. unfold try_except_FileNotFoundError. specialize (Hb st).
  destruct (body st) as [| e st'| | |]; simpl in *; try assumption.
  destruct e; simpl; try assumption. specialize (Hh st'). lia.
Qed.

Lemma shrinks_out_of_fuel {A : Type} :
  shrinks (fun st => OutOfFuel st : outcome A).
Proof. intros st. reflexivity. Qed.

Ltac shrinks_step :=
  lazymatch goal with
  | |- shrinks (mbind _ _) => apply shrinks_bind; [|intros]
  | |- shrinks (mret _) => apply shrinks_ret
  | |- shrinks get_state => apply shrinks_get_state
  | |- shrinks (raise _) => apply shrinks_raise
  | |- shrinks (lift _) => apply shrinks_lift
  | |- shrinks (show _) => apply shrinks_show
  | |- shrinks (exit _) => apply shrinks_exit
  | |- shrinks (call _) => apply shrinks_call
  | |- shrinks config_save => apply shrinks_config_save
  | |- shrinks (modify _) => apply shrinks_modify; reflexivity
  | |- shrinks (try_except_FileNotFoundError _ _) => apply shrinks_try
  | |- shrinks (Dialog.msgbox _ _) => unfold Dialog.msgbox
  | |- shrinks (Dialog.inputbox _ _) => unfold Dialog.inputbox
  | |- shrinks (Dialog.menu _ _) => unfold Dialog.menu
  | |- shrinks (Dialog.radiolist _ _ _) => unfold Dialog.radiolist
  | |- shrinks (Dialog.yesno _) => unfold Dialog.yesno
  | |- shrinks (match ?x with _ => _ end) => destruct x
  end.

Lemma shrinks_change_option config_tmp tag :
  shrinks (change_option config_tmp tag).
Proof. unfold change_option. repeat shrinks_step. Qed.

Lemma shrinks_save_edit config_tmp : shrinks (save_edit config_tmp).
Proof. unfold save_edit. repeat shrinks_step. Qed.

Lemma shrinks_rdesktop_start : shrinks rdesktop_start.
Proof. unfold rdesktop_start. repeat shrinks_step. Qed.

Lemma total_ret {A : Type} (a : A) : total (mret a : M A).
Proof. now intros st. Qed.

Lemma total_bind {A B : Type} (m : M A) (f : A -> M B) :
  total m -> (forall a, total (f a)) -> total (m ≫= f).
Proof.
  intros Hm Hf st. specialize (Hm st). unfold mbind, M_bind.
  destruct (m st) as [a st'| | | |]; simpl in *; [apply Hf|easy..].
Qed.

Lemma total_lift {A : Type} (r : result A) : total (lift r).
Proof. now destruct r. Qed.

Lemma total_show e : total (show e).
Proof. intros st. unfold show. now destruct (answers st). Qed.

Lemma total_config_save : total config_save.
Proof.
  intros st. unfold config_save.
  now destruct (open_error st (config_path st)).
Qed.

Lemma total_try {A : Type} (body handler : M A) :
  total body -> total handler ->
  total (try_except_FileNotFoundError body handler).
Proof.
  intros Hb Hh st. unfold try_except_FileNotFoundError. specialize (Hb st).
  destruct (body st) as [| e st'| | |]; simpl in *; try easy.
  destruct e; simpl; first [apply Hh|easy].
Qed.

Ltac total_step :=
  lazymatch goal with
  | |- total (mbind _ _) => apply total_bind; [|intros]
  | |- total (mret _) => apply total_ret
  | |- total get_state => now intros ?
  | |- total (raise _) => now intros ?
  | |- total (exit _) => now intros ?
  | |- total (call _) => now intros ?
  | |- total (modify _) => now intros ?
  | |- total (lift _) => apply total_lift
  | |- total (show _) => apply total_show
  | |- total config_save => apply total_config_save
  | |- total (try_except_FileNotFoundError _ _) => apply total_try
  | |- total (Dialog.msgbox _ _) => unfold Dialog.msgbox
  | |- total (Dialog.inputbox _ _) => unfold Dialog.inputbox
  | |- total (Dialog.menu _ _) => unfold Dialog.menu
  | |- total (Dialog.radiolist _ _ _) => unfold Dialog.radiolist
  | |- total (Dialog.yesno _) => unfold Dialog.yesno
  | |- total (match ?x with _ => _ end) => destruct x
  end.

Lemma total_config_edit_turn config_tmp config_changed :
  total (config_edit_turn config_tmp config_changed).
Proof.
  unfold config_edit_turn, change_option, save_edit. repeat total_step.
Qed.

Lemma wp_shrinks {A : Type} (m : M A) (n : nat) st :
  shrinks m -> length (answers st) < n ->
  wp m (fun _ st' => length (answers st') < n) (fun _ => True) st.
Proof.
  intros Hs Hn. specialize (Hs st). unfold wp.
  destruct (m st); simpl in *; auto. lia.
Qed.

(** A turn of the editor that returns has taken an answer. *)
Lemma config_edit_turn_takes config_tmp config_changed st turn st' :
  config_edit_turn config_tmp config_changed st = Ret turn st' ->
  length (answers st') < length (answers st).
Proof.
  intros Hret.
  refine (wp_fact _ (fun _ st1 => length (answers st1) < length (answers st))
            (fun _ => True) st turn st' _ Hret).
  unfold config_edit_turn, Dialog.menu.
  apply wp_bind, wp_lift; [intros choices _|auto].
  apply wp_bind, wp_bind, wp_show; [intros a r Ha|auto].
  apply wp_ret. cbv beta iota.
  apply wp_shrinks; [|simpl; rewrite Ha; simpl; lia].
  pose proof shrinks_change_option. pose proof shrinks_save_edit.
  repeat shrinks_step; auto.
Qed.

Lemma total_config_edit_loop fuel config_tmp config_changed st :
  length (answers st) < fuel ->
  ends (config_edit_loop fuel config_tmp config_changed st).
Proof.
  revert config_tmp config_changed st.
  induction fuel as [|n IH]; intros c ch st Hn; [lia|].
  simpl. unfold mbind, M_bind.
  pose proof (total_config_edit_turn c ch st) as Ht.
  destruct (config_edit_turn c ch st) as [turn st'| | | |] eqn:E; try easy.
  destruct turn as [|c' ch']; [easy|].
  apply IH. apply config_edit_turn_takes in E. lia.
Qed.

Lemma total_config_edit : total config_edit.
Proof.
  intros st. unfold config_edit. unfold mbind at 1, M_bind at 1, get_state.
  unfold mbind, M_bind.
  destruct (ConfigParser.update ConfigParser.empty (config st));
    unfold lift, mret, M_ret, raise; cbv beta iota; [|easy].
  apply total_config_edit_loop. lia.
Qed.

Lemma shrinks_config_edit_loop fuel config_tmp config_changed :
  shrinks (config_edit_loop fuel config_tmp config_changed).
Proof.
  revert config_tmp config_changed.
  induction fuel as [|n IH]; intros; simpl; [apply shrinks_out_of_fuel|].
  apply shrinks_bind.
  - unfold config_edit_turn.
    pose proof shrinks_change_option. pose proof shrinks_save_edit.
    repeat shrinks_step; auto.
  - intros [|c ch]; [apply shrinks_ret|apply IH].
Qed.

Lemma shrinks_config_edit : shrinks config_edit.
Proof.
  unfold config_edit. pose proof shrinks_config_edit_loop.
  repeat shrinks_step; auto.
Qed.

Lemma total_menu : total menu.
Proof.
  unfold menu, rdesktop_start, desktop_environment_start.
  pose proof total_config_edit. repeat total_step; auto.
Qed.

(** A turn of the main menu that returns has taken an answer. *)
Lemma menu_takes st continue st' :
  menu st = Ret continue st' -> length (answers st') < length (answers st).
Proof.
  intros Hret.
  refine (wp_fact _ (fun _ st1 => length (answers st1) < length (answers st))
            (fun _ => True) st continue st' _ Hret).
  unfold menu, Dialog.menu.
  apply wp_bind, wp_bind, wp_show; [intros a r Ha|auto].
  apply wp_ret. cbv beta iota.
  apply wp_shrinks; [|simpl; rewrite Ha; simpl; lia].
  pose proof shrinks_rdesktop_start. pose proof shrinks_config_edit.
  unfold desktop_environment_start. repeat shrinks_step; auto.
Qed.

Lemma total_menu_loop fuel st :
  length (answers st) < fuel -> ends (menu_loop fuel st).
Proof.
  revert st. induction fuel as [|n IH]; intros st Hn; [lia|].
  simpl. unfold mbind at 1, M_bind at 1.
  pose proof (total_menu st) as Ht.
  destruct (menu st) as [continue st'| | | |] eqn:E; try easy.
  destruct continue; [|easy]. simpl.
  apply IH. apply menu_takes in E. lia.
Qed.

Lemma total_first_start : total first_start.
Proof.
  unfold first_start, first_start_save.
  repeat total_step.
  unfold for_each, first_start_option, config_set. simpl.
  repeat total_step.
Qed.

(** Neither loop of the program runs out of turns: one turn more than
    there are answers is as good as [while True]. *)
Lemma total_run : total run.
Proof.
  intros st. unfold run. unfold mbind at 1, M_bind at 1, get_state at 1.
  apply total_bind.
  - destruct (bool_decide _); [apply total_first_start|apply total_ret].
  - intros _ st'. unfold mbind, M_bind, get_state.
    apply total_menu_loop. lia.
Qed.

Lemma wp_try {A : Type} (body handler : M A) Q E st :
  wp body Q (fun st' => E st' /\ wp handler Q E st') st ->
  wp (try_except_FileNotFoundError body handler) Q E st.
Proof.
  unfold wp, try_except_FileNotFoundError.
  destruct (body st) as [| e st'| | |]; try tauto.
  destruct e; tauto.
Qed.

Lemma wp_config_save Q (E : state -> Prop) st :
  Q tt (with_files (<[resolve st (config_path st) :=
                        ConfigParser.write (config st)]>
                      (files st)) st) ->
  E st -> wp config_save Q E st.
Proof.
  unfold wp, config_save. now destruct (open_error st (config_path st)).
Qed.

(** Whatever becomes of the file, [SAVE] leaves the merged configuration
    in the object. *)
Lemma save_edit_merges config_tmp c st :
  ConfigParser.update (config st) config_tmp = Ok c ->
  wp (save_edit config_tmp) (fun _ st' => config st' = c)
    (fun st' => config st' = c) st.
Proof.
  intros Hu. unfold save_edit. do 4 wp_step.
  apply wp_bind, (wp_lift_Ok _ c); [assumption|].
  rewrite (update_leaves_Ok _ _ _ Hu).
  apply wp_try. wp_step.
  apply wp_config_save; repeat wp_step;
    repeat (first [reflexivity | split | wp_step]).
Qed.

Lemma config_edit_turn_save st config_tmp config_changed a rest choices c :
  edit_choices config_tmp (map snd configuration_options) = Ok choices ->
  answers st = a :: rest ->
  a_code a = EXTRA ->
  ConfigParser.update (config st) config_tmp = Ok c ->
  config (final (config_edit_turn config_tmp config_changed st)) = c.
Proof.
  intros Hc Ha Hcode Hu.
  apply (wp_final _ (fun st' => config st' = c)).
  unfold config_edit_turn.
  apply wp_bind, (wp_lift_Ok _ choices); [assumption|].
  repeat wp_step.
  - assert (a0 = a) as -> by congruence. rewrite Hcode.
    wp_step. eapply wp_mono; [| |apply save_edit_merges; exact Hu]; [|auto].
    intros u st' Hst'. now wp_step.
  - congruence.
Qed.

(** C4.  The editor works on a scratch copy.  As long as the user does
    not press SAVE, whatever values are changed and however BACK is
    answered (confirmed, declined, with or without changes), the editor
    ends with the configuration of the object, its save target and the
    files as they were, and it does end (one turn more than there are
    answers is never used up).  Pressing SAVE is what merges the scratch
    copy into the configuration of the object. *)
Theorem edit_isolation :
  (forall st, no_save st -> committed st (final (config_edit st)))
  /\ (forall st, ends (config_edit st))
  /\ (forall st config_tmp config_changed a rest choices c,
        edit_choices config_tmp (map snd configuration_options) = Ok choices ->
        answers st = a :: rest ->
        a_code a = EXTRA ->
        ConfigParser.update (config st) config_tmp = Ok c ->
        config (final (config_edit_turn config_tmp config_changed st)) = c).
Proof.
  split; [|split].
  - intros st H.
    apply (wp_final _ (untouched st)), keeps_config_edit. now split.
  - apply total_config_edit.
  - apply config_edit_turn_save.
Qed.

Lemma edit_isolation_witness :
  (exists st', config_edit change_then_back = Ret tt st' /\ answers st' = [])
  /\ committed change_then_back (final (config_edit change_then_back))
  /\ ConfigParser.get (config (final (config_edit change_then_save)))
       "general" "server" = Ok "192.168.1.1".
Proof.
  split; [eexists; split; vm_compute; reflexivity|]. split.
  - apply (proj1 edit_isolation).
    repeat constructor; discriminate.
  - vm_compute; reflexivity.
Defined.

(** ** Boolean options stay boolean *)

Lemma dict_get_set_eq {V : Type} k (v : V) d :
  dict_get k (dict_set k v d) = Some v.
Proof.
  induction d as [|[k' v'] d IH]; simpl.
  - now rewrite String.eqb_refl.
  - destruct (String.eqb k k') eqn:E; simpl; rewrite ?String.eqb_refl, ?E; auto.
Qed.

Lemma dict_get_set_ne {V : Type} k k' (v : V) d :
  k <> k' -> dict_get k (dict_set k' v d) = dict_get k d.
Proof.
  intros Hne. apply String.eqb_neq in Hne.
  induction d as [|[k'' v''] d IH]; simpl.
  - now rewrite Hne.
  - destruct (String.eqb k' k'') eqn:E; simpl.
    + apply String.eqb_eq in E. subst. now rewrite Hne.
    + now rewrite IH.
Qed.

Lemma section_set_general c opt value c' :
  ConfigParser.section_set c "general" opt value = Ok c' ->
  stored c' (ConfigParser.optionxform opt) = Some value
  /\ forall k, k <> ConfigParser.optionxform opt -> stored c' k = stored c k.
Proof.
  unfold ConfigParser.section_set, ConfigParser.getitem, ConfigParser.set.
  change (String.eqb "general" ConfigParser.default_section) with false.
  change (Text.is_empty "general") with false. simpl negb. simpl andb.
  simpl orb. unfold ConfigParser.has_section, dict_mem, stored.
  destruct (dict_get "general" (ConfigParser.sections_ c)) as [d|] eqn:Hd;
    simpl; [|discriminate].
  destruct (if Text.is_empty value then Ok value
            else ConfigParser.before_set value) as [v|] eqn:Hv;
    simpl; [|discriminate].
  assert (v = value) as ->.
  { destruct (Text.is_empty value); [congruence|].
    unfold ConfigParser.before_set in Hv.
    destruct (ConfigParser.percent_left _ _); congruence. }
  intros [= <-]. simpl. rewrite dict_get_set_eq. split.
  - apply dict_get_set_eq.
  - intros k Hk. now apply dict_get_set_ne.
Qed.

Lemma selected_yes_or_no (b : bool) (pick : nat) :
  Dialog.selected ["yes"; "no"] (if b then "yes" else "no") pick = "yes"
  \/ Dialog.selected ["yes"; "no"] (if b then "yes" else "no") pick = "no".
Proof.
  unfold Dialog.selected.
  destruct pick as [|[|[|pick]]], b; simpl; auto.
Qed.

Lemma schema_cases tag option :
  dict_get tag configuration_options = Some option ->
  (tag = "Server" /\ option = Server)
  \/ (tag = "Username" /\ option = Username)
  \/ (tag = "Fullscreen" /\ option = Fullscreen).
Proof.
  unfold configuration_options, dict_get.
  destruct (String.eqb tag "Server") eqn:E1;
    [apply String.eqb_eq in E1; intros [= <-]; auto|].
  destruct (String.eqb tag "Username") eqn:E2;
    [apply String.eqb_eq in E2; intros [= <-]; auto|].
  destruct (String.eqb tag "Fullscreen") eqn:E3;
    [apply String.eqb_eq in E3; intros [= <-]; auto|].
  discriminate.
Qed.

#[local] Arguments ConfigParser.get : simpl never.
#[local] Arguments ConfigParser.getboolean : simpl never.
#[local] Arguments ConfigParser.section_get : simpl never.
#[local] Arguments ConfigParser.section_set : simpl never.

(** What [CHANGE] does to the scratch copy: a confirmed change of the
    boolean option stores [yes] or [no]; every other change leaves the
    stored value of [fullscreen] alone. *)
Lemma change_option_fullscreen config_tmp tag st :
  wp (change_option config_tmp tag)
    (fun r _ =>
       (tag = "Fullscreen" -> snd r = true -> yes_or_no (fst r))
       /\ (tag = "Fullscreen" -> snd r = false -> fst r = config_tmp)
       /\ (tag <> "Fullscreen" ->
           stored (fst r) "fullscreen" = stored config_tmp "fullscreen"))
    (fun _ => True) st.
Proof.
  unfold change_option.
  destruct (dict_get tag configuration_options) as [option|] eqn:Ho;
    [|now wp_step].
  apply schema_cases in Ho as [[-> ->]|[[-> ->]|[-> ->]]]; simpl.
  - repeat wp_step; auto.
    destruct (bool_decide _); repeat wp_step; auto; simpl.
    + repeat split; try discriminate. intros _.
      now apply section_set_general in H1 as [_ ->].
    + repeat split; try discriminate.
  - repeat wp_step; auto.
    destruct (bool_decide _); repeat wp_step; auto; simpl.
    + repeat split; try discriminate. intros _.
      now apply section_set_general in H1 as [_ ->].
    + repeat split; try discriminate.
  - repeat wp_step; auto.
    destruct (bool_decide _); repeat wp_step; auto; simpl.
    + split; [|split]; [|discriminate|congruence]. intros _ _.
      apply section_set_general in H1 as [H1 _]. unfold yes_or_no.
      change (ConfigParser.optionxform "fullscreen") with "fullscreen" in H1.
      rewrite H1.
      destruct (selected_yes_or_no a (a_pick a0)) as [Hs|Hs];
        [left|right]; f_equal; exact Hs.
    + split; [|split]; [discriminate| |congruence]. reflexivity.
Qed.

Lemma config_edit_turn_yes_or_no config_tmp config_changed st :
  yes_or_no config_tmp ->
  wp (config_edit_turn config_tmp config_changed)
    (fun turn _ =>
       match turn with
       | Again c _ => yes_or_no c
       | Return => True
       end)
    (fun _ => True) st.
Proof.
  intros Hc. unfold config_edit_turn. repeat wp_step; auto.
  destruct (a_code a0); repeat wp_step; auto.
  - eapply wp_mono; [| |apply change_option_fullscreen]; [|auto].
    intros [c changed] st' (H1 & H2 & H3); simpl in *. wp_step.
    destruct (decide (Dialog.selected (map fst a) (hd "" (map fst a))
                        (a_pick a0) = "Fullscreen")) as [E|E].
    + destruct changed; [now apply H1|]. now rewrite (H2 E eq_refl).
    + unfold yes_or_no. now rewrite (H3 E).
  - destruct config_changed; repeat wp_step; auto.
    destruct (bool_decide _); now wp_step.
  - apply wp_any; [|auto]. intros u st'. now wp_step.
Qed.

(** C10.  A confirmed change of the boolean option stores [yes] or [no]
    in the scratch copy, whatever it held before; and once the scratch
    copy holds [yes] or [no] for [fullscreen] it does so after any number
    of turns of the editor. *)
Theorem boolean_option_yes_or_no :
  (forall c st c' st',
     change_option c "Fullscreen" st = Ret (c', true) st' -> yes_or_no c')
  /\ (forall c c', yes_or_no c -> rtc edit_step c c' -> yes_or_no c').
Proof.
  split.
  - intros c st c' st' H.
    apply (wp_fact _ _ _ _ _ _ (change_option_fullscreen c "Fullscreen" st)) in H.
    now apply H.
  - intros c c' Hc Hsteps. induction Hsteps as [|c c1 c' Hstep _ IH]; auto.
    apply IH. destruct Hstep as (ch & st & ch' & st' & H).
    apply (wp_fact _ _ _ _ _ _ (config_edit_turn_yes_or_no c ch st Hc)) in H.
    exact H.
Qed.

Lemma boolean_option_yes_or_no_witness :
  config_edit_turn (alice_config "yes") false toggle_fullscreen =
    Ret (Again (alice_config "no") true)
      (final (config_edit_turn (alice_config "yes") false toggle_fullscreen))
  /\ yes_or_no (alice_config "no").
Proof.
  assert (H : config_edit_turn (alice_config "yes") false toggle_fullscreen =
    Ret (Again (alice_config "no") true)
      (final (config_edit_turn (alice_config "yes") false toggle_fullscreen)))
    by (vm_compute; reflexivity).
  split; [exact H|].
  apply (proj2 boolean_option_yes_or_no (alice_config "yes")).
  - left. reflexivity.
  - apply rtc_once. eexists _, _, _, _. exact H.
Defined.

(** ** Writing and reading back *)

(** *** Text *)

Lemma lines_line l rest :
  one_line l = true ->
  Text.lines (l +:+ Text.nl +:+ rest) = l :: Text.lines rest.
Proof.
  induction l as [|c l IH]; intros H.
  - reflexivity.
  - simpl in H. apply andb_prop in H as [Hc Hl].
    unfold is_newline in Hc. apply negb_true_iff, orb_false_iff in Hc as [H1 H2].
    rewrite append_cons. simpl. rewrite H1, H2, (IH Hl). reflexivity.
Qed.

Lemma is_empty_true s : Text.is_empty s = true -> s = "".
Proof. now destruct s. Qed.

Lemma is_empty_app_r a b :
  Text.is_empty b = false -> Text.is_empty (a +:+ b) = false.
Proof. destruct a; [easy|]. now rewrite append_cons. Qed.

Lemma rstrip_app a b :
  Text.rstrip (a +:+ b) =
    if Text.is_empty (Text.rstrip b) then Text.rstrip a else a +:+ Text.rstrip b.
Proof.
  induction a as [|c a IH].
  - rewrite append_nil_l. now destruct (Text.rstrip b).
  - rewrite append_cons. simpl. rewrite IH.
    destruct (Text.is_empty (Text.rstrip b)) eqn:E; [reflexivity|].
    rewrite append_cons.
    pose proof (is_empty_app_r a _ E) as E'.
    now destruct (a +:+ Text.rstrip b).
Qed.

Lemma rstrip_cons_nonspace c s :
  Text.isspace c = false -> Text.rstrip (String c s) = String c (Text.rstrip s).
Proof. intros H. simpl. rewrite H. now destruct (Text.rstrip s). Qed.

Lemma no_trailing_space_eq s : no_trailing_space s = true -> Text.rstrip s = s.
Proof. apply String.eqb_eq. Qed.

Lemma no_leading_space_eq s : no_leading_space s = true -> Text.lstrip s = s.
Proof. destruct s as [|c s]; [easy|]. simpl. now intros ->%negb_true_iff. Qed.

Lemma write_value_one_line v :
  one_line v = true -> ConfigParser.write_value v = v.
Proof.
  unfold ConfigParser.write_value.
  induction v as [|c v IH]; [reflexivity|]. simpl. intros H.
  apply andb_prop in H as [Hc Hv].
  unfold is_newline in Hc. apply negb_true_iff, orb_false_iff in Hc as [H1 _].
  now rewrite H1, (IH Hv).
Qed.

Lemma one_line_app a b :
  one_line (a +:+ b) = one_line a && one_line b.
Proof.
  unfold one_line. induction a as [|c a IH]; [reflexivity|].
  rewrite append_cons. simpl. now rewrite IH, andb_assoc.
Qed.

Lemma upto_last_bracket_name name :
  ConfigParser.upto_last_bracket (name +:+ "]") = Some name.
Proof.
  induction name as [|c name IH]; [reflexivity|].
  rewrite append_cons. simpl. now rewrite IH.
Qed.

Lemma split_delimiter_key k w :
  all_chars (fun c => negb (ConfigParser.is_delimiter c)) k = true ->
  ConfigParser.split_delimiter (k +:+ " =" +:+ w) = Some (k +:+ " ", w).
Proof.
  induction k as [|c k IH]; intros H; [reflexivity|].
  simpl in H. apply andb_prop in H as [Hc Hk].
  rewrite !(append_cons c k). simpl. apply negb_true_iff in Hc.
  now rewrite Hc, (IH Hk).
Qed.

(** *** Lines that the writer produces *)

Lemma strip_item_line k v :
  plain_key k = true -> plain_value v = true ->
  Text.strip (item_line k v) = stripped_item k v.
Proof.
  unfold plain_key, plain_value, item_line, stripped_item.
  rewrite !andb_true_iff. intros [[[[Hc Hk] _] _] _] [[_ Hv] _].
  destruct k as [|c k]; [discriminate|]. simpl in Hc.
  rewrite !andb_true_iff, !negb_true_iff in Hc. destruct Hc as [[[Hc _] _] _].
  unfold Text.strip. rewrite append_cons. simpl Text.lstrip. rewrite Hc.
  rewrite <- append_cons.
  change (" = " +:+ v) with (" =" +:+ (" " +:+ v)).
  rewrite <- append_assoc, rstrip_app.
  apply no_trailing_space_eq in Hk, Hv.
  rewrite (rstrip_app (String c k) " ="). change (Text.rstrip " =") with " =".
  change (Text.is_empty " =") with false. cbv iota.
  change (" " +:+ v) with (String " " v). simpl Text.rstrip at 1 2.
  rewrite Hv. destruct v; simpl.
  - now rewrite append_nil_r.
  - now rewrite append_assoc.
Qed.

Lemma stripped_item_shape k v :
  plain_key k = true ->
  exists c r, stripped_item k v = String c r
    /\ Text.isspace c = false /\ Ascii.eqb c "#"%char = false
    /\ Ascii.eqb c ";"%char = false /\ Ascii.eqb c "["%char = false
    /\ item_line k v = String c (match k with String _ k' => k' | _ => "" end
                                   +:+ " = " +:+ v).
Proof.
  unfold plain_key, stripped_item, item_line. rewrite !andb_true_iff.
  intros [[[[Hc _] _] _] _].
  destruct k as [|c k]; [discriminate|]. simpl in Hc.
  rewrite !andb_true_iff, !negb_true_iff in Hc.
  destruct Hc as [[[H1 H2] H3] H4].
  exists c. eexists. rewrite !append_cons. repeat split; eauto.
Qed.

Lemma opt_match_item k v :
  plain_key k = true -> plain_value v = true ->
  exists optval,
    ConfigParser.opt_match (stripped_item k v) = Some (k, optval)
    /\ Text.strip optval = v.
Proof.
  intros Hk Hv. unfold ConfigParser.opt_match, stripped_item.
  unfold plain_key, plain_value in *.
  rewrite !andb_true_iff in Hk. rewrite !andb_true_iff in Hv.
  destruct Hk as [[[[_ Hk1] _] Hk2] _]. destruct Hv as [[Hv1 Hv2] _].
  rewrite (split_delimiter_key k _ Hk2).
  rewrite rstrip_app. change (Text.rstrip " ") with "". cbv iota.
  change (Text.is_empty "") with true. cbv iota.
  rewrite (no_trailing_space_eq k Hk1).
  eexists. split; [reflexivity|].
  destruct v as [|c v]; [reflexivity|].
  change (Text.strip (if Text.is_empty (String c v) then ""
                      else " " +:+ String c v))
    with (Text.rstrip (Text.lstrip (String c v))).
  rewrite (no_leading_space_eq (String c v) Hv1).
  now apply no_trailing_space_eq.
Qed.

(** *** Dictionaries *)

Lemma dict_mem_cons {V : Type} k k' (v : V) d :
  dict_mem k ((k', v) :: d) = String.eqb k k' || dict_mem k d.
Proof. unfold dict_mem. simpl. now destruct (String.eqb k k'). Qed.

Lemma dict_mem_app {V : Type} k (a b : list (string * V)) :
  dict_mem k (a ++ b) = dict_mem k a || dict_mem k b.
Proof.
  induction a as [|[k' v] a IH]; [reflexivity|].
  rewrite <- app_comm_cons, !dict_mem_cons, IH. apply orb_assoc.
Qed.

Lemma dict_set_fresh {V : Type} k (v : V) d :
  dict_mem k d = false -> dict_set k v d = d ++ [(k, v)].
Proof.
  induction d as [|[k' v'] d IH]; [reflexivity|].
  rewrite dict_mem_cons. intros [H1 H2]%orb_false_iff.
  simpl. now rewrite H1, (IH H2).
Qed.

Lemma dict_set_last {V : Type} k (v v' : V) d :
  dict_mem k d = false -> dict_set k v' (d ++ [(k, v)]) = d ++ [(k, v')].
Proof.
  induction d as [|[k0 v0] d IH].
  - intros _. simpl. now rewrite String.eqb_refl.
  - rewrite dict_mem_cons. intros [H1 H2]%orb_false_iff.
    simpl. now rewrite H1, (IH H2).
Qed.

Lemma dict_get_last {V : Type} k (v : V) d :
  dict_mem k d = false -> dict_get k (d ++ [(k, v)]) = Some v.
Proof.
  induction d as [|[k0 v0] d IH].
  - intros _. simpl. now rewrite String.eqb_refl.
  - rewrite dict_mem_cons. intros [H1 H2]%orb_false_iff.
    simpl. now rewrite H1, (IH H2).
Qed.

Lemma dict_set_set {V : Type} k (v v' : V) d :
  dict_set k v' (dict_set k v d) = dict_set k v' d.
Proof.
  induction d as [|[k0 v0] d IH]; simpl.
  - now rewrite String.eqb_refl.
  - destruct (String.eqb k k0) eqn:E; simpl; rewrite ?String.eqb_refl, ?E, ?IH;
      reflexivity.
Qed.

Lemma dict_mem_map_values {V W : Type} (f : string * V -> W) k d :
  dict_mem k (map (fun kv => (fst kv, f kv)) d) = dict_mem k d.
Proof.
  induction d as [|[k' v] d IH]; [reflexivity|].
  simpl. now rewrite !dict_mem_cons, IH.
Qed.

Lemma distinct_keys_fresh {V : Type} (done : list (string * V)) k v rest :
  distinct_keys (done ++ (k, v) :: rest) = true -> dict_mem k done = false.
Proof.
  induction done as [|[k0 v0] done IH]; [reflexivity|].
  rewrite <- app_comm_cons. simpl.
  intros [H1 H2]%andb_prop. rewrite dict_mem_cons, (IH H2), orb_false_r.
  apply negb_true_iff in H1.
  rewrite dict_mem_app, dict_mem_cons in H1.
  apply orb_false_iff in H1 as [_ [H1 _]%orb_false_iff].
  now rewrite String.eqb_sym.
Qed.

Lemma distinct_keys_tail {V : Type} (a b : list (string * V)) :
  distinct_keys (a ++ b) = true -> distinct_keys b = true.
Proof.
  induction a as [|[k v] a IH]; [easy|].
  rewrite <- app_comm_cons. simpl. intros [_ H]%andb_prop. now apply IH.
Qed.

(** *** The state of the parser inside a section *)

Lemma raw_closed_snoc d k v :
  raw_closed (d ++ [(k, v)]) = raw_open d ++ [(k, [v; ""])].
Proof.
  induction d as [|[k0 v0] d IH]; [reflexivity|].
  rewrite <- app_comm_cons. simpl. rewrite IH.
  now destruct d.
Qed.

Lemma raw_open_snoc d k v : raw_open (d ++ [(k, v)]) = raw_open d ++ [(k, [v])].
Proof. unfold raw_open. now rewrite map_app. Qed.

Lemma last_key_snoc d k v : last_key (d ++ [(k, v)]) = Some k.
Proof. unfold last_key. now rewrite last_snoc. Qed.

Lemma cursect_reading st sect d :
  ConfigParser.cursect (reading st sect d) sect = raw_open d.
Proof.
  unfold ConfigParser.cursect, reading, ConfigParser.set_cursect.
  destruct (String.eqb sect ConfigParser.default_section); simpl; [reflexivity|].
  now rewrite dict_get_set_eq.
Qed.

Lemma set_cursect_reading st sect d d' :
  ConfigParser.ps_defaults
    (ConfigParser.set_cursect (reading st sect d) sect d') =
    ConfigParser.ps_defaults (ConfigParser.set_cursect st sect d')
  /\ ConfigParser.ps_sections
       (ConfigParser.set_cursect (reading st sect d) sect d') =
       ConfigParser.ps_sections (ConfigParser.set_cursect st sect d').
Proof.
  unfold reading, ConfigParser.set_cursect.
  destruct (String.eqb sect ConfigParser.default_section); simpl; [easy|].
  now rewrite dict_set_set.
Qed.

(** *** One line at a time *)

Lemma prefix_cons a s1 b s2 :
  String.prefix (String a s1) (String b s2) =
    if ascii_dec a b then String.prefix s1 s2 else false.
Proof. reflexivity. Qed.

Lemma is_comment_cons c r :
  Ascii.eqb c "#"%char = false -> Ascii.eqb c ";"%char = false ->
  ConfigParser.is_comment (String c r) = false.
Proof.
  intros H1 H2. unfold ConfigParser.is_comment, Text.startswith.
  rewrite !prefix_cons.
  destruct (ascii_dec "#" c) as [<-|_]; [discriminate|].
  destruct (ascii_dec ";" c) as [<-|_]; [discriminate|]. reflexivity.
Qed.

(** A line that starts in the first column with something that is not a
    comment is a section header or an option line, never the
    continuation of a value. *)
Lemma read_line_at_margin st line c r :
  Text.strip line = String c r ->
  Ascii.eqb c "#"%char = false -> Ascii.eqb c ";"%char = false ->
  Text.first_nonspace line = Some 0 ->
  ConfigParser.read_line st line =
    match ConfigParser.sect_match (String c r) with
    | Some sectname => ConfigParser.header_line st 0 sectname
    | None =>
        match ConfigParser.ps_cursect st with
        | None => Err MissingSectionHeaderError
        | Some sect => ConfigParser.option_line st 0 sect (String c r)
        end
    end.
Proof.
  intros Hs H1 H2 Hi. unfold ConfigParser.read_line.
  rewrite Hs, (is_comment_cons c r H1 H2), Hi. cbv zeta.
  change (Text.is_empty (String c r)) with false. cbv iota.
  change (default 0 (Some 0)) with 0.
  replace (Nat.ltb (ConfigParser.ps_indent st) 0) with false
    by (symmetry; apply Nat.ltb_ge; lia).
  destruct (ConfigParser.ps_cursect st);
    destruct (ConfigParser.truthy (ConfigParser.ps_optname st)); reflexivity.
Qed.

Lemma plain_key_not_empty k : plain_key k = true -> Text.is_empty k = false.
Proof.
  unfold plain_key. rewrite !andb_true_iff. intros [[[[H _] _] _] _].
  now destruct k.
Qed.

Lemma plain_key_fixed k :
  plain_key k = true -> ConfigParser.optionxform (Text.rstrip k) = k.
Proof.
  unfold plain_key. rewrite !andb_true_iff. intros [[[[_ H1] _] _] H2].
  rewrite (no_trailing_space_eq k H1). now apply String.eqb_eq.
Qed.

Lemma read_line_item st sect done k v :
  plain_key k = true -> plain_value v = true ->
  dict_mem k done = false ->
  ConfigParser.read_line (reading st sect done) (item_line k v) =
    Ok (reading st sect (done ++ [(k, v)])).
Proof.
  intros Hk Hv Hfresh.
  destruct (stripped_item_shape k v Hk) as (c & r & Hs & Hc1 & Hc2 & Hc3 & Hc4 & Hl).
  rewrite (read_line_at_margin _ _ c r); try assumption.
  - rewrite <- Hs.
    replace (ConfigParser.sect_match (stripped_item k v)) with (@None string)
      by (rewrite Hs; simpl; now rewrite Hc4).
    change (ConfigParser.ps_cursect (reading st sect done)) with (Some sect).
    cbv iota. unfold ConfigParser.option_line.
    destruct (opt_match_item k v Hk Hv) as (optval & -> & Hval).
    rewrite (plain_key_fixed k Hk), (plain_key_not_empty k Hk), Hval.
    rewrite cursect_reading. unfold raw_open at 1.
    rewrite (dict_mem_map_values (fun kv => [snd kv])), Hfresh.
    destruct (set_cursect_reading st sect done
                (dict_set k [v] (raw_open done))) as [-> ->].
    unfold reading.
    rewrite (dict_set_fresh k [v] (raw_open done))
      by (unfold raw_open; now rewrite (dict_mem_map_values (fun kv => [snd kv]))).
    now rewrite raw_open_snoc, last_key_snoc.
  - now rewrite strip_item_line.
  - rewrite Hl. simpl. now rewrite Hc1.
Qed.

Lemma read_line_empty st sect d :
  forallb (fun kv => plain_key (fst kv)) d = true ->
  distinct_keys d = true ->
  ConfigParser.read_line (reading st sect d) "" = Ok (closed st sect d).
Proof.
  intros Hp Hd. unfold ConfigParser.read_line.
  change (Text.strip "") with "".
  change (ConfigParser.is_comment "") with false. cbv iota zeta.
  change (Text.is_empty "") with true. cbv iota.
  change (ConfigParser.ps_cursect (reading st sect d)) with (Some sect).
  change (ConfigParser.ps_optname (reading st sect d)) with (last_key d).
  destruct d as [|kv d _] using rev_ind; [reflexivity|].
  destruct kv as [k v]. rewrite last_key_snoc.
  rewrite forallb_app in Hp. apply andb_prop in Hp as [_ Hk].
  simpl in Hk. rewrite andb_true_r in Hk.
  unfold ConfigParser.truthy. rewrite (plain_key_not_empty k Hk).
  unfold ConfigParser.append_value. rewrite cursect_reading.
  assert (Hfresh : dict_mem k (raw_open d) = false).
  { unfold raw_open. rewrite (dict_mem_map_values (fun kv => [snd kv])).
    now apply (distinct_keys_fresh d k v []). }
  rewrite raw_open_snoc, (dict_get_last k [v] _ Hfresh).
  change (default [] (Some [v]) ++ [""]) with [v; ""].
  rewrite (dict_set_last k [v] [v; ""] _ Hfresh).
  unfold closed, reading, ConfigParser.set_cursect.
  rewrite raw_closed_snoc, last_key_snoc.
  destruct (String.eqb sect ConfigParser.default_section); simpl;
    rewrite ?dict_set_set; reflexivity.
Qed.

Lemma read_line_header st name :
  plain_name name = true ->
  ConfigParser.ps_error st = false ->
  dict_mem name (ConfigParser.ps_sections st) = false ->
  (name = ConfigParser.default_section -> ConfigParser.ps_defaults st = []) ->
  ConfigParser.read_line st (header name) = Ok (reading st name []).
Proof.
  intros Hn He Hfresh Hdef. apply andb_prop in Hn as [Hn _].
  apply negb_true_iff in Hn.
  assert (Hs : Text.strip (header name) = String "[" (name +:+ "]")).
  { unfold header, Text.strip. rewrite append_cons, append_nil_l.
    change (Text.lstrip (String "[" (name +:+ "]")))
      with (String "[" (name +:+ "]")).
    rewrite rstrip_cons_nonspace by reflexivity.
    now rewrite rstrip_app. }
  rewrite (read_line_at_margin st _ _ _ Hs); try reflexivity.
  unfold ConfigParser.sect_match.
  change (Ascii.eqb "[" "[") with true. cbv iota.
  rewrite upto_last_bracket_name, Hn.
  unfold ConfigParser.header_line. rewrite Hfresh.
  unfold reading, ConfigParser.set_cursect.
  destruct (String.eqb name ConfigParser.default_section) eqn:E.
  - apply String.eqb_eq in E. rewrite (Hdef E), He. reflexivity.
  - rewrite He. simpl.
    now rewrite (dict_set_fresh (V:=ConfigParser.raw_items) name [] _ Hfresh).
Qed.

Lemma fold_result_app {A B : Type} (f : A -> B -> result A) a l1 l2 :
  ConfigParser.fold_result f a (l1 ++ l2) =
    ConfigParser.fold_result f a l1 ≫= fun a' => ConfigParser.fold_result f a' l2.
Proof.
  revert a. induction l1 as [|b l1 IH]; intros a; [reflexivity|].
  simpl. destruct (f a b); simpl; [apply IH|reflexivity].
Qed.

Lemma read_items st sect d done :
  forallb plain_item d = true ->
  distinct_keys (done ++ d) = true ->
  ConfigParser.fold_result ConfigParser.read_line (reading st sect done)
    (item_lines d) = Ok (reading st sect (done ++ d)).
Proof.
  revert done. induction d as [|[k v] d IH]; intros done Hp Hd.
  - now rewrite app_nil_r.
  - simpl in Hp. apply andb_prop in Hp as [Hkv Hp].
    apply andb_prop in Hkv as [Hk Hv]. simpl in Hk, Hv.
    simpl. rewrite (read_line_item st sect done k v Hk Hv
                      (distinct_keys_fresh done k v d Hd)).
    simpl. rewrite (IH (done ++ [(k, v)])); [|assumption|].
    + now rewrite <- app_assoc.
    + now rewrite <- app_assoc.
Qed.

Lemma forallb_plain_key d :
  forallb plain_item d = true ->
  forallb (fun kv => plain_key (fst kv)) d = true.
Proof.
  induction d as [|kv d IH]; [reflexivity|]. simpl.
  intros [[H _]%andb_prop Hd]%andb_prop. now rewrite H, IH.
Qed.

Lemma read_section st name d :
  plain_name name = true -> plain_items d = true ->
  ConfigParser.ps_error st = false ->
  dict_mem name (ConfigParser.ps_sections st) = false ->
  (name = ConfigParser.default_section -> ConfigParser.ps_defaults st = []) ->
  ConfigParser.fold_result ConfigParser.read_line st (section_lines name d) =
    Ok (closed st name d).
Proof.
  intros Hn [Hp Hd]%andb_prop He Hfresh Hdef. unfold section_lines.
  simpl. rewrite (read_line_header st name Hn He Hfresh Hdef). simpl.
  rewrite fold_result_app, (read_items st name d [] Hp Hd). simpl.
  rewrite (read_line_empty st name d (forallb_plain_key d Hp) Hd).
  reflexivity.
Qed.

(** *** From the text to its lines *)

Lemma one_line_item k v :
  plain_key k = true -> plain_value v = true -> one_line (item_line k v) = true.
Proof.
  unfold plain_key, plain_value, item_line. rewrite !andb_true_iff.
  intros [[[[_ _] Hk] _] _] [_ Hv].
  now rewrite !one_line_app, Hk, Hv.
Qed.

Lemma lines_write_items d rest :
  forallb plain_item d = true ->
  Text.lines (ConfigParser.write_items d +:+ rest) =
    item_lines d ++ Text.lines rest.
Proof.
  induction d as [|[k v] d IH]; intros Hp; [reflexivity|].
  simpl in Hp. apply andb_prop in Hp as [[Hk Hv]%andb_prop Hp].
  simpl in Hk, Hv. simpl.
  assert (Hv1 : one_line v = true)
    by (unfold plain_value in Hv; now apply andb_prop in Hv as [_ ?]).
  rewrite (write_value_one_line v Hv1), <- (IH Hp).
  rewrite <- (lines_line (item_line k v) _ (one_line_item k v Hk Hv)).
  unfold item_line. now rewrite !append_assoc.
Qed.

Lemma lines_write_section name d rest :
  plain_name name = true -> forallb plain_item d = true ->
  Text.lines (ConfigParser.write_section name d +:+ rest) =
    section_lines name d ++ Text.lines rest.
Proof.
  intros [_ Hn]%andb_prop Hp. unfold ConfigParser.write_section, section_lines.
  rewrite <- app_comm_cons, <- app_assoc.
  change ([""] ++ Text.lines rest) with ("" :: Text.lines rest).
  rewrite <- (lines_line "" rest eq_refl), <- (lines_write_items d _ Hp).
  assert (Hh : one_line (header name) = true)
    by (unfold header; now rewrite !one_line_app, Hn).
  rewrite <- (lines_line (header name) _ Hh).
  unfold header. now rewrite !append_assoc.
Qed.

(** *** The whole file *)

Lemma read_sections secs done st :
  forallb plain_section secs = true ->
  distinct_keys (done ++ secs) = true ->
  ConfigParser.ps_error st = false ->
  ConfigParser.ps_sections st = map close_section done ->
  exists st',
    ConfigParser.fold_result ConfigParser.read_line st (sections_lines secs)
      = Ok st'
    /\ ConfigParser.ps_defaults st' = ConfigParser.ps_defaults st
    /\ ConfigParser.ps_sections st' = map close_section (done ++ secs)
    /\ ConfigParser.ps_error st' = false.
Proof.
  revert done st. induction secs as [|[name d] secs IH]; intros done st Hp Hd He Hs.
  - exists st. rewrite app_nil_r. auto.
  - simpl in Hp. apply andb_prop in Hp as [Hs1 Hp].
    unfold plain_section in Hs1. simpl in Hs1.
    apply andb_prop in Hs1 as [[Hn Hne]%andb_prop Hitems].
    apply negb_true_iff in Hne.
    assert (Hfresh : dict_mem name (ConfigParser.ps_sections st) = false).
    { rewrite Hs. unfold close_section.
      rewrite (dict_mem_map_values (fun s => raw_closed (snd s))).
      now apply (distinct_keys_fresh done name d secs). }
    assert (Hsec : ConfigParser.ps_sections (closed st name d) =
                   map close_section ((done ++ [(name, d)]))).
    { unfold closed, ConfigParser.set_cursect. rewrite Hne. simpl.
      rewrite (dict_set_fresh (V:=ConfigParser.raw_items) name _ _ Hfresh).
      now rewrite Hs, map_app. }
    destruct (IH (done ++ [(name, d)]) (closed st name d) Hp) as (st' & H1 & H2 & H3 & H4);
      [now rewrite <- app_assoc|reflexivity|exact Hsec|].
    exists st'.
    change (sections_lines ((name, d) :: secs))
      with (section_lines name d ++ sections_lines secs).
    rewrite fold_result_app.
    rewrite (read_section st name d Hn Hitems He Hfresh)
      by (intros ->; discriminate).
    simpl. rewrite H1. repeat split; [|now rewrite H3, <- app_assoc|exact H4].
    rewrite H2. unfold closed, ConfigParser.set_cursect. now rewrite Hne.
Qed.

Lemma lines_write_sections secs :
  forallb plain_section secs = true ->
  Text.lines (ConfigParser.write_sections secs) = sections_lines secs.
Proof.
  induction secs as [|[name d] secs IH]; intros Hp; [reflexivity|].
  simpl in Hp. apply andb_prop in Hp as [Hs Hp].
  unfold plain_section in Hs. simpl in Hs.
  apply andb_prop in Hs as [[Hn _]%andb_prop [Hitems _]%andb_prop].
  change (ConfigParser.write_sections ((name, d) :: secs))
    with (ConfigParser.write_section name d
          +:+ ConfigParser.write_sections secs).
  rewrite (lines_write_section name d _ Hn Hitems), (IH Hp).
  reflexivity.
Qed.

Lemma join_values_closed d :
  forallb plain_item d = true -> ConfigParser.join_values (raw_closed d) = d.
Proof.
  induction d as [|[k v] d IH]; intros Hp; [reflexivity|].
  simpl in Hp. apply andb_prop in Hp as [[_ Hv]%andb_prop Hp].
  simpl in Hv. unfold plain_value in Hv.
  apply andb_prop in Hv as [[_ Hv]%andb_prop _].
  apply no_trailing_space_eq in Hv.
  destruct d as [|kv d].
  - simpl. change (Text.join Text.nl [v; ""]) with (v +:+ Text.nl +:+ "").
    rewrite rstrip_app. change (Text.rstrip (Text.nl +:+ "")) with "".
    cbv iota. now rewrite Hv.
  - change (raw_closed ((k, v) :: kv :: d))
      with ((k, [v]) :: raw_closed (kv :: d)).
    change (ConfigParser.join_values ((k, [v]) :: raw_closed (kv :: d)))
      with ((k, Text.rstrip v)
            :: ConfigParser.join_values (raw_closed (kv :: d))).
    now rewrite Hv, (IH Hp).
Qed.

Lemma join_sections_closed secs :
  forallb plain_section secs = true ->
  map (fun s => (fst s, ConfigParser.join_values (snd s)))
    (map close_section secs) = secs.
Proof.
  induction secs as [|[name d] secs IH]; intros Hp; [reflexivity|].
  simpl in Hp. apply andb_prop in Hp as [Hs Hp].
  unfold plain_section in Hs. simpl in Hs.
  apply andb_prop in Hs as [_ [Hitems _]%andb_prop].
  simpl. now rewrite (join_values_closed d Hitems), (IH Hp).
Qed.

(** Reading back what was written gives the parser that was written,
    when the parser is plain. *)
Lemma read_write p :
  plain p = true -> ConfigParser.read_string (ConfigParser.write p) = Ok p.
Proof.
  destruct p as [defs secs]. unfold plain. simpl.
  intros [[[Hdp Hdd]%andb_prop Hp]%andb_prop Hd]%andb_prop.
  unfold ConfigParser.read_string, ConfigParser.write. simpl.
  destruct defs as [|kv defs].
  - rewrite append_nil_l, (lines_write_sections secs Hp).
    destruct (read_sections secs [] ConfigParser.ps_init Hp Hd eq_refl eq_refl)
      as (st' & -> & H2 & H3 & H4).
    simpl. rewrite H4, H2, H3. simpl.
    now rewrite (join_sections_closed secs Hp).
  - rewrite (lines_write_section ConfigParser.default_section (kv :: defs) _
               eq_refl Hdp).
    rewrite (lines_write_sections secs Hp), fold_result_app.
    assert (Hitems : plain_items (kv :: defs) = true)
      by (unfold plain_items; now rewrite Hdp, Hdd).
    rewrite (read_section ConfigParser.ps_init ConfigParser.default_section
               (kv :: defs) eq_refl Hitems eq_refl eq_refl (fun _ => eq_refl)).
    simpl.
    destruct (read_sections secs []
                (closed ConfigParser.ps_init ConfigParser.default_section
                   (kv :: defs)) Hp Hd eq_refl eq_refl)
      as (st' & -> & H2 & H3 & H4).
    simpl. rewrite H4, H2, H3.
    change (ConfigParser.ps_defaults
              (closed ConfigParser.ps_init ConfigParser.default_section
                 (kv :: defs))) with (raw_closed (kv :: defs)).
    rewrite (join_values_closed (kv :: defs) Hdp).
    simpl. now rewrite (join_sections_closed secs Hp).
Qed.

(** C8, as stated, fails: the wizard stores the user name as typed, with
    its leading blank, and writes it; reading the file back yields the
    name without the blank. *)
Lemma leading_space_lost :
  exists st' text p,
    main wizard_leading_space = Blocked st'
    /\ stored (config st') "user" = Some " alice"
    /\ config_path st' = "/home/pi/.raptic"
    /\ files st' !! "/home/pi/.raptic" = Some text
    /\ ConfigParser.read_string text = Ok p
    /\ stored p "user" = Some "alice".
Proof.
  exists (final (main wizard_leading_space)),
    "[general]
server = 10.0.0.5
user =  alice
fullscreen = yes

",
    (ConfigParser.mk []
       [("general",
         [("server", "10.0.0.5"); ("user", "alice"); ("fullscreen", "yes")])]).
  split; [vm_compute; reflexivity|]. split; [vm_compute; reflexivity|].
  split; [vm_compute; reflexivity|]. split; [vm_compute; reflexivity|].
  split; vm_compute; reflexivity.
Qed.

(** C8, amended.  When the configuration is plain (option names and
    values on one line, without white space at either end; names in
    lower case, not empty, without [=] or [:], not opening with [#], [;]
    or [[]; section names not empty and on one line; no name twice),
    saving it writes a file at the remembered path whose text, when the
    file can be opened for reading, parses back to the very same
    configuration: every section, every key and every value. *)
Theorem save_then_load st :
  plain (config st) = true ->
  open_error st (config_path st) = None ->
  unreadable st (config_path st) = false ->
  exists st' st'',
    config_save st = Ret tt st'
    /\ file_at st' (config_path st) = Some (ConfigParser.write (config st))
    /\ config_read (config_path st) (with_config ConfigParser.empty st')
       = Ret tt st''
    /\ config st'' = config st.
Proof.
  intros Hp Ho Hr. rewrite (config_save_ok st Ho).
  eexists _, _. split; [reflexivity|]. split; [apply lookup_insert_eq|].
  unfold config_read, file_at. simpl. rewrite lookup_insert_eq, Hr.
  rewrite (read_write (config st) Hp). split; reflexivity.
Qed.

Lemma save_then_load_witness :
  exists st' st'',
    config_save saved_alice = Ret tt st'
    /\ file_at st' (config_path saved_alice)
       = Some (ConfigParser.write (config saved_alice))
    /\ config_read (config_path saved_alice)
         (with_config ConfigParser.empty st') = Ret tt st''
    /\ config st'' = config saved_alice.
Proof.
  apply (save_then_load saved_alice); vm_compute; reflexivity.
Defined.

(** ** The second candidate *)

Lemma second_candidate_not_empty st :
  Text.is_empty (second_candidate st) = false.
Proof. apply expand_not_empty. Qed.

(** X1.  When only the second candidate, [~/.config/raptic], exists and
    it can be opened for reading, loading parses it and makes it the
    save target: the next save overwrites that file and leaves
    [~/.raptic] absent. *)
Theorem load_second_candidate st text p :
  file_at st (first_candidate st) = None ->
  file_at st (second_candidate st) = Some text ->
  unreadable st (second_candidate st) = false ->
  ConfigParser.read_string text = Ok p ->
  open_error st (second_candidate st) = None ->
  exists st' st'',
    read_config st = Ret tt st'
    /\ config st' = p
    /\ config_path st' = second_candidate st
    /\ files st' = files st
    /\ config_save st' = Ret tt st''
    /\ file_at st'' (second_candidate st) = Some (ConfigParser.write p)
    /\ file_at st'' (first_candidate st) = None.
Proof.
  intros H1 H2 Hr Hp Ho.
  assert (Hne : resolve st (first_candidate st)
                <> resolve st (second_candidate st)).
  { unfold file_at in *. intros Heq. rewrite Heq in H1. congruence. }
  assert (Hrc : read_config st =
            Ret tt (with_config_path (second_candidate st)
                      (with_config p st))).
  { unfold read_config, CANDIDATES, read_candidates. run_M.
    unfold isfile, config_read, file_at in *. simpl.
    fold (first_candidate st) (second_candidate st).
    rewrite H1. simpl. fold (second_candidate st).
    rewrite H2. simpl. rewrite H2, Hr, Hp. simpl.
    now rewrite (second_candidate_not_empty st). }
  eexists _, _. split; [exact Hrc|]. simpl.
  split; [reflexivity|]. split; [reflexivity|]. split; [reflexivity|].
  split.
  - unfold config_save. simpl. rewrite Ho. reflexivity.
  - unfold file_at in *. simpl. split.
    + apply lookup_insert_eq.
    + rewrite lookup_insert_ne by congruence. exact H1.
Qed.

Lemma load_second_candidate_witness :
  exists st' st'',
    read_config (world second_only []) = Ret tt st'
    /\ config st' = ConfigParser.mk [] [("general", [("server", "second")])]
    /\ config_path st' = second_candidate (world second_only [])
    /\ files st' = files (world second_only [])
    /\ config_save st' = Ret tt st''
    /\ file_at st'' (second_candidate (world second_only []))
       = Some (ConfigParser.write
                 (ConfigParser.mk [] [("general", [("server", "second")])]))
    /\ file_at st'' (first_candidate (world second_only [])) = None.
Proof.
  apply (load_second_candidate (world second_only []) "[general]
server = second
" (ConfigParser.mk [] [("general", [("server", "second")])]));
    vm_compute; reflexivity.
Defined.

(** ** Launching from the main menu *)

(** One turn of the main menu with an item chosen. *)
Lemma menu_chosen st a rest :
  answers st = a :: rest ->
  a_code a = OK ->
  menu st =
    (let tag := Dialog.selected ["1"; "2"; "3"; "x"] "1" (a_pick a) in
     if String.eqb tag "1" then _ ← rdesktop_start; mret true
     else if String.eqb tag "2" then _ ← config_edit; mret true
     else if String.eqb tag "3" then _ ← desktop_environment_start; mret true
     else if String.eqb tag "x" then mret false
     else mret true)
      (with_answers rest
         (with_log (log st ++ [Menu WHAT_TO_DO MAIN_CHOICES]) st)).
Proof.
  intros Ha Hc. unfold menu. step (menu_answer st a rest Ha).
  rewrite Hc. reflexivity.
Qed.

(** X2.  Without [rdesktop] on the search path, "Start ThinClient" shows
    the message about the path and, once it is acknowledged, clears the
    screen and ends the process with exit code 1.  The configuration is
    not even looked at and nothing is launched. *)
Theorem thin_client_needs_rdesktop n st a a' rest :
  which_rdesktop st = None ->
  answers st = a :: a' :: rest ->
  a_code a = OK ->
  a_pick a = 0 ->
  menu_loop (S n) st =
    Exited 1
      (with_log (log st ++ [ Menu WHAT_TO_DO MAIN_CHOICES;
                             Msgbox NOT_IN_PATH ""; Clear ])
         (with_answers rest st)).
Proof.
  intros Hw Ha Hc Hp. simpl.
  rewrite ?bind_assoc. unfold mbind at 1, M_bind at 1.
  rewrite (menu_chosen st a (a' :: rest) Ha Hc), Hp. simpl.
  unfold rdesktop_start, Dialog.msgbox, show, exit. run_M. rewrite Hw. simpl.
  rewrite <- !app_assoc. reflexivity.
Qed.

Lemma thin_client_needs_rdesktop_witness :
  menu_loop 1 (without_rdesktop (world ∅ [choose OK 0; press OK])) =
    Exited 1
      (with_log
         (log (without_rdesktop (world ∅ [choose OK 0; press OK]))
          ++ [Menu WHAT_TO_DO MAIN_CHOICES; Msgbox NOT_IN_PATH ""; Clear])
         (with_answers []
            (without_rdesktop (world ∅ [choose OK 0; press OK])))).
Proof.
  apply (thin_client_needs_rdesktop 0
           (without_rdesktop (world ∅ [choose OK 0; press OK]))
           (choose OK 0) (press OK) []); reflexivity.
Defined.

(** A turn of the main menu in which the remote desktop is launched. *)
Lemma menu_loop_thin_client n st a rest out user server fullscreen :
  answers st = a :: rest ->
  a_code a = OK ->
  a_pick a = 0 ->
  which_rdesktop st = Some out ->
  ConfigParser.get (config st) "general" "user" = Ok user ->
  ConfigParser.get (config st) "general" "server" = Ok server ->
  ConfigParser.getboolean (config st) "general" "fullscreen"
    = Ok fullscreen ->
  menu_loop (S n) st =
    menu_loop n
      (with_log
         (log st ++ [ Menu WHAT_TO_DO MAIN_CHOICES;
                      Call (rdesktop_command (Text.strip out) user
                              server fullscreen) ])
         (with_answers rest st)).
Proof.
  intros Ha Hc Hp Hw Hu Hs Hf. simpl.
  rewrite ?bind_assoc. unfold mbind at 1, M_bind at 1.
  rewrite (menu_chosen st a rest Ha Hc), Hp. simpl.
  unfold mbind at 1, M_bind at 1.
  rewrite (rdesktop_start_found _ out user server fullscreen)
    by assumption.
  run_M. rewrite <- !app_assoc. reflexivity.
Qed.

(** X3.  Both launch items come back to the main menu.  "Start desktop
    environment" runs [startx] and shows the menu again; "Start
    ThinClient", when [rdesktop] is found and the three options can be
    read, runs the remote desktop and shows the menu again.  Neither
    touches the configuration or the files. *)
Theorem launches_return_to_menu n st a rest :
  answers st = a :: rest ->
  a_code a = OK ->
  (a_pick a = 2 ->
     menu_loop (S n) st =
       menu_loop n
         (with_log (log st ++ [Menu WHAT_TO_DO MAIN_CHOICES; Call "startx"])
            (with_answers rest st)))
  /\ (a_pick a = 0 ->
      forall out user server fullscreen,
        which_rdesktop st = Some out ->
        ConfigParser.get (config st) "general" "user" = Ok user ->
        ConfigParser.get (config st) "general" "server" = Ok server ->
        ConfigParser.getboolean (config st) "general" "fullscreen"
          = Ok fullscreen ->
        menu_loop (S n) st =
          menu_loop n
            (with_log
               (log st ++ [ Menu WHAT_TO_DO MAIN_CHOICES;
                            Call (rdesktop_command (Text.strip out) user
                                    server fullscreen) ])
               (with_answers rest st))).
Proof.
  intros Ha Hc. split.
  - intros Hp. simpl.
    rewrite ?bind_assoc. unfold mbind at 1, M_bind at 1.
    rewrite (menu_chosen st a rest Ha Hc), Hp. simpl.
    unfold desktop_environment_start, call. run_M.
    rewrite <- !app_assoc. reflexivity.
  - intros Hp out user server fullscreen Hw Hu Hs Hf.
    now apply (menu_loop_thin_client n st a rest).
Qed.

Lemma launches_return_to_menu_witness :
  menu_loop 1 (alice_start "yes" [choose OK 2]) =
    menu_loop 0
      (with_log
         (log (alice_start "yes" [choose OK 2])
          ++ [Menu WHAT_TO_DO MAIN_CHOICES; Call "startx"])
         (with_answers [] (alice_start "yes" [choose OK 2])))
  /\ menu_loop 1 (alice_start "no" [choose OK 0]) =
       menu_loop 0
         (with_log
            (log (alice_start "no" [choose OK 0])
             ++ [ Menu WHAT_TO_DO MAIN_CHOICES;
                  Call (rdesktop_command (Text.strip "/usr/bin/rdesktop")
                          "alice" "10.0.0.5" false) ])
            (with_answers [] (alice_start "no" [choose OK 0]))).
Proof.
  split.
  - apply (proj1 (launches_return_to_menu 0 (alice_start "yes" [choose OK 2])
                    (choose OK 2) [] eq_refl eq_refl)).
    reflexivity.
  - apply (proj2 (launches_return_to_menu 0 (alice_start "no" [choose OK 0])
                    (choose OK 0) [] eq_refl eq_refl) eq_refl
             "/usr/bin/rdesktop" "alice" "10.0.0.5" false);
      vm_compute; reflexivity.
Defined.

(** ** Escapes in the editor *)

Lemma edit_menu_answer choices st a rest :
  answers st = a :: rest ->
  Dialog.menu WHAT_SETTING choices st =
    Ret (a_code a,
         Dialog.selected (map fst choices) (hd "" (map fst choices)) (a_pick a))
      (with_answers rest (with_log (log st ++ [Menu WHAT_SETTING choices]) st)).
Proof.
  intros H. unfold Dialog.menu, show. run_M. now rewrite H.
Qed.

(** X4.  Escape does not leave the editor.  A button of the edit menu
    that is neither CHANGE, BACK nor SAVE is handled by no branch of the
    loop: after any number of them the same menu is up again, with the
    scratch copy and the changed flag as they were. *)
Theorem editor_ignores_escape escs n config_tmp config_changed st rest choices :
  edit_choices config_tmp (map snd configuration_options) = Ok choices ->
  forallb unhandled escs = true ->
  answers st = escs ++ rest ->
  config_edit_loop (length escs + n) config_tmp config_changed st =
    config_edit_loop n config_tmp config_changed
      (with_log
         (log st ++ repeat (Menu WHAT_SETTING choices) (length escs))
         (with_answers rest st)).
Proof.
  intros Hc. revert st.
  induction escs as [|a escs IH]; intros st Hu Ha.
  - simpl in *. rewrite app_nil_r.
    destruct st; simpl in *; subst; reflexivity.
  - simpl in Hu. apply andb_true_iff in Hu as [Hu1 Hu2].
    change (length (a :: escs) + n) with (S (length escs + n)).
    change (config_edit_loop (S (length escs + n)) config_tmp config_changed)
      with (turn ← config_edit_turn config_tmp config_changed;
            match turn with
            | Return => mret tt
            | Again c changed => config_edit_loop (length escs + n) c changed
            end).
    assert (Ht : config_edit_turn config_tmp config_changed st =
              Ret (Again config_tmp config_changed)
                (with_answers (escs ++ rest)
                   (with_log (log st ++ [Menu WHAT_SETTING choices]) st))).
    { unfold config_edit_turn. rewrite Hc.
      change (lift (Ok choices)) with (mret choices : M _).
      unfold mbind at 1, M_bind at 1, mret at 1, M_ret at 1.
      step (edit_menu_answer choices st a (escs ++ rest) Ha).
      unfold unhandled in Hu1. destruct (a_code a); try discriminate;
        reflexivity. }
    step Ht. rewrite IH; [|assumption|reflexivity].
    simpl. rewrite <- app_assoc. reflexivity.
Qed.

Lemma editor_ignores_escape_witness :
  config_edit_loop (length [press ESC; press HELP] + 1) (alice_config "yes")
    false (world ∅ ([press ESC; press HELP] ++ [press CANCEL])) =
    config_edit_loop 1 (alice_config "yes") false
      (with_log
         (log (world ∅ ([press ESC; press HELP] ++ [press CANCEL]))
          ++ repeat (Menu WHAT_SETTING (choices_of "10.0.0.5" "alice" "yes"))
               (length [press ESC; press HELP]))
         (with_answers [press CANCEL]
            (world ∅ ([press ESC; press HELP] ++ [press CANCEL])))).
Proof.
  apply (editor_ignores_escape [press ESC; press HELP] 1 (alice_config "yes")
           false (world ∅ ([press ESC; press HELP] ++ [press CANCEL]))
           [press CANCEL] (choices_of "10.0.0.5" "alice" "yes"));
    vm_compute; reflexivity.
Defined.

(** ** Values without a percent sign *)

Lemma percent_free_cons c r :
  percent_free (String c r) = true ->
  Ascii.eqb c ConfigParser.PERCENT = false /\ percent_free r = true.
Proof.
  unfold percent_free. simpl. rewrite negb_orb, andb_true_iff.
  intros [H1 H2]. split; [|exact H2].
  apply negb_true_iff in H1. now rewrite Ascii.eqb_sym.
Qed.

Lemma interpolate_loop_free deeper d v :
  percent_free v = true ->
  ConfigParser.interpolate_loop deeper d None v = Ok v.
Proof.
  induction v as [|c r IH]; [reflexivity|].
  intros [Hc Hr]%percent_free_cons. simpl. rewrite Hc, (IH Hr). reflexivity.
Qed.

Lemma before_get_free d v :
  percent_free v = true -> ConfigParser.before_get d v = Ok v.
Proof. intros H. now apply interpolate_loop_free. Qed.

Lemma drop_escaped_free v :
  percent_free v = true -> ConfigParser.drop_escaped v = v.
Proof.
  induction v as [|c r IH]; [reflexivity|].
  intros [Hc Hr]%percent_free_cons. simpl. rewrite Hc. simpl.
  destruct r; [reflexivity|]. now rewrite (IH Hr).
Qed.

Lemma percent_left_free v :
  percent_free v = true -> ConfigParser.percent_left None v = false.
Proof.
  induction v as [|c r IH]; [reflexivity|].
  intros [Hc Hr]%percent_free_cons. simpl. rewrite Hc. now apply IH.
Qed.

Lemma before_set_free v :
  percent_free v = true ->
  (if Text.is_empty v then Ok v else ConfigParser.before_set v) = Ok v.
Proof.
  intros H. destruct (Text.is_empty v); [reflexivity|].
  unfold ConfigParser.before_set.
  now rewrite (drop_escaped_free v H), (percent_left_free v H).
Qed.

(** ** Reading and setting in a tidy section *)

Lemma dict_get_mem {V : Type} k (d : list (string * V)) v :
  dict_get k d = Some v -> dict_mem k d = true.
Proof. unfold dict_mem. now intros ->. Qed.

Lemma dict_get_middle {V : Type} (a b : list (string * V)) k v :
  dict_mem k a = false -> dict_get k (a ++ (k, v) :: b) = Some v.
Proof.
  induction a as [|[k0 v0] a IH].
  - intros _. simpl. now rewrite String.eqb_refl.
  - rewrite dict_mem_cons. intros [H1 H2]%orb_false_iff.
    simpl. now rewrite H1, (IH H2).
Qed.

Lemma get_tidy src sect d k v :
  ConfigParser.defaults src = [] ->
  dict_get sect (ConfigParser.sections_ src) = Some d ->
  dict_get k d = Some v ->
  Text.lower k = k ->
  percent_free v = true ->
  ConfigParser.get src sect k = Ok v.
Proof.
  intros Hd Hs Hk Hl Hv.
  unfold ConfigParser.get, ConfigParser.unify_values. rewrite Hs. simpl.
  unfold ConfigParser.chain_get, ConfigParser.optionxform. simpl.
  rewrite Hl, Hk. now apply before_get_free.
Qed.

Lemma proxy_getitem_tidy src sect d k v :
  ConfigParser.defaults src = [] ->
  Text.is_empty sect = false ->
  String.eqb sect ConfigParser.default_section = false ->
  dict_get sect (ConfigParser.sections_ src) = Some d ->
  dict_get k d = Some v ->
  Text.lower k = k ->
  percent_free v = true ->
  ConfigParser.proxy_getitem src sect k = Ok v.
Proof.
  intros Hd He Hn Hs Hk Hl Hv.
  unfold ConfigParser.proxy_getitem, ConfigParser.has_option.
  rewrite He, Hn, Hs. simpl. unfold ConfigParser.optionxform.
  rewrite Hl, (dict_get_mem _ _ _ Hk). simpl.
  now apply (get_tidy src sect d).
Qed.

Lemma set_tidy dflt secs sect d k v :
  Text.is_empty sect = false ->
  String.eqb sect ConfigParser.default_section = false ->
  dict_get sect secs = Some d ->
  Text.lower k = k ->
  percent_free v = true ->
  ConfigParser.set (ConfigParser.mk dflt secs) sect k v =
    Ok (ConfigParser.mk dflt (dict_set sect (dict_set k v d) secs)).
Proof.
  intros He Hn Hs Hl Hv. unfold ConfigParser.set.
  rewrite (before_set_free v Hv). simpl. rewrite He, Hn, Hs. simpl.
  unfold ConfigParser.optionxform. now rewrite Hl.
Qed.

(** ** Copying a section *)

Lemma copy_items src sect d dflt secs todo done :
  ConfigParser.defaults src = [] ->
  Text.is_empty sect = false ->
  String.eqb sect ConfigParser.default_section = false ->
  dict_get sect (ConfigParser.sections_ src) = Some d ->
  d = done ++ todo ->
  tidy_items d = true ->
  ConfigParser.fold_result
    (fun dst k =>
       v ← ConfigParser.proxy_getitem src sect k;
       ConfigParser.set dst sect (ConfigParser.optionxform k) v)
    (ConfigParser.mk dflt (dict_set sect done secs)) (dict_keys todo)
  = Ok (ConfigParser.mk dflt (dict_set sect d secs)).
Proof.
  intros Hd He Hn Hs. revert done.
  induction todo as [|[k v] todo IH]; intros done Heq Ht.
  - simpl. rewrite app_nil_r in Heq. now subst.
  - unfold tidy_items in Ht. apply andb_true_iff in Ht as [Hall Hdist].
    assert (Hin : tidy_item (k, v) = true).
    { rewrite forallb_forall in Hall. apply Hall. subst d.
      apply in_or_app. right. now left. }
    unfold tidy_item in Hin. simpl in Hin.
    apply andb_true_iff in Hin as [Hl Hv]. apply String.eqb_eq in Hl.
    assert (Hfresh : dict_mem k done = false).
    { subst d. now apply (distinct_keys_fresh done k v todo). }
    assert (Hk : dict_get k d = Some v).
    { subst d. now apply dict_get_middle. }
    simpl.
    rewrite (proxy_getitem_tidy src sect d k v) by assumption. simpl.
    assert (Hxx : ConfigParser.optionxform k = k) by exact Hl.
    rewrite Hxx.
    rewrite (set_tidy dflt _ sect done k v); try assumption;
      [|apply dict_get_set_eq].
    rewrite dict_set_set, (dict_set_fresh k v done Hfresh).
    apply IH.
    + now rewrite <- app_assoc.
    + unfold tidy_items. now rewrite Hall, Hdist.
Qed.

Lemma setitem_empty_section p sect :
  String.eqb sect ConfigParser.default_section = false ->
  ConfigParser.setitem_empty p sect =
    ConfigParser.mk (ConfigParser.defaults p)
      (dict_set sect [] (ConfigParser.sections_ p)).
Proof.
  intros Hn.
  unfold ConfigParser.setitem_empty, ConfigParser.clear_section,
    ConfigParser.ensure_section, ConfigParser.add_section. rewrite Hn.
  destruct (ConfigParser.has_section p sect) eqn:Hh.
  - unfold ConfigParser.has_section. simpl.
    unfold dict_mem. rewrite dict_get_set_eq. reflexivity.
  - rewrite Hh. simpl. unfold ConfigParser.has_section in Hh.
    now rewrite (dict_set_fresh sect [] _ Hh).
Qed.

(** [dst[sect] = src[sect]] for a tidy section of [src] puts the section
    in [dst] as it is in [src]. *)
Lemma setitem_proxy_tidy src dst sect d :
  ConfigParser.defaults src = [] ->
  dict_get sect (ConfigParser.sections_ src) = Some d ->
  tidy_section (sect, d) = true ->
  ConfigParser.setitem_proxy src dst sect =
    Ok (ConfigParser.mk (ConfigParser.defaults dst)
          (dict_set sect d (ConfigParser.sections_ dst))).
Proof.
  intros Hd Hs Ht. unfold tidy_section in Ht. simpl in Ht.
  apply andb_true_iff in Ht as [[He Hn]%andb_true_iff Ht].
  apply negb_true_iff in He, Hn.
  unfold ConfigParser.setitem_proxy.
  rewrite (setitem_empty_section dst sect Hn).
  unfold ConfigParser.proxy_options, ConfigParser.options.
  rewrite Hn, Hs, Hd. simpl. rewrite app_nil_r.
  now apply (copy_items src sect d _ _ d []).
Qed.

Lemma setitem_proxy_default src dst :
  ConfigParser.defaults src = [] ->
  ConfigParser.setitem_proxy src dst ConfigParser.default_section =
    Ok (ConfigParser.mk [] (ConfigParser.sections_ dst)).
Proof.
  intros Hd. unfold ConfigParser.setitem_proxy, ConfigParser.proxy_options.
  simpl. rewrite Hd. reflexivity.
Qed.

(** ** Merging one configuration into another *)

Lemma dict_set_middle {V : Type} (a b : list (string * V)) k v v' :
  dict_mem k a = false ->
  dict_set k v' (a ++ (k, v) :: b) = a ++ (k, v') :: b.
Proof.
  induction a as [|[k0 v0] a IH].
  - intros _. simpl. now rewrite String.eqb_refl.
  - rewrite dict_mem_cons. intros [H1 H2]%orb_false_iff.
    simpl. now rewrite H1, (IH H2).
Qed.

(** The sections of [src] still to be assigned, over a target that
    holds the sections already assigned and, after them, either nothing
    or sections of the same names as those to come. *)
Lemma update_sections src dflt todo done old :
  ConfigParser.defaults src = [] ->
  ConfigParser.sections_ src = done ++ todo ->
  forallb tidy_section (ConfigParser.sections_ src) = true ->
  distinct_keys (ConfigParser.sections_ src) = true ->
  old = [] \/ map fst old = map fst todo ->
  ConfigParser.fold_result (ConfigParser.setitem_proxy src)
    (ConfigParser.mk dflt (done ++ old)) (map fst todo)
  = Ok (ConfigParser.mk dflt (ConfigParser.sections_ src)).
Proof.
  intros Hd. revert done old.
  induction todo as [|[sect d] todo IH]; intros done old Heq Hall Hdist Hold.
  - simpl. rewrite app_nil_r in Heq.
    destruct Hold as [->|Hold]; [|apply map_eq_nil in Hold; subst old];
      rewrite app_nil_r; now rewrite Heq.
  - assert (Hfresh : dict_mem sect done = false).
    { rewrite Heq in Hdist. now apply (distinct_keys_fresh done sect d todo). }
    assert (Hs : dict_get sect (ConfigParser.sections_ src) = Some d).
    { rewrite Heq. now apply dict_get_middle. }
    assert (Ht : tidy_section (sect, d) = true).
    { rewrite forallb_forall in Hall. apply Hall. rewrite Heq.
      apply in_or_app. right. now left. }
    simpl. rewrite (setitem_proxy_tidy src _ sect d Hd Hs Ht). simpl.
    destruct Hold as [->|Hold].
    + rewrite app_nil_r, (dict_set_fresh sect d done Hfresh).
      rewrite <- (app_nil_r (done ++ [(sect, d)])).
      apply IH; try assumption; [|now left].
      now rewrite <- app_assoc.
    + destruct old as [|[sect' d'] old]; [discriminate|].
      simpl in Hold. injection Hold as -> Hold.
      rewrite (dict_set_middle done old sect d' d Hfresh).
      change (done ++ (sect, d) :: old) with (done ++ [(sect, d)] ++ old).
      rewrite app_assoc.
      apply IH; try assumption; [|now right].
      now rewrite <- app_assoc.
Qed.

(** [dst.update(src)] for a tidy [src], when [dst] has no section yet or
    the sections of [src] under the same names in the same order: [dst]
    becomes [src]. *)
Lemma update_tidy dst src :
  tidy src = true ->
  ConfigParser.sections dst = [] \/
    ConfigParser.sections dst = ConfigParser.sections src ->
  ConfigParser.update dst src = Ok src.
Proof.
  intros Ht Hshape. unfold tidy in Ht.
  apply andb_true_iff in Ht as [[Hd Hall]%andb_true_iff Hdist].
  assert (Hd' : ConfigParser.defaults src = []).
  { destruct (ConfigParser.defaults src); [reflexivity|discriminate]. }
  unfold ConfigParser.update. simpl.
  rewrite (setitem_proxy_default src dst Hd'). simpl.
  unfold ConfigParser.sections, dict_keys in *.
  pose proof (update_sections src [] (ConfigParser.sections_ src) []
                (ConfigParser.sections_ dst) Hd' eq_refl Hall Hdist) as H.
  simpl in H. rewrite H.
  - destruct src; simpl in *. now subst.
  - destruct Hshape as [Hs|Hs]; [left|right; exact Hs].
    now apply map_eq_nil in Hs.
Qed.

(** ** The wizard *)

Lemma section_set_ok dflt secs d k v :
  dict_get "general" secs = Some d ->
  Text.lower k = k ->
  percent_free v = true ->
  ConfigParser.section_set (ConfigParser.mk dflt secs) "general" k v =
    Ok (ConfigParser.mk dflt (dict_set "general" (dict_set k v d) secs)).
Proof.
  intros Hs Hl Hv.
  unfold ConfigParser.section_set, ConfigParser.getitem,
    ConfigParser.has_section. simpl.
  rewrite (dict_get_mem _ _ _ Hs). simpl.
  now apply set_tidy.
Qed.

Lemma config_set_ok st d k v :
  dict_get "general" (ConfigParser.sections_ (config st)) = Some d ->
  Text.lower k = k ->
  percent_free v = true ->
  config_set k v st =
    Ret tt (with_config
              (ConfigParser.mk (ConfigParser.defaults (config st))
                 (dict_set "general" (dict_set k v d)
                    (ConfigParser.sections_ (config st)))) st).
Proof.
  intros Hs Hl Hv. unfold config_set.
  unfold mbind at 1, M_bind at 1, get_state at 1.
  destruct (config st) as [dflt secs] eqn:Hc. simpl in Hs.
  rewrite (section_set_ok dflt secs d k v Hs Hl Hv). simpl.
  reflexivity.
Qed.

Lemma inputbox_answer text init st a rest :
  answers st = a :: rest ->
  Dialog.inputbox text init st =
    Ret (a_code a, a_text a)
      (with_answers rest (with_log (log st ++ [Inputbox text init]) st)).
Proof. intros H. unfold Dialog.inputbox, show. run_M. now rewrite H. Qed.

Lemma msgbox_answer text title st a rest :
  answers st = a :: rest ->
  Dialog.msgbox text title st =
    Ret (a_code a)
      (with_answers rest (with_log (log st ++ [Msgbox text title]) st)).
Proof. intros H. unfold Dialog.msgbox, show. run_M. now rewrite H. Qed.

(** A required option whose input box is confirmed. *)
Lemma first_start_option_confirmed option st d a rest :
  required option = true ->
  dict_get "general" (ConfigParser.sections_ (config st)) = Some d ->
  Text.lower (name option) = name option ->
  answers st = a :: rest ->
  a_code a = OK ->
  percent_free (a_text a) = true ->
  first_start_option option st =
    Ret tt
      (with_config
         (ConfigParser.mk (ConfigParser.defaults (config st))
            (dict_set "general" (dict_set (name option) (a_text a) d)
               (ConfigParser.sections_ (config st))))
         (with_answers rest
            (with_log (log st ++ [Inputbox (label option) ""]) st))).
Proof.
  intros Hr Hs Hl Ha Hc Hv. unfold first_start_option. rewrite Hr.
  rewrite ?bind_assoc.
  step (inputbox_answer (label option) "" st a rest Ha).
  rewrite Hc. simpl.
  unfold mbind, M_bind, mret, M_ret.
  now rewrite (config_set_ok _ d (name option) (a_text a)).
Qed.

(** The wizard up to its [try] statement when both input boxes are
    confirmed. *)
Lemma first_start_collects st a0 a1 a2 rest :
  ConfigParser.sections (config st) = [] ->
  answers st = a0 :: a1 :: a2 :: rest ->
  a_code a1 = OK ->
  a_code a2 = OK ->
  percent_free (a_text a1) = true ->
  percent_free (a_text a2) = true ->
  first_start st =
    first_start_save (collected st (a_text a1) (a_text a2) rest).
Proof.
  intros Hs Ha H1 H2 Hv1 Hv2.
  assert (Hsecs : ConfigParser.sections_ (config st) = []).
  { unfold ConfigParser.sections, dict_keys in Hs. now apply map_eq_nil in Hs. }
  unfold first_start.
  step (msgbox_answer WELCOME "" st a0 _ Ha).
  unfold mbind at 1, M_bind at 1, modify at 1.
  rewrite (setitem_empty_section (config _) "general" eq_refl).
  change (map snd configuration_options) with [Server; Username; Fullscreen].
  unfold for_each. rewrite ?bind_assoc.
  simpl ConfigParser.sections_. simpl ConfigParser.defaults.
  rewrite Hsecs. simpl dict_set.
  erewrite (bind_Ret (first_start_option Server));
    [|apply (first_start_option_confirmed Server _ [] a1 (a2 :: rest));
      try reflexivity; assumption].
  rewrite ?bind_assoc.
  erewrite (bind_Ret (first_start_option Username));
    [|apply (first_start_option_confirmed Username _
               [("server", a_text a1)] a2 rest);
      try reflexivity; assumption].
  rewrite ?bind_assoc.
  erewrite (bind_Ret (first_start_option Fullscreen));
    [|unfold first_start_option; simpl required; cbv iota;
      unfold mbind at 1, M_bind at 1, mret at 1, M_ret at 1;
      apply (config_set_ok _ [("server", a_text a1); ("user", a_text a2)]
               "fullscreen" "yes"); reflexivity].
  unfold mbind at 1, M_bind at 1, mret at 1, M_ret at 1.
  unfold collected, wizard_config. simpl.
  rewrite <- !app_assoc. reflexivity.
Qed.

(** The wizard when both input boxes are confirmed and the file can be
    written. *)
Lemma first_start_confirmed st a0 a1 a2 a3 rest :
  ConfigParser.sections (config st) = [] ->
  answers st = a0 :: a1 :: a2 :: a3 :: rest ->
  a_code a1 = OK ->
  a_code a2 = OK ->
  percent_free (a_text a1) = true ->
  percent_free (a_text a2) = true ->
  open_error st (config_path st) = None ->
  first_start st = Ret tt (after_wizard st (a_text a1) (a_text a2) rest).
Proof.
  intros Hs Ha H1 H2 Hv1 Hv2 Ho.
  rewrite (first_start_collects st a0 a1 a2 (a3 :: rest)) by assumption.
  rewrite (first_start_save_ok _ a3 rest); [|exact Ho|reflexivity].
  unfold after_wizard, collected. simpl.
  rewrite <- !app_assoc. reflexivity.
Qed.

(** X5.  The wizard asks for the server and the user name only.  When
    both input boxes are confirmed with texts free of [%] and the save
    target can be written, it stores the two texts as typed and [yes]
    for [fullscreen], which it never asks about, writes that
    configuration to the save target and reports it. *)
Theorem wizard_applies_default st a0 a1 a2 a3 rest :
  ConfigParser.sections (config st) = [] ->
  answers st = a0 :: a1 :: a2 :: a3 :: rest ->
  a_code a1 = OK ->
  a_code a2 = OK ->
  percent_free (a_text a1) = true ->
  percent_free (a_text a2) = true ->
  open_error st (config_path st) = None ->
  exists st',
    first_start st = Ret tt st'
    /\ ConfigParser.sections_ (config st') =
         [("general", [ ("server", a_text a1); ("user", a_text a2);
                        ("fullscreen", "yes") ])]
    /\ log st' = log st ++ [ Msgbox WELCOME ""; Inputbox "Server" "";
                             Inputbox "Username" ""; Msgbox WRITTEN "" ]
    /\ files st' =
         <[resolve st (config_path st) :=
             ConfigParser.write (config st')]> (files st)
    /\ config_path st' = config_path st
    /\ answers st' = rest.
Proof.
  intros Hs Ha H1 H2 Hv1 Hv2 Ho.
  exists (after_wizard st (a_text a1) (a_text a2) rest).
  split; [now apply (first_start_confirmed st a0 a1 a2 a3 rest)|].
  repeat split.
Qed.

Lemma wizard_applies_default_witness :
  exists st',
    first_start (fresh_start wizard_answers) = Ret tt st'
    /\ ConfigParser.sections_ (config st') =
         [("general", [ ("server", "10.0.0.5"); ("user", "alice");
                        ("fullscreen", "yes") ])]
    /\ log st' = log (fresh_start wizard_answers)
                 ++ [ Msgbox WELCOME ""; Inputbox "Server" "";
                      Inputbox "Username" ""; Msgbox WRITTEN "" ]
    /\ files st' =
         <[resolve (fresh_start wizard_answers)
             (config_path (fresh_start wizard_answers)) :=
             ConfigParser.write (config st')]>
           (files (fresh_start wizard_answers))
    /\ config_path st' = config_path (fresh_start wizard_answers)
    /\ answers st' = [].
Proof.
  apply (wizard_applies_default (fresh_start wizard_answers) (press OK)
           (enter "10.0.0.5") (enter "alice") (press OK) []);
    vm_compute; reflexivity.
Defined.

(** ** The next start after the wizard *)

Lemma read_config_missing st :
  file_at st (first_candidate st) = None ->
  file_at st (second_candidate st) = None ->
  read_config st =
    Ret tt (with_config_path (first_candidate st)
              (with_config ConfigParser.empty st)).
Proof.
  intros H1 H2. unfold read_config, CANDIDATES, read_candidates. run_M.
  unfold isfile. simpl. unfold file_at, first_candidate, second_candidate in *.
  repeat (simpl; first [rewrite H1 | rewrite H2]). reflexivity.
Qed.

Lemma plain_wizard_config server user :
  plain_value server = true ->
  plain_value user = true ->
  plain (wizard_config [] server user) = true.
Proof.
  intros Hs Hu.
  assert (K1 : plain_key "server" = true) by (vm_compute; reflexivity).
  assert (K2 : plain_key "user" = true) by (vm_compute; reflexivity).
  assert (K3 : plain_item ("fullscreen", "yes") = true)
    by (vm_compute; reflexivity).
  assert (D : forall a b c : string,
             distinct_keys [("server", a); ("user", b); ("fullscreen", c)]
             = true) by reflexivity.
  unfold plain, wizard_config.
  cbn [ConfigParser.defaults ConfigParser.sections_ forallb].
  unfold plain_section at 1. cbn [fst snd].
  unfold plain_items at 2. cbn [forallb].
  unfold plain_item at 1 2. cbn [fst snd].
  rewrite K1, K2, K3, Hs, Hu, D. reflexivity.
Qed.

Lemma plain_value_one_line v : plain_value v = true -> one_line v = true.
Proof. unfold plain_value. now intros [_ H]%andb_true_iff. Qed.

(** The text of the file the wizard writes. *)
Lemma write_wizard_config server user :
  plain_value server = true ->
  plain_value user = true ->
  ConfigParser.write (wizard_config [] server user) =
    "[general]" +:+ Text.nl
    +:+ "server = " +:+ server +:+ Text.nl
    +:+ "user = " +:+ user +:+ Text.nl
    +:+ "fullscreen = yes" +:+ Text.nl +:+ Text.nl.
Proof.
  intros Hs%plain_value_one_line Hu%plain_value_one_line.
  unfold ConfigParser.write, wizard_config.
  cbn [ConfigParser.defaults ConfigParser.sections_].
  unfold ConfigParser.write_sections, ConfigParser.write_section,
    ConfigParser.write_items.
  rewrite (write_value_one_line server Hs), (write_value_one_line user Hu).
  change (ConfigParser.write_value "yes") with "yes".
  rewrite append_nil_l, !append_nil_r, !append_assoc. reflexivity.
Qed.

(** X6.  The wizard runs once.  After a first start without a
    configuration file in which both input boxes were confirmed with
    plain texts free of [%], the file at [~/.raptic] holds the section
    [general] with the three options, one per line; the next start,
    when it can open that file for reading, loads from it the very
    configuration the wizard stored and opens on the main menu. *)
Theorem wizard_runs_once st a0 a1 a2 a3 rest :
  file_at st (first_candidate st) = None ->
  file_at st (second_candidate st) = None ->
  open_error st (first_candidate st) = None ->
  unreadable st (first_candidate st) = false ->
  answers st = a0 :: a1 :: a2 :: a3 :: rest ->
  a_code a1 = OK ->
  a_code a2 = OK ->
  percent_free (a_text a1) = true ->
  percent_free (a_text a2) = true ->
  plain_value (a_text a1) = true ->
  plain_value (a_text a2) = true ->
  exists st0 st1 st2,
    read_config st = Ret tt st0
    /\ first_start st0 = Ret tt st1
    /\ file_at st1 (first_candidate st) =
         Some ("[general]" +:+ Text.nl
               +:+ "server = " +:+ a_text a1 +:+ Text.nl
               +:+ "user = " +:+ a_text a2 +:+ Text.nl
               +:+ "fullscreen = yes" +:+ Text.nl +:+ Text.nl)
    /\ read_config st1 = Ret tt st2
    /\ config st2 = config st1
    /\ config_path st2 = first_candidate st
    /\ first_screen st2 (run st2) = Some (Menu WHAT_TO_DO MAIN_CHOICES).
Proof.
  intros F1 F2 Ho Hr Ha H1 H2 Hv1 Hv2 Hp1 Hp2.
  pose (st0 := with_config_path (first_candidate st)
                 (with_config ConfigParser.empty st)).
  pose (st1 := after_wizard st0 (a_text a1) (a_text a2) rest).
  pose (c := wizard_config [] (a_text a1) (a_text a2)).
  assert (R0 : read_config st = Ret tt st0) by now apply read_config_missing.
  assert (R1 : first_start st0 = Ret tt st1)
    by now apply (first_start_confirmed st0 a0 a1 a2 a3 rest).
  assert (Hf : file_at st1 (first_candidate st1) =
               Some (ConfigParser.write c)) by apply lookup_insert_eq.
  assert (R2 : read_config st1 =
               Ret tt (with_config_path (first_candidate st1)
                         (with_config c (with_config_path "" st1)))).
  { rewrite (read_config_first st1 _ Hf Hr).
    now rewrite (read_write c (plain_wizard_config _ _ Hp1 Hp2)). }
  eexists st0, st1, _. split; [exact R0|]. split; [exact R1|].
  split; [rewrite <- (write_wizard_config _ _ Hp1 Hp2); exact Hf|].
  split; [exact R2|]. split; [reflexivity|]. split; [reflexivity|].
  rewrite run_main_menu by discriminate.
  apply starts_with_menu_loop.
Qed.

Lemma wizard_runs_once_witness :
  exists st0 st1 st2,
    read_config (world ∅ wizard_answers) = Ret tt st0
    /\ first_start st0 = Ret tt st1
    /\ file_at st1 (first_candidate (world ∅ wizard_answers)) =
         Some ("[general]" +:+ Text.nl
               +:+ "server = " +:+ a_text (enter "10.0.0.5") +:+ Text.nl
               +:+ "user = " +:+ a_text (enter "alice") +:+ Text.nl
               +:+ "fullscreen = yes" +:+ Text.nl +:+ Text.nl)
    /\ read_config st1 = Ret tt st2
    /\ config st2 = config st1
    /\ config_path st2 = first_candidate (world ∅ wizard_answers)
    /\ first_screen st2 (run st2) = Some (Menu WHAT_TO_DO MAIN_CHOICES).
Proof.
  apply (wizard_runs_once (world ∅ wizard_answers) (press OK)
           (enter "10.0.0.5") (enter "alice") (press OK) []);
    vm_compute; reflexivity.
Defined.

(** ** A percent sign in a value *)

Lemma drop_escaped_cons c r :
  Ascii.eqb c ConfigParser.PERCENT = false ->
  ConfigParser.drop_escaped (String c r) =
    String c (ConfigParser.drop_escaped r).
Proof. intros H. simpl. rewrite H. now destruct r. Qed.

Lemma stray_percent_left v :
  stray_percent v = true ->
  ConfigParser.percent_left None (ConfigParser.drop_escaped v) = true.
Proof.
  induction v as [|c r IH]; [discriminate|].
  simpl stray_percent.
  destruct (Ascii.eqb c ConfigParser.PERCENT) eqn:Hc.
  - apply Ascii.eqb_eq in Hc. subst c.
    destruct r as [|c' r']; [reflexivity|].
    intros [H1 H2]%negb_true_iff%orb_false_iff.
    change (ConfigParser.drop_escaped (String ConfigParser.PERCENT (String c' r')))
      with (if Ascii.eqb ConfigParser.PERCENT ConfigParser.PERCENT
               && Ascii.eqb c' ConfigParser.PERCENT
            then ConfigParser.drop_escaped r'
            else String ConfigParser.PERCENT
                   (ConfigParser.drop_escaped (String c' r'))).
    rewrite H1, andb_false_r, (drop_escaped_cons c' r' H1).
    simpl. now rewrite H2.
  - intros H. rewrite (drop_escaped_cons c r Hc). simpl. rewrite Hc.
    now apply IH.
Qed.

Lemma stray_percent_not_empty v :
  stray_percent v = true -> Text.is_empty v = false.
Proof. now destruct v. Qed.

(** Storing such a text raises [ValueError], whatever the section
    holds. *)
Lemma section_set_stray c k v :
  ConfigParser.has_section c "general" = true ->
  stray_percent v = true ->
  ConfigParser.section_set c "general" k v = Err ValueError.
Proof.
  intros Hs Hv.
  unfold ConfigParser.section_set, ConfigParser.getitem. rewrite Hs. simpl.
  unfold ConfigParser.set, ConfigParser.before_set.
  now rewrite (stray_percent_not_empty v Hv), (stray_percent_left v Hv).
Qed.

Lemma has_section_setitem_empty p :
  ConfigParser.has_section (ConfigParser.setitem_empty p "general") "general"
  = true.
Proof.
  rewrite (setitem_empty_section p "general" eq_refl).
  unfold ConfigParser.has_section, dict_mem. simpl.
  now rewrite dict_get_set_eq.
Qed.

Lemma edit_choices_inv c choices :
  edit_choices c (map snd configuration_options) = Ok choices ->
  exists s u f,
    ConfigParser.section_get c "general" "server" = Ok s
    /\ ConfigParser.section_get c "general" "user" = Ok u
    /\ ConfigParser.section_get c "general" "fullscreen" = Ok f
    /\ choices = [("Server", s); ("Username", u); ("Fullscreen", f)].
Proof.
  change (map snd configuration_options) with [Server; Username; Fullscreen].
  unfold edit_choices. simpl name. simpl label.
  destruct (ConfigParser.section_get c "general" "server") as [s|];
    [|discriminate].
  destruct (ConfigParser.section_get c "general" "user") as [u|];
    [|discriminate].
  destruct (ConfigParser.section_get c "general" "fullscreen") as [f|];
    [|discriminate].
  simpl. intros [= <-]. now exists s, u, f.
Qed.

Lemma first_start_option_stray option st a rest :
  required option = true ->
  ConfigParser.has_section (config st) "general" = true ->
  answers st = a :: rest ->
  a_code a = OK ->
  stray_percent (a_text a) = true ->
  first_start_option option st =
    Raised ValueError
      (with_answers rest
         (with_log (log st ++ [Inputbox (label option) ""]) st)).
Proof.
  intros Hr Hs Ha Hc Hv. unfold first_start_option. rewrite Hr.
  rewrite ?bind_assoc.
  step (inputbox_answer (label option) "" st a rest Ha).
  rewrite Hc. simpl. unfold config_set. run_M.
  now rewrite (section_set_stray _ _ _ Hs Hv).
Qed.

Lemma change_option_stray config_tmp tag option init st a rest :
  dict_get tag configuration_options = Some option ->
  option_type option = str ->
  ConfigParser.section_get config_tmp "general" (name option) = Ok init ->
  ConfigParser.has_section config_tmp "general" = true ->
  answers st = a :: rest ->
  a_code a = OK ->
  stray_percent (a_text a) = true ->
  change_option config_tmp tag st =
    Raised ValueError
      (with_answers rest
         (with_log (log st ++ [Inputbox (label option) init]) st)).
Proof.
  intros Ht Hty Hi Hs Ha Hc Hv. unfold change_option. rewrite Ht, Hty, Hi.
  change (lift (Ok ?x)) with (mret x : M _).
  rewrite ?bind_assoc.
  unfold mbind at 1, M_bind at 1, mret at 1, M_ret at 1.
  step (inputbox_answer (label option) init st a rest Ha).
  rewrite Hc. simpl.
  now rewrite (section_set_stray _ _ _ Hs Hv).
Qed.

(** X7.  A text whose first [%] is followed neither by [%] nor by [(]
    cannot be stored: the parser rejects it with [ValueError], which
    nothing catches.  In the wizard the process ends right after the
    input box for the server, before anything is written; in the editor
    it ends after the input box of the option being changed. *)
Theorem percent_sign_is_fatal :
  (forall st a0 a1 rest,
     answers st = a0 :: a1 :: rest ->
     a_code a1 = OK ->
     stray_percent (a_text a1) = true ->
     exists st',
       first_start st = Raised ValueError st'
       /\ log st' = log st ++ [Msgbox WELCOME ""; Inputbox "Server" ""]
       /\ files st' = files st)
  /\ (forall st config_tmp config_changed choices a0 a1 rest,
        edit_choices config_tmp (map snd configuration_options) = Ok choices ->
        answers st = a0 :: a1 :: rest ->
        a_code a0 = OK ->
        a_pick a0 < 2 ->
        a_code a1 = OK ->
        stray_percent (a_text a1) = true ->
        exists st',
          config_edit_turn config_tmp config_changed st
            = Raised ValueError st'
          /\ config st' = config st
          /\ files st' = files st).
Proof.
  split.
  - intros st a0 a1 rest Ha Hc Hv.
    eexists. split.
    + unfold first_start.
      step (msgbox_answer WELCOME "" st a0 _ Ha).
      unfold mbind at 1, M_bind at 1, modify at 1.
      change (map snd configuration_options)
        with [Server; Username; Fullscreen].
      unfold for_each. rewrite ?bind_assoc.
      erewrite (bind_Raised (first_start_option Server));
        [reflexivity|].
      apply (first_start_option_stray Server _ a1 rest);
        try reflexivity; try assumption.
      apply has_section_setitem_empty.
    + simpl. rewrite <- app_assoc. split; reflexivity.
  - intros st config_tmp config_changed choices a0 a1 rest Hch Ha H0 Hp H1 Hv.
    destruct (edit_choices_inv _ _ Hch) as (s & u & f & Hs & Hu & Hf & ->).
    assert (Hsec : ConfigParser.has_section config_tmp "general" = true).
    { unfold ConfigParser.section_get, ConfigParser.getitem in Hs.
      simpl in Hs.
      destruct (ConfigParser.has_section config_tmp "general");
        [reflexivity|discriminate]. }
    assert (Hturn : forall tag option init,
              Dialog.selected ["Server"; "Username"; "Fullscreen"] "Server"
                (a_pick a0) = tag ->
              dict_get tag configuration_options = Some option ->
              option_type option = str ->
              ConfigParser.section_get config_tmp "general" (name option)
                = Ok init ->
              config_edit_turn config_tmp config_changed st =
                Raised ValueError
                  (with_answers rest
                     (with_log
                        ((log st ++ [Menu WHAT_SETTING
                                       [ ("Server", s); ("Username", u);
                                         ("Fullscreen", f) ]])
                         ++ [Inputbox (label option) init]) st))).
    { intros tag option init Htag Ho Hty Hi.
      unfold config_edit_turn. rewrite Hch.
      change (lift (Ok ?x)) with (mret x : M _).
      unfold mbind at 1, M_bind at 1, mret at 1, M_ret at 1.
      step (edit_menu_answer [("Server", s); ("Username", u);
                              ("Fullscreen", f)] st a0 (a1 :: rest) Ha).
      rewrite H0. cbv iota beta. simpl map. simpl hd. rewrite Htag.
      unfold mbind at 1, M_bind at 1.
      erewrite (change_option_stray config_tmp tag option init _ a1 rest
                  Ho Hty Hi Hsec); [reflexivity|reflexivity|exact H1|exact Hv]. }
    destruct (a_pick a0) as [|[|n]]; [| |lia].
    + erewrite (Hturn "Server" Server s); try reflexivity; [|exact Hs].
      eexists. split; [reflexivity|]. split; reflexivity.
    + erewrite (Hturn "Username" Username u); try reflexivity; [|exact Hu].
      eexists. split; [reflexivity|]. split; reflexivity.
Qed.

Lemma percent_sign_is_fatal_witness :
  (exists st',
     first_start (fresh_start [press OK; enter "50%"]) = Raised ValueError st'
     /\ log st' = log (fresh_start [press OK; enter "50%"])
                  ++ [Msgbox WELCOME ""; Inputbox "Server" ""]
     /\ files st' = files (fresh_start [press OK; enter "50%"]))
  /\ (exists st',
        config_edit_turn (alice_config "yes") false
          (alice_start "yes" [choose OK 1; enter "100% alice"])
          = Raised ValueError st'
        /\ config st'
           = config (alice_start "yes" [choose OK 1; enter "100% alice"])
        /\ files st'
           = files (alice_start "yes" [choose OK 1; enter "100% alice"])).
Proof.
  split.
  - apply (proj1 percent_sign_is_fatal (fresh_start [press OK; enter "50%"])
             (press OK) (enter "50%") []); reflexivity.
  - apply (proj2 percent_sign_is_fatal
             (alice_start "yes" [choose OK 1; enter "100% alice"])
             (alice_config "yes") false
             (choices_of "10.0.0.5" "alice" "yes")
             (choose OK 1) (enter "100% alice") []);
      try (vm_compute; reflexivity).
Defined.

(** ** A save target whose directory is missing *)

Lemma bind_Exited {A B : Type} (m : M A) (f : A -> M B) st c st' :
  m st = Exited c st' -> (m ≫= f) st = Exited c st'.
Proof. intros H. unfold mbind, M_bind. now rewrite H. Qed.

(** X8.  When [open] raises [FileNotFoundError] (the directory of the
    save target does not exist), the wizard, after both input boxes were
    confirmed, shows that the path is not writeable, clears the screen
    and ends the process with exit code 1; no file is created. *)
Theorem wizard_missing_directory st a0 a1 a2 a3 rest :
  ConfigParser.sections (config st) = [] ->
  answers st = a0 :: a1 :: a2 :: a3 :: rest ->
  a_code a1 = OK ->
  a_code a2 = OK ->
  percent_free (a_text a1) = true ->
  percent_free (a_text a2) = true ->
  open_error st (config_path st) = Some FileNotFoundError ->
  exists st',
    run st = Exited 1 st'
    /\ log st' = log st ++ [ Msgbox WELCOME ""; Inputbox "Server" "";
                             Inputbox "Username" "";
                             Msgbox (NOT_WRITEABLE (config_path st)) "";
                             Clear ]
    /\ files st' = files st
    /\ answers st' = rest.
Proof.
  intros Hs Ha H1 H2 Hv1 Hv2 Ho.
  eexists. split.
  - rewrite (run_first_run st Hs).
    erewrite bind_Exited; [reflexivity|].
    rewrite (first_start_collects st a0 a1 a2 (a3 :: rest)) by assumption.
    now rewrite (first_start_save_not_found _ a3 rest).
  - simpl. rewrite <- !app_assoc. repeat split.
Qed.

Lemma wizard_missing_directory_witness :
  exists st',
    run (no_directory (fresh_start wizard_answers)) = Exited 1 st'
    /\ log st' =
         log (no_directory (fresh_start wizard_answers))
         ++ [ Msgbox WELCOME ""; Inputbox "Server" ""; Inputbox "Username" "";
              Msgbox (NOT_WRITEABLE
                        (config_path (no_directory (fresh_start wizard_answers))))
                "";
              Clear ]
    /\ files st' = files (no_directory (fresh_start wizard_answers))
    /\ answers st' = [].
Proof.
  apply (wizard_missing_directory (no_directory (fresh_start wizard_answers))
           (press OK) (enter "10.0.0.5") (enter "alice") (press OK) []);
    vm_compute; reflexivity.
Defined.

(** ** What a tidy configuration stores *)

Lemma dict_get_In {V : Type} k (d : list (string * V)) v :
  dict_get k d = Some v -> In (k, v) d.
Proof.
  induction d as [|[k' v'] d IH]; [discriminate|]. simpl.
  destruct (String.eqb k k') eqn:E.
  - apply String.eqb_eq in E. intros [= <-]. left. now subst.
  - intros H. right. now apply IH.
Qed.

Lemma stored_inv c k v :
  stored c k = Some v ->
  exists d, dict_get "general" (ConfigParser.sections_ c) = Some d
            /\ dict_get k d = Some v.
Proof.
  unfold stored.
  destruct (dict_get "general" (ConfigParser.sections_ c)) as [d|];
    [|discriminate].
  intros H. now exists d.
Qed.

Lemma tidy_defaults c : tidy c = true -> ConfigParser.defaults c = [].
Proof.
  unfold tidy. intros [[H _]%andb_true_iff _]%andb_true_iff.
  now destruct (ConfigParser.defaults c).
Qed.

Lemma tidy_section_of c sect d :
  tidy c = true ->
  dict_get sect (ConfigParser.sections_ c) = Some d ->
  tidy_section (sect, d) = true.
Proof.
  unfold tidy. intros [[_ H]%andb_true_iff _]%andb_true_iff Hd.
  rewrite forallb_forall in H. now apply H, dict_get_In.
Qed.

Lemma tidy_item_of sect d k v :
  tidy_section (sect, d) = true ->
  dict_get k d = Some v ->
  Text.lower k = k /\ percent_free v = true.
Proof.
  unfold tidy_section, tidy_items. simpl.
  intros [_ [H _]%andb_true_iff]%andb_true_iff Hk.
  rewrite forallb_forall in H. apply dict_get_In, H in Hk.
  unfold tidy_item in Hk. simpl in Hk.
  apply andb_true_iff in Hk as [Hl Hv]. now apply String.eqb_eq in Hl.
Qed.

Lemma get_stored c k v :
  tidy c = true -> stored c k = Some v ->
  ConfigParser.get c "general" k = Ok v.
Proof.
  intros Ht (d & Hd & Hk)%stored_inv.
  destruct (tidy_item_of _ _ _ _ (tidy_section_of _ _ _ Ht Hd) Hk) as [Hl Hv].
  now apply (get_tidy c "general" d k v (tidy_defaults c Ht)).
Qed.

Lemma section_get_stored c k v :
  tidy c = true -> stored c k = Some v ->
  ConfigParser.section_get c "general" k = Ok v.
Proof.
  intros Ht (d & Hd & Hk)%stored_inv.
  destruct (tidy_item_of _ _ _ _ (tidy_section_of _ _ _ Ht Hd) Hk) as [Hl Hv].
  unfold ConfigParser.section_get, ConfigParser.getitem,
    ConfigParser.has_section.
  rewrite (dict_get_mem _ _ _ Hd). simpl.
  now apply (proxy_getitem_tidy c "general" d k v (tidy_defaults c Ht)).
Qed.

Lemma edit_choices_stored c s u f :
  tidy c = true -> complete c s u f ->
  edit_choices c (map snd configuration_options) = Ok (choices_of s u f).
Proof.
  intros Ht (Hs & Hu & Hf).
  change (map snd configuration_options) with [Server; Username; Fullscreen].
  unfold edit_choices. simpl name. simpl label.
  rewrite (section_get_stored c _ _ Ht Hs), (section_get_stored c _ _ Ht Hu),
    (section_get_stored c _ _ Ht Hf).
  reflexivity.
Qed.

(** ** Opening the editor *)

Lemma config_edit_tidy st :
  tidy (config st) = true ->
  config_edit st =
    config_edit_loop (S (length (answers st))) (config st) false st.
Proof.
  intros Ht. unfold config_edit.
  unfold mbind at 1, M_bind at 1, get_state at 1.
  rewrite (update_tidy ConfigParser.empty (config st) Ht) by now left.
  reflexivity.
Qed.

Lemma config_edit_turn_menu config_tmp config_changed choices st a rest :
  edit_choices config_tmp (map snd configuration_options) = Ok choices ->
  answers st = a :: rest ->
  config_edit_turn config_tmp config_changed st =
    (let tag := Dialog.selected (map fst choices) (hd "" (map fst choices))
                  (a_pick a) in
     match a_code a with
     | CANCEL =>
         if config_changed then
           code_exit ← Dialog.yesno REALLY_BACK;
           if bool_decide (code_exit = OK) then mret Return
           else mret (Again config_tmp config_changed)
         else mret Return
     | OK =>
         '(c, changed) ← change_option config_tmp tag;
         mret (Again c (changed || config_changed))
     | EXTRA =>
         _ ← save_edit config_tmp;
         mret Return
     | _ => mret (Again config_tmp config_changed)
     end)
      (with_answers rest
         (with_log (log st ++ [Menu WHAT_SETTING choices]) st)).
Proof.
  intros Hc Ha. unfold config_edit_turn. rewrite Hc.
  change (lift (Ok choices)) with (mret choices : M _).
  unfold mbind at 1, M_bind at 1, mret at 1, M_ret at 1.
  step (edit_menu_answer choices st a rest Ha). reflexivity.
Qed.

Lemma first_screen_edit_loop n config_tmp config_changed choices st :
  edit_choices config_tmp (map snd configuration_options) = Ok choices ->
  first_screen st (config_edit_loop (S n) config_tmp config_changed st)
  = Some (Menu WHAT_SETTING choices).
Proof.
  intros Hc.
  change (config_edit_loop (S n) config_tmp config_changed)
    with (turn ← config_edit_turn config_tmp config_changed;
          match turn with
          | Return => mret tt
          | Again c changed => config_edit_loop n c changed
          end).
  revert st. apply starts_with_bind.
  - unfold config_edit_turn. rewrite Hc.
    change (lift (Ok choices)) with (mret choices : M _).
    intros st. unfold mbind at 1, M_bind at 1, mret at 1, M_ret at 1.
    revert st.
    pose proof extends_yesno. pose proof extends_change_option.
    pose proof extends_save_edit.
    apply starts_with_bind; [|intros; extends_auto; auto].
    unfold Dialog.menu.
    apply starts_with_bind; [apply starts_with_show|intros; extends_auto].
  - intros [|c ch]; [apply extends_ret|apply extends_config_edit_loop].
Qed.

(** X9.  The editor opens on the configuration as it is.  For a
    configuration without defaults whose values hold no [%], the scratch
    copy the editor builds is equal to the configuration, nothing counts
    as changed yet, and the first screen is the edit menu listing the
    three labels with the stored values. *)
Theorem editor_opens_on_copy st s u f :
  tidy (config st) = true ->
  complete (config st) s u f ->
  config_edit st =
    config_edit_loop (S (length (answers st))) (config st) false st
  /\ first_screen st (config_edit st)
     = Some (Menu WHAT_SETTING
               [("Server", s); ("Username", u); ("Fullscreen", f)]).
Proof.
  intros Ht Hc. split; [now apply config_edit_tidy|].
  rewrite (config_edit_tidy st Ht).
  apply first_screen_edit_loop. now apply edit_choices_stored.
Qed.

Lemma editor_opens_on_copy_witness :
  config_edit (alice_start "yes" []) =
    config_edit_loop (S (length (answers (alice_start "yes" []))))
      (config (alice_start "yes" [])) false (alice_start "yes" [])
  /\ first_screen (alice_start "yes" []) (config_edit (alice_start "yes" []))
     = Some (Menu WHAT_SETTING
               [("Server", "10.0.0.5"); ("Username", "alice");
                ("Fullscreen", "yes")]).
Proof.
  apply (editor_opens_on_copy (alice_start "yes" []) "10.0.0.5" "alice" "yes").
  - vm_compute; reflexivity.
  - split; [|split]; reflexivity.
Defined.

(** ** Saving from the editor *)

Lemma save_edit_ok st config_tmp a rest :
  tidy config_tmp = true ->
  ConfigParser.sections (config st) = ConfigParser.sections config_tmp ->
  open_error st (config_path st) = None ->
  answers st = a :: rest ->
  save_edit config_tmp st =
    Ret tt
      (with_answers rest
         (with_log (log st ++ [Msgbox SAVED "RAPTIC"])
            (with_files
               (<[resolve st (config_path st) :=
                    ConfigParser.write config_tmp]> (files st))
               (with_config config_tmp st)))).
Proof.
  intros Ht Hs Ho Ha. unfold save_edit.
  unfold mbind at 1, M_bind at 1, get_state at 1.
  assert (Hu : ConfigParser.update (config st) config_tmp = Ok config_tmp)
    by (apply update_tidy; [exact Ht|now right]).
  rewrite Hu, (update_leaves_Ok _ _ _ Hu).
  change (lift (Ok ?x)) with (mret x : M _).
  unfold mbind at 1, M_bind at 1, modify at 1.
  unfold mbind at 1, M_bind at 1, mret at 1, M_ret at 1.
  unfold try_except_FileNotFoundError.
  erewrite (bind_Ret config_save); [|apply config_save_ok; exact Ho].
  erewrite (bind_Ret (Dialog.msgbox _ _));
    [|apply (msgbox_answer _ _ _ a rest); exact Ha].
  reflexivity.
Qed.

(** X10.  [SAVE] commits the scratch copy as it is.  When the scratch
    copy is tidy and has the sections of the configuration, pressing
    SAVE makes it the configuration, writes it to the save target,
    reports it and leaves the editor. *)
Theorem save_commits_scratch st config_tmp config_changed choices a a' rest :
  tidy config_tmp = true ->
  ConfigParser.sections (config st) = ConfigParser.sections config_tmp ->
  edit_choices config_tmp (map snd configuration_options) = Ok choices ->
  open_error st (config_path st) = None ->
  answers st = a :: a' :: rest ->
  a_code a = EXTRA ->
  exists st',
    config_edit_turn config_tmp config_changed st = Ret Return st'
    /\ config st' = config_tmp
    /\ files st' =
         <[resolve st (config_path st) :=
             ConfigParser.write config_tmp]> (files st)
    /\ log st' = log st ++ [Menu WHAT_SETTING choices; Msgbox SAVED "RAPTIC"]
    /\ answers st' = rest.
Proof.
  intros Ht Hs Hc Ho Ha He.
  exists (after_save st config_tmp choices rest). split.
  - rewrite (config_edit_turn_menu _ _ choices st a (a' :: rest) Hc Ha).
    rewrite He. cbv zeta iota.
    erewrite (bind_Ret (save_edit config_tmp));
      [|apply (save_edit_ok _ _ a' rest); try assumption; reflexivity].
    unfold after_save. simpl. rewrite <- !app_assoc. reflexivity.
  - repeat split.
Qed.

Lemma save_commits_scratch_witness :
  exists st',
    config_edit_turn (alice_config "no") true
      (alice_start "yes" [choose EXTRA 0; press OK]) = Ret Return st'
    /\ config st' = alice_config "no"
    /\ files st' =
         <[resolve (alice_start "yes" [choose EXTRA 0; press OK])
             (config_path (alice_start "yes" [choose EXTRA 0; press OK])) :=
             ConfigParser.write (alice_config "no")]>
           (files (alice_start "yes" [choose EXTRA 0; press OK]))
    /\ log st' = log (alice_start "yes" [choose EXTRA 0; press OK])
                 ++ [ Menu WHAT_SETTING (choices_of "10.0.0.5" "alice" "no");
                      Msgbox SAVED "RAPTIC" ]
    /\ answers st' = [].
Proof.
  apply (save_commits_scratch (alice_start "yes" [choose EXTRA 0; press OK])
           (alice_config "no") true (choices_of "10.0.0.5" "alice" "no")
           (choose EXTRA 0) (press OK) []);
    vm_compute; reflexivity.
Defined.

(** ** Changing a value and saving *)

Lemma forallb_dict_set {V : Type} (P : string * V -> bool) k v d :
  forallb P d = true -> P (k, v) = true -> forallb P (dict_set k v d) = true.
Proof.
  intros Hd Hv. induction d as [|[k' v'] d IH]; simpl.
  - now rewrite Hv.
  - simpl in Hd. apply andb_true_iff in Hd as [H1 H2].
    destruct (String.eqb k k'); simpl.
    + now rewrite Hv, H2.
    + now rewrite H1, (IH H2).
Qed.

Lemma dict_set_keys {V : Type} k (v : V) d :
  dict_mem k d = true -> map fst (dict_set k v d) = map fst d.
Proof.
  induction d as [|[k' v'] d IH]; [discriminate|].
  rewrite dict_mem_cons. simpl.
  destruct (String.eqb k k') eqn:E; simpl.
  - apply String.eqb_eq in E. now subst.
  - intros H. now rewrite (IH H).
Qed.

Lemma dict_mem_keys {V W : Type} k (d : list (string * V))
    (d' : list (string * W)) :
  map fst d = map fst d' -> dict_mem k d = dict_mem k d'.
Proof.
  revert d'. induction d as [|[k1 v1] d IH]; intros [|[k2 v2] d'];
    try discriminate; [reflexivity|].
  simpl. intros [= -> H]. now rewrite !dict_mem_cons, (IH d' H).
Qed.

Lemma distinct_keys_keys {V W : Type} (d : list (string * V))
    (d' : list (string * W)) :
  map fst d = map fst d' -> distinct_keys d = distinct_keys d'.
Proof.
  revert d'. induction d as [|[k1 v1] d IH]; intros [|[k2 v2] d'];
    try discriminate; [reflexivity|].
  simpl. intros [= -> H]. now rewrite (dict_mem_keys k2 d d' H), (IH d' H).
Qed.

(** Setting an option that a tidy configuration stores, to a text free
    of [%]: the configuration stays tidy and keeps its sections. *)
Lemma section_set_stored c key old v :
  tidy c = true ->
  stored c key = Some old ->
  percent_free v = true ->
  exists c',
    ConfigParser.section_set c "general" key v = Ok c'
    /\ tidy c' = true
    /\ ConfigParser.sections c' = ConfigParser.sections c
    /\ stored c' key = Some v
    /\ forall k, k <> key -> stored c' k = stored c k.
Proof.
  intros Ht Hk Hv.
  destruct (stored_inv _ _ _ Hk) as (d & Hd & Hkd).
  pose proof (tidy_section_of _ _ _ Ht Hd) as Hsec.
  destruct (tidy_item_of _ _ _ _ Hsec Hkd) as [Hl _].
  pose proof (tidy_defaults c Ht) as Hdef.
  destruct c as [dflt secs]. simpl in *. subst dflt.
  eexists. split; [now apply (section_set_ok [] secs d key v)|].
  assert (Hkeys : map fst (dict_set "general" (dict_set key v d) secs)
                  = map fst secs)
    by (apply dict_set_keys; exact (dict_get_mem _ _ _ Hd)).
  assert (Hkeys' : map fst (dict_set key v d) = map fst d)
    by (apply dict_set_keys; exact (dict_get_mem _ _ _ Hkd)).
  unfold tidy in Ht. simpl in Ht.
  apply andb_true_iff in Ht as [Hall Hdist].
  split; [|split; [exact Hkeys|]].
  - unfold tidy. cbn [ConfigParser.defaults ConfigParser.sections_].
    apply andb_true_iff. split.
    + apply forallb_dict_set; [exact Hall|].
      unfold tidy_section in *. cbn [fst snd] in *.
      apply andb_true_iff in Hsec as [Hname Hitems].
      apply andb_true_iff. split; [exact Hname|].
      unfold tidy_items in *.
      apply andb_true_iff in Hitems as [Hi Hdi].
      apply andb_true_iff. split.
      * apply forallb_dict_set; [exact Hi|].
        unfold tidy_item. cbn [fst snd].
        apply andb_true_iff. split; [now apply String.eqb_eq|exact Hv].
      * now rewrite (distinct_keys_keys _ d Hkeys').
    + etransitivity; [apply (distinct_keys_keys _ secs Hkeys)|exact Hdist].
  - unfold stored. cbn [ConfigParser.sections_].
    rewrite dict_get_set_eq. split.
    + apply dict_get_set_eq.
    + intros k Hne. rewrite Hd. now apply dict_get_set_ne.
Qed.

(** The [CHANGE] branch for a text option whose input box is
    confirmed. *)
Lemma change_option_confirmed config_tmp tag option init c' st a rest :
  dict_get tag configuration_options = Some option ->
  option_type option = str ->
  ConfigParser.section_get config_tmp "general" (name option) = Ok init ->
  answers st = a :: rest ->
  a_code a = OK ->
  ConfigParser.section_set config_tmp "general" (name option) (a_text a)
    = Ok c' ->
  change_option config_tmp tag st =
    Ret (c', true)
      (with_answers rest
         (with_log (log st ++ [Inputbox (label option) init]) st)).
Proof.
  intros Ht Hty Hi Ha Hc Hset. unfold change_option. rewrite Ht, Hty, Hi.
  change (lift (Ok ?x)) with (mret x : M _).
  rewrite ?bind_assoc.
  unfold mbind at 1, M_bind at 1, mret at 1, M_ret at 1.
  step (inputbox_answer (label option) init st a rest Ha).
  rewrite Hc. simpl. now rewrite Hset.
Qed.

Lemma config_edit_loop_S n config_tmp config_changed :
  config_edit_loop (S n) config_tmp config_changed =
    (turn ← config_edit_turn config_tmp config_changed;
     match turn with
     | Return => mret tt
     | Again c changed => config_edit_loop n c changed
     end).
Proof. reflexivity. Qed.

(** One turn in which a text option is changed. *)
Lemma config_edit_turn_change config_tmp config_changed s u f st
    tag option init c' a0 a1 rest :
  edit_choices config_tmp (map snd configuration_options)
    = Ok (choices_of s u f) ->
  answers st = a0 :: a1 :: rest ->
  a_code a0 = OK ->
  Dialog.selected ["Server"; "Username"; "Fullscreen"] "Server" (a_pick a0)
    = tag ->
  dict_get tag configuration_options = Some option ->
  option_type option = str ->
  ConfigParser.section_get config_tmp "general" (name option) = Ok init ->
  a_code a1 = OK ->
  ConfigParser.section_set config_tmp "general" (name option) (a_text a1)
    = Ok c' ->
  config_edit_turn config_tmp config_changed st =
    Ret (Again c' true)
      (with_answers rest
         (with_log (log st ++ [ Menu WHAT_SETTING (choices_of s u f);
                                Inputbox (label option) init ]) st)).
Proof.
  intros Hch Ha H0 Htag Ho Hty Hi H1 Hset.
  rewrite (config_edit_turn_menu _ _ _ st a0 (a1 :: rest) Hch Ha).
  rewrite H0. cbv zeta iota. simpl map. simpl hd. rewrite Htag.
  erewrite (bind_Ret (change_option config_tmp tag));
    [|apply (change_option_confirmed config_tmp tag option init c' _ a1 rest);
      try assumption; reflexivity].
  simpl. rewrite <- !app_assoc. reflexivity.
Qed.

Lemma text_option_of pick key :
  nth_error ["server"; "user"] pick = Some key ->
  exists tag option,
    Dialog.selected ["Server"; "Username"; "Fullscreen"] "Server" pick = tag
    /\ dict_get tag configuration_options = Some option
    /\ option_type option = str
    /\ name option = key.
Proof.
  destruct pick as [|[|[|n]]]; simpl; intros [= <-].
  - now exists "Server", Server.
  - now exists "Username", Username.
Qed.

Lemma complete_stored c s u f key :
  complete c s u f ->
  In key ["server"; "user"; "fullscreen"] ->
  exists v, stored c key = Some v.
Proof.
  intros (Hs & Hu & Hf) [<-|[<-|[<-|[]]]]; eauto.
Qed.

(** X11.  Changing the server or the user name and saving.  From a tidy
    configuration that holds the three options, picking one of the two
    text options, confirming a text free of [%] and pressing SAVE ends
    the editor with that text stored for that option, every other
    option as it was, and the new configuration written to the save
    target. *)
Theorem change_then_save_commits st s u f key a0 a1 a2 a3 rest :
  tidy (config st) = true ->
  complete (config st) s u f ->
  open_error st (config_path st) = None ->
  answers st = a0 :: a1 :: a2 :: a3 :: rest ->
  a_code a0 = OK ->
  nth_error ["server"; "user"] (a_pick a0) = Some key ->
  a_code a1 = OK ->
  percent_free (a_text a1) = true ->
  a_code a2 = EXTRA ->
  exists st',
    config_edit st = Ret tt st'
    /\ stored (config st') key = Some (a_text a1)
    /\ (forall k, k <> key -> stored (config st') k = stored (config st) k)
    /\ files st' =
         <[resolve st (config_path st) :=
             ConfigParser.write (config st')]> (files st)
    /\ answers st' = rest.
Proof.
  intros Ht Hc Ho Ha H0 Hkey H1 Hv H2.
  destruct (text_option_of _ _ Hkey) as (tag & option & Htag & Hopt & Hty & Hn).
  assert (Hin2 : key = "server" \/ key = "user").
  { apply nth_error_In in Hkey. destruct Hkey as [<-|[<-|[]]]; auto. }
  assert (Hin : In key ["server"; "user"; "fullscreen"]).
  { destruct Hin2 as [->| ->]; simpl; auto. }
  destruct (complete_stored _ _ _ _ _ Hc Hin) as [old Hold].
  destruct (section_set_stored _ _ _ _ Ht Hold Hv)
    as (c' & Hset & Ht' & Hsec' & Hst & Hother).
  assert (Hc' : exists s' u' f', complete c' s' u' f').
  { destruct Hc as (Hs & Hu & Hf).
    destruct Hin2 as [E|E]; rewrite E in Hst, Hother.
    - exists (a_text a1), u, f. split; [exact Hst|].
      split; (rewrite Hother by discriminate; assumption).
    - exists s, (a_text a1), f. split; [|split; [exact Hst|]];
        (rewrite Hother by discriminate; assumption). }
  destruct Hc' as (s' & u' & f' & Hc').
  rewrite (config_edit_tidy st Ht), Ha.
  change (length (a0 :: a1 :: a2 :: a3 :: rest))
    with (S (S (S (S (length rest))))).
  rewrite config_edit_loop_S.
  erewrite (bind_Ret (config_edit_turn _ _));
    [|apply (config_edit_turn_change _ _ s u f st tag option old c' a0 a1
               (a2 :: a3 :: rest));
      try assumption;
      [now apply edit_choices_stored
      |rewrite Hn; now apply section_get_stored
      |now rewrite Hn]].
  cbv iota beta. rewrite config_edit_loop_S.
  erewrite (bind_Ret (config_edit_turn _ _)).
  2:{ rewrite (config_edit_turn_menu _ _ (choices_of s' u' f') _ a2
                 (a3 :: rest)); [|now apply edit_choices_stored|reflexivity].
      rewrite H2. cbv zeta iota.
      erewrite (bind_Ret (save_edit c'));
        [reflexivity
        |apply (save_edit_ok _ _ a3 rest);
         [exact Ht'|now rewrite Hsec'|exact Ho|reflexivity]]. }
  eexists. split; [reflexivity|]. simpl. repeat split; assumption.
Qed.

Lemma change_then_save_commits_witness :
  exists st',
    config_edit change_then_save = Ret tt st'
    /\ stored (config st') "server" = Some "192.168.1.1"
    /\ (forall k, k <> "server" ->
          stored (config st') k = stored (config change_then_save) k)
    /\ files st' =
         <[resolve change_then_save (config_path change_then_save) :=
             ConfigParser.write (config st')]>
           (files change_then_save)
    /\ answers st' = [].
Proof.
  apply (change_then_save_commits change_then_save "10.0.0.5" "alice" "yes"
           "server" (choose OK 0) (enter "192.168.1.1") (choose EXTRA 0)
           (press OK) []);
    try (vm_compute; reflexivity).
  split; [|split]; reflexivity.
Defined.

(** X12.  A failed save still changes the running configuration.  When
    [open] raises [FileNotFoundError], SAVE shows that the path is not
    writeable and leaves the editor without touching any file, but the
    scratch copy has already become the configuration of the process. *)
Theorem failed_save_keeps_changes st config_tmp config_changed choices
    a a' rest :
  tidy config_tmp = true ->
  ConfigParser.sections (config st) = ConfigParser.sections config_tmp ->
  edit_choices config_tmp (map snd configuration_options) = Ok choices ->
  open_error st (config_path st) = Some FileNotFoundError ->
  answers st = a :: a' :: rest ->
  a_code a = EXTRA ->
  exists st',
    config_edit_turn config_tmp config_changed st = Ret Return st'
    /\ config st' = config_tmp
    /\ files st' = files st
    /\ log st' = log st ++ [ Menu WHAT_SETTING choices;
                             Msgbox (NOT_WRITEABLE (config_path st)) "ERROR" ]
    /\ answers st' = rest.
Proof.
  intros Ht Hs Hc Ho Ha He.
  eexists. split.
  - rewrite (config_edit_turn_menu _ _ choices st a (a' :: rest) Hc Ha).
    rewrite He. cbv zeta iota.
    erewrite (bind_Ret (save_edit config_tmp));
      [reflexivity
      |apply (save_edit_not_found _ _ config_tmp a' rest);
       [apply (update_tidy _ _ Ht); now right|exact Ho|reflexivity]].
  - simpl. rewrite <- !app_assoc. repeat split.
Qed.

Lemma failed_save_keeps_changes_witness :
  exists st',
    config_edit_turn (alice_config "no") true
      (no_directory (alice_start "yes" [choose EXTRA 0; press OK]))
      = Ret Return st'
    /\ config st' = alice_config "no"
    /\ files st' =
         files (no_directory (alice_start "yes" [choose EXTRA 0; press OK]))
    /\ log st' =
         log (no_directory (alice_start "yes" [choose EXTRA 0; press OK]))
         ++ [ Menu WHAT_SETTING (choices_of "10.0.0.5" "alice" "no");
              Msgbox
                (NOT_WRITEABLE
                   (config_path
                      (no_directory
                         (alice_start "yes" [choose EXTRA 0; press OK]))))
                "ERROR" ]
    /\ answers st' = [].
Proof.
  apply (failed_save_keeps_changes
           (no_directory (alice_start "yes" [choose EXTRA 0; press OK]))
           (alice_config "no") true (choices_of "10.0.0.5" "alice" "no")
           (choose EXTRA 0) (press OK) []);
    vm_compute; reflexivity.
Defined.

(** An update that raises half way.  The editor takes a user name
    with an escaped percent sign ([100%%] reads back as [100%]); SAVE
    then copies the options one by one and raises [ValueError] at the
    user name: the section [general] of the running configuration is
    left with the server alone, and no file is written. *)
Lemma failed_update_leaves_part :
  exists st',
    config_edit (alice_start "yes" escaped_then_save) = Raised ValueError st'
    /\ config st' = ConfigParser.mk [] [("general", [("server", "10.0.0.5")])]
    /\ files st' = files (alice_start "yes" escaped_then_save).
Proof.
  eexists. split; [vm_compute; reflexivity|].
  split; vm_compute; reflexivity.
Qed.

(** ** A configuration that lacks an option *)

Lemma section_get_cases c k :
  tidy c = true ->
  Text.lower k = k ->
  (exists v, stored c k = Some v
             /\ ConfigParser.section_get c "general" k = Ok v)
  \/ (stored c k = None
      /\ exists k', ConfigParser.section_get c "general" k = Err (KeyError k')).
Proof.
  intros Ht Hl.
  destruct (stored c k) as [v|] eqn:Hk.
  - left. exists v. split; [reflexivity|now apply section_get_stored].
  - right. split; [reflexivity|].
    unfold stored in Hk.
    unfold ConfigParser.section_get, ConfigParser.getitem,
      ConfigParser.has_section, dict_mem.
    destruct (dict_get "general" (ConfigParser.sections_ c)) as [d|] eqn:Hd.
    + simpl. exists k.
      unfold ConfigParser.proxy_getitem, ConfigParser.has_option.
      simpl. rewrite Hd, (tidy_defaults c Ht).
      unfold ConfigParser.optionxform, dict_mem. rewrite Hl, Hk. reflexivity.
    + simpl. now exists "general".
Qed.

Lemma get_cases c k :
  tidy c = true ->
  Text.lower k = k ->
  (exists v, stored c k = Some v /\ ConfigParser.get c "general" k = Ok v)
  \/ (stored c k = None
      /\ exists e, ConfigParser.get c "general" k = Err e /\ not_there e).
Proof.
  intros Ht Hl.
  destruct (stored c k) as [v|] eqn:Hk.
  - left. exists v. split; [reflexivity|now apply get_stored].
  - right. split; [reflexivity|].
    unfold stored in Hk.
    unfold ConfigParser.get, ConfigParser.unify_values.
    destruct (dict_get "general" (ConfigParser.sections_ c)) as [d|] eqn:Hd.
    + simpl. unfold ConfigParser.chain_get, ConfigParser.optionxform. simpl.
      rewrite Hl, Hk, (tidy_defaults c Ht). simpl.
      eexists. split; [reflexivity|]. right. now exists k.
    + simpl. eexists. split; [reflexivity|]. now left.
Qed.

Lemma edit_choices_missing c key :
  tidy c = true ->
  In key ["server"; "user"; "fullscreen"] ->
  stored c key = None ->
  exists k, edit_choices c (map snd configuration_options)
            = Err (KeyError k).
Proof.
  intros Ht Hin Hk.
  change (map snd configuration_options) with [Server; Username; Fullscreen].
  unfold edit_choices. simpl name. simpl label.
  destruct (section_get_cases c "server" Ht eq_refl)
    as [(s & Hs & ->)|(Hs & k & ->)]; [|now exists k].
  destruct (section_get_cases c "user" Ht eq_refl)
    as [(u & Hu & ->)|(Hu & k & ->)]; [|now exists k].
  destruct (section_get_cases c "fullscreen" Ht eq_refl)
    as [(f & Hf & ->)|(Hf & k & ->)]; [|now exists k].
  destruct Hin as [<-|[<-|[<-|[]]]]; congruence.
Qed.

(** X13.  The editor needs all three options.  When a tidy
    configuration lacks the section [general] or one of [server],
    [user] and [fullscreen], "Change configuration" raises [KeyError]
    before any screen is shown: no default is applied. *)
Theorem editor_needs_all_options st key :
  tidy (config st) = true ->
  In key ["server"; "user"; "fullscreen"] ->
  stored (config st) key = None ->
  exists k, config_edit st = Raised (KeyError k) st.
Proof.
  intros Ht Hin Hk.
  destruct (edit_choices_missing _ _ Ht Hin Hk) as [k Hc].
  exists k. rewrite (config_edit_tidy st Ht), config_edit_loop_S.
  apply bind_Raised. unfold config_edit_turn. now rewrite Hc.
Qed.

Lemma editor_needs_all_options_witness :
  exists k,
    config_edit (with_config no_fullscreen (world ∅ [])) =
      Raised (KeyError k) (with_config no_fullscreen (world ∅ [])).
Proof.
  apply (editor_needs_all_options (with_config no_fullscreen (world ∅ []))
           "fullscreen").
  - vm_compute; reflexivity.
  - simpl. auto.
  - vm_compute; reflexivity.
Defined.

(** X14.  The launcher needs all three options.  With [rdesktop]
    found, when a tidy configuration lacks the section [general] or one
    of the three options, "Start ThinClient" raises [NoSectionError] or
    [NoOptionError]: nothing is launched and no default is applied. *)
Theorem launcher_needs_all_options st out key :
  which_rdesktop st = Some out ->
  tidy (config st) = true ->
  In key ["server"; "user"; "fullscreen"] ->
  stored (config st) key = None ->
  exists e, rdesktop_start st = Raised e st /\ not_there e.
Proof.
  intros Hw Ht Hin Hk.
  unfold rdesktop_start. unfold mbind at 1, M_bind at 1, get_state at 1.
  rewrite Hw. unfold mbind at 1, M_bind at 1, mret at 1, M_ret at 1.
  destruct (get_cases (config st) "user" Ht eq_refl)
    as [(u & Hu & ->)|(Hu & e & -> & He)]; [|now exists e].
  change (lift (Ok u)) with (mret u : M _).
  unfold mbind at 1, M_bind at 1, mret at 1, M_ret at 1.
  destruct (get_cases (config st) "server" Ht eq_refl)
    as [(s & Hs & ->)|(Hs & e & -> & He)]; [|now exists e].
  change (lift (Ok s)) with (mret s : M _).
  unfold mbind at 1, M_bind at 1, mret at 1, M_ret at 1.
  unfold ConfigParser.getboolean.
  destruct (get_cases (config st) "fullscreen" Ht eq_refl)
    as [(f & Hf & ->)|(Hf & e & -> & He)]; [|now exists e].
  destruct Hin as [<-|[<-|[<-|[]]]]; congruence.
Qed.

Lemma launcher_needs_all_options_witness :
  exists e,
    rdesktop_start (with_config no_fullscreen (world ∅ [])) =
      Raised e (with_config no_fullscreen (world ∅ []))
    /\ not_there e.
Proof.
  apply (launcher_needs_all_options (with_config no_fullscreen (world ∅ []))
           "/usr/bin/rdesktop" "fullscreen").
  - reflexivity.
  - vm_compute; reflexivity.
  - simpl. auto.
  - vm_compute; reflexivity.
Defined.

(** ** The value of fullscreen at launch *)

Lemma mem_string_In x l : ConfigParser.mem_string x l = true <-> In x l.
Proof.
  unfold ConfigParser.mem_string. rewrite existsb_exists. split.
  - intros (y & Hy & E). apply String.eqb_eq in E. now subst.
  - intros H. exists x. split; [exact H|apply String.eqb_refl].
Qed.

Lemma convert_to_boolean_cases v :
  (In (Text.lower v) ConfigParser.BOOLEAN_TRUE ->
     ConfigParser.convert_to_boolean v = Ok true)
  /\ (In (Text.lower v) ConfigParser.BOOLEAN_FALSE ->
        ConfigParser.convert_to_boolean v = Ok false)
  /\ (~ In (Text.lower v)
        (ConfigParser.BOOLEAN_TRUE ++ ConfigParser.BOOLEAN_FALSE) ->
        ConfigParser.convert_to_boolean v = Err ValueError).
Proof.
  unfold ConfigParser.convert_to_boolean. cbv zeta.
  split; [|split].
  - intros H. apply mem_string_In in H. now rewrite H.
  - intros H.
    assert (Hn : ConfigParser.mem_string (Text.lower v)
                   ConfigParser.BOOLEAN_TRUE = false).
    { destruct H as [<-|[<-|[<-|[<-|[]]]]]; reflexivity. }
    apply mem_string_In in H. now rewrite Hn, H.
  - intros H.
    destruct (ConfigParser.mem_string (Text.lower v)
                ConfigParser.BOOLEAN_TRUE) eqn:E1.
    { exfalso. apply H, in_or_app. left. now apply mem_string_In. }
    destruct (ConfigParser.mem_string (Text.lower v)
                ConfigParser.BOOLEAN_FALSE) eqn:E2.
    { exfalso. apply H, in_or_app. right. now apply mem_string_In. }
    reflexivity.
Qed.

Lemma rdesktop_start_complete st out s u f :
  which_rdesktop st = Some out ->
  tidy (config st) = true ->
  complete (config st) s u f ->
  rdesktop_start st =
    match ConfigParser.convert_to_boolean f with
    | Ok b =>
        Ret tt (with_log
                  (log st ++ [Call (rdesktop_command (Text.strip out) u s b)])
                  st)
    | Err e => Raised e st
    end.
Proof.
  intros Hw Ht (Hs & Hu & Hf).
  destruct (ConfigParser.convert_to_boolean f) as [b|e] eqn:E.
  - apply rdesktop_start_found; try assumption;
      try (now apply get_stored).
    unfold ConfigParser.getboolean.
    now rewrite (get_stored _ _ _ Ht Hf).
  - unfold rdesktop_start. unfold mbind at 1, M_bind at 1, get_state at 1.
    rewrite Hw. unfold mbind at 1, M_bind at 1, mret at 1, M_ret at 1.
    rewrite (get_stored _ _ _ Ht Hu), (get_stored _ _ _ Ht Hs).
    unfold ConfigParser.getboolean. rewrite (get_stored _ _ _ Ht Hf).
    simpl. now rewrite E.
Qed.

(** ** The command line of the launcher *)

Lemma prefix_app n b : String.prefix n (n +:+ b) = true.
Proof.
  induction n as [|c n IH]; simpl; [now destruct b|].
  destruct (Ascii.ascii_dec c c) as [_|Hn]; [exact IH|now elim Hn].
Qed.

Lemma occurs_unfold n s :
  occurs n s =
    String.prefix n s
    || match s with
       | EmptyString => false
       | String _ r => occurs n r
       end.
Proof. now destruct s. Qed.

Lemma occurs_prefix n s : String.prefix n s = true -> occurs n s = true.
Proof. intros H. now rewrite occurs_unfold, H. Qed.

Lemma occurs_app_r n a b : occurs n b = true -> occurs n (a +:+ b) = true.
Proof.
  intros H. induction a as [|c a IH]; [exact H|].
  rewrite append_cons, occurs_unfold, IH. apply orb_true_r.
Qed.

Lemma occurs_flag_cons c s :
  occurs FLAG (String c s) =
    Ascii.eqb c "-"%char && starts_with_f s || occurs FLAG s.
Proof.
  rewrite occurs_unfold. f_equal. unfold FLAG. rewrite prefix_cons.
  destruct (ascii_dec "-" c) as [<-|Hn].
  - destruct s as [|d s]; [reflexivity|]. rewrite prefix_cons.
    unfold starts_with_f.
    destruct (ascii_dec "f" d) as [<-|Hd]; [now destruct s|].
    symmetry. apply Ascii.eqb_neq. congruence.
  - replace (Ascii.eqb c "-") with false; [reflexivity|].
    symmetry. apply Ascii.eqb_neq. congruence.
Qed.

Lemma ends_with_dash_cons c d s :
  ends_with_dash (String c (String d s)) = ends_with_dash (String d s).
Proof. reflexivity. Qed.

(** The flag occurs in a concatenation when it occurs in a part or
    straddles the joint. *)
Lemma occurs_flag_app a b :
  occurs FLAG (a +:+ b) =
    occurs FLAG a || occurs FLAG b || ends_with_dash a && starts_with_f b.
Proof.
  induction a as [|c a IH].
  - rewrite append_nil_l. simpl. now rewrite orb_false_r.
  - rewrite append_cons, !occurs_flag_cons, IH.
    destruct a as [|d a].
    + rewrite append_nil_l. unfold ends_with_dash. simpl.
      destruct (Ascii.eqb c "-"), (starts_with_f b), (occurs FLAG b);
        reflexivity.
    + rewrite ends_with_dash_cons, append_cons.
      change (starts_with_f (String d (a +:+ b)))
        with (starts_with_f (String d a)).
      destruct (Ascii.eqb c "-"), (starts_with_f (String d a)),
        (occurs FLAG (String d a)), (occurs FLAG b),
        (ends_with_dash (String d a)), (starts_with_f b); reflexivity.
Qed.

Lemma occurs_flag_command rdesktop user server fullscreen :
  occurs FLAG rdesktop = false ->
  occurs FLAG user = false ->
  occurs FLAG server = false ->
  occurs FLAG (rdesktop_command rdesktop user server fullscreen) = fullscreen.
Proof.
  intros Hr Hu Hs. unfold rdesktop_command.
  rewrite (occurs_flag_app "xinit "), (occurs_flag_app rdesktop), Hr.
  rewrite (occurs_flag_app " -u "), (occurs_flag_app user), Hu.
  rewrite (occurs_flag_app " "), (occurs_flag_app server), Hs.
  rewrite (occurs_flag_app " ").
  change (occurs FLAG "xinit ") with false.
  change (occurs FLAG " -u ") with false.
  change (occurs FLAG " ") with false.
  change (ends_with_dash "xinit ") with false.
  change (ends_with_dash " -u ") with false.
  change (ends_with_dash " ") with false.
  change (starts_with_f (" -u " +:+ ?x)) with false.
  change (starts_with_f (" " +:+ ?x)) with false.
  rewrite !andb_false_r. simpl.
  now destruct fullscreen.
Qed.

Lemma occurs_user_server rdesktop user server fullscreen :
  occurs ("-u " +:+ user +:+ " " +:+ server)
    (rdesktop_command rdesktop user server fullscreen) = true.
Proof.
  unfold rdesktop_command.
  apply (occurs_app_r _ "xinit "), occurs_app_r.
  change (" -u " +:+ ?x) with (" " +:+ "-u " +:+ x).
  apply (occurs_app_r _ " "), occurs_prefix.
  set (flag := " " +:+ (if fullscreen then "-f" else "")).
  replace ("-u " +:+ user +:+ " " +:+ server +:+ flag)
    with (("-u " +:+ user +:+ " " +:+ server) +:+ flag)
    by now rewrite !append_assoc.
  apply prefix_app.
Qed.

(** C7, as stated, fails: with the server name [10.0.0.5 -f] and the
    option [fullscreen] off, the command holds the flag [-f]. *)
Lemma flag_without_fullscreen :
  ConfigParser.getboolean flag_in_server "general" "fullscreen" = Ok false
  /\ rdesktop_start (with_config flag_in_server (world ∅ [])) =
       Ret tt
         (with_log [Call "xinit /usr/bin/rdesktop -u alice 10.0.0.5 -f "]
            (with_config flag_in_server (world ∅ [])))
  /\ occurs FLAG "xinit /usr/bin/rdesktop -u alice 10.0.0.5 -f " = true.
Proof. split; [|split]; vm_compute; reflexivity. Qed.

(** C7, amended.  When [rdesktop] is found and the configuration is
    tidy (its values hold no [%]) and holds the three options, with a
    value of [fullscreen] that reads as a truth value, the command
    handed to the shell is [xinit <rdesktop> -u <user> <server> ]
    followed by [-f] when that truth value is true and by nothing when
    it is false; the child is started and control comes back.  The
    command holds [-u <user> <server>]; and when [-f] occurs neither in
    the path of [rdesktop] nor in the user nor in the server, the
    command holds [-f] exactly when [fullscreen] is true. *)
Theorem launch_command st out s u f fullscreen :
  which_rdesktop st = Some out ->
  tidy (config st) = true ->
  complete (config st) s u f ->
  ConfigParser.convert_to_boolean f = Ok fullscreen ->
  exists command,
    rdesktop_start st = Ret tt (with_log (log st ++ [Call command]) st)
    /\ command =
         "xinit " +:+ Text.strip out +:+ " -u " +:+ u +:+ " " +:+ s +:+ " "
         +:+ (if fullscreen then FLAG else "")
    /\ occurs ("-u " +:+ u +:+ " " +:+ s) command = true
    /\ (occurs FLAG (Text.strip out) = false ->
        occurs FLAG u = false ->
        occurs FLAG s = false ->
        (occurs FLAG command = true <-> fullscreen = true)).
Proof.
  intros Hw Ht Hc Hf.
  exists (rdesktop_command (Text.strip out) u s fullscreen).
  split; [|split; [reflexivity|split]].
  - now rewrite (rdesktop_start_complete st out s u f Hw Ht Hc), Hf.
  - apply occurs_user_server.
  - intros Ho Hu Hs. rewrite (occurs_flag_command _ _ _ _ Ho Hu Hs).
    reflexivity.
Qed.

Lemma launch_command_witness :
  exists command,
    rdesktop_start (alice_start "yes" []) =
      Ret tt (with_log (log (alice_start "yes" []) ++ [Call command])
                (alice_start "yes" []))
    /\ command =
         "xinit " +:+ Text.strip "/usr/bin/rdesktop" +:+ " -u " +:+ "alice"
         +:+ " " +:+ "10.0.0.5" +:+ " " +:+ (if true then FLAG else "")
    /\ occurs ("-u " +:+ "alice" +:+ " " +:+ "10.0.0.5") command = true
    /\ (occurs FLAG (Text.strip "/usr/bin/rdesktop") = false ->
        occurs FLAG "alice" = false ->
        occurs FLAG "10.0.0.5" = false ->
        (occurs FLAG command = true <-> true = true)).
Proof.
  apply (launch_command (alice_start "yes" []) "/usr/bin/rdesktop"
           "10.0.0.5" "alice" "yes" true); try reflexivity.
  split; [|split]; reflexivity.
Defined.

(** X15.  What the launcher accepts for [fullscreen].  With [rdesktop]
    found and a tidy configuration holding the three options, the
    command is [xinit <rdesktop> -u <user> <server> ] followed by [-f]
    when the stored value is, in any letter case, one of [1], [yes],
    [true], [on]; followed by nothing when it is one of [0], [no],
    [false], [off]; any other value raises [ValueError] and nothing is
    launched. *)
Theorem launcher_reads_fullscreen st out s u f :
  which_rdesktop st = Some out ->
  tidy (config st) = true ->
  complete (config st) s u f ->
  (In (Text.lower f) ["1"; "yes"; "true"; "on"] ->
     rdesktop_start st =
       Ret tt
         (with_log
            (log st ++ [Call ("xinit " +:+ Text.strip out +:+ " -u " +:+ u
                              +:+ " " +:+ s +:+ " -f")]) st))
  /\ (In (Text.lower f) ["0"; "no"; "false"; "off"] ->
      rdesktop_start st =
        Ret tt
          (with_log
             (log st ++ [Call ("xinit " +:+ Text.strip out +:+ " -u " +:+ u
                               +:+ " " +:+ s +:+ " ")]) st))
  /\ (~ In (Text.lower f)
        ["1"; "yes"; "true"; "on"; "0"; "no"; "false"; "off"] ->
      rdesktop_start st = Raised ValueError st).
Proof.
  intros Hw Ht Hc.
  rewrite (rdesktop_start_complete st out s u f Hw Ht Hc).
  destruct (convert_to_boolean_cases f) as (H1 & H2 & H3).
  split; [|split]; intros H.
  - rewrite (H1 H). reflexivity.
  - rewrite (H2 H). unfold rdesktop_command. now rewrite append_nil_r.
  - now rewrite (H3 H).
Qed.

Lemma launcher_reads_fullscreen_witness :
  rdesktop_start (alice_start "On" []) =
    Ret tt
      (with_log
         (log (alice_start "On" [])
          ++ [Call ("xinit " +:+ Text.strip "/usr/bin/rdesktop" +:+ " -u "
                    +:+ "alice" +:+ " " +:+ "10.0.0.5" +:+ " -f")])
         (alice_start "On" []))
  /\ rdesktop_start (alice_start "FALSE" []) =
       Ret tt
         (with_log
            (log (alice_start "FALSE" [])
             ++ [Call ("xinit " +:+ Text.strip "/usr/bin/rdesktop" +:+ " -u "
                       +:+ "alice" +:+ " " +:+ "10.0.0.5" +:+ " ")])
            (alice_start "FALSE" []))
  /\ rdesktop_start (alice_start "maybe" []) =
       Raised ValueError (alice_start "maybe" []).
Proof.
  split; [|split].
  - apply (proj1 (launcher_reads_fullscreen (alice_start "On" [])
                    "/usr/bin/rdesktop" "10.0.0.5" "alice" "On"
                    eq_refl eq_refl
                    (conj eq_refl (conj eq_refl eq_refl)))).
    vm_compute. auto.
  - apply (proj1 (proj2 (launcher_reads_fullscreen (alice_start "FALSE" [])
                           "/usr/bin/rdesktop" "10.0.0.5" "alice" "FALSE"
                           eq_refl eq_refl
                           (conj eq_refl (conj eq_refl eq_refl))))).
    vm_compute. auto.
  - apply (proj2 (proj2 (launcher_reads_fullscreen (alice_start "maybe" [])
                           "/usr/bin/rdesktop" "10.0.0.5" "alice" "maybe"
                           eq_refl eq_refl
                           (conj eq_refl (conj eq_refl eq_refl))))).
    vm_compute. intros H.
    repeat (destruct H as [H|H]; [discriminate H|]). exact H.
Defined.

(** ** Invariants of the process *)

Section Invariant.

Variable P : state -> Prop.
Hypothesis P_log : forall st l, P st -> P (with_log l st).
Hypothesis P_answers : forall st a, P st -> P (with_answers a st).
Hypothesis P_config : forall st c, P st -> P (with_config c st).
Hypothesis P_save : forall st,
  P st ->
  P (with_files (<[resolve st (config_path st) :=
                     ConfigParser.write (config st)]>
                   (files st)) st).

Lemma inv_ret {A : Type} (a : A) : inv P (mret a).
Proof. intros st H. now wp_step. Qed.

Lemma inv_bind {A B : Type} (m : M A) (f : A -> M B) :
  inv P m -> (forall a, inv P (f a)) -> inv P (m ≫= f).
Proof.
  intros Hm Hf st H. wp_step.
  eapply wp_mono; [| |apply Hm, H]; [|auto]. intros a st' H'. now apply Hf.
Qed.

Lemma inv_get_state : inv P get_state.
Proof. intros st H. now wp_step. Qed.

Lemma inv_raise {A : Type} e : inv P (raise e : M A).
Proof. intros st H. now wp_step. Qed.

Lemma inv_lift {A : Type} (r : result A) : inv P (lift r).
Proof. intros st H. wp_step; assumption. Qed.

Lemma inv_modify f : (forall st, P st -> P (f st)) -> inv P (modify f).
Proof. intros Hf st H. wp_step. now apply Hf. Qed.

Lemma inv_show e : inv P (show e).
Proof. intros st H. wp_step; auto. Qed.

Lemma inv_exit {A : Type} c : inv P (exit c : M A).
Proof. intros st H. wp_step. auto. Qed.

Lemma inv_call command : inv P (call command).
Proof. apply inv_modify. auto. Qed.

Lemma inv_config_save : inv P config_save.
Proof. intros st H. apply wp_config_save; auto. Qed.

Lemma inv_try {A : Type} (body handler : M A) :
  inv P body -> inv P handler ->
  inv P (try_except_FileNotFoundError body handler).
Proof.
  intros Hb Hh st H. apply wp_try.
  eapply wp_mono; [| |apply Hb, H]; [auto|].
  intros st' H'. split; [assumption|now apply Hh].
Qed.

Lemma inv_for_each {A : Type} (body : A -> M unit) l :
  (forall a, inv P (body a)) -> inv P (for_each body l).
Proof.
  intros Hb. induction l as [|a l IH]; simpl; [apply inv_ret|].
  apply inv_bind; [apply Hb|intros _; apply IH].
Qed.

Lemma inv_out_of_fuel {A : Type} : inv P (fun st => OutOfFuel st : outcome A).
Proof. intros st H. exact H. Qed.

Ltac inv_step :=
  lazymatch goal with
  | |- inv _ (mbind _ _) => apply inv_bind; [|intros]
  | |- inv _ (mret _) => apply inv_ret
  | |- inv _ get_state => apply inv_get_state
  | |- inv _ (raise _) => apply inv_raise
  | |- inv _ (lift _) => apply inv_lift
  | |- inv _ (show _) => apply inv_show
  | |- inv _ (exit _) => apply inv_exit
  | |- inv _ (call _) => apply inv_call
  | |- inv _ config_save => apply inv_config_save
  | |- inv _ (modify _) => apply inv_modify; intros; auto
  | |- inv _ (try_except_FileNotFoundError _ _) => apply inv_try
  | |- inv _ (for_each _ _) => apply inv_for_each; intros
  | |- inv _ (Dialog.msgbox _ _) => unfold Dialog.msgbox
  | |- inv _ (Dialog.inputbox _ _) => unfold Dialog.inputbox
  | |- inv _ (Dialog.menu _ _) => unfold Dialog.menu
  | |- inv _ (Dialog.radiolist _ _ _) => unfold Dialog.radiolist
  | |- inv _ (Dialog.yesno _) => unfold Dialog.yesno
  | |- inv _ (match ?x with _ => _ end) => destruct x
  end.

Lemma inv_first_start : inv P first_start.
Proof.
  unfold first_start, first_start_save. repeat inv_step.
  unfold first_start_option, config_set. repeat inv_step.
Qed.

Lemma inv_config_edit_turn config_tmp config_changed :
  inv P (config_edit_turn config_tmp config_changed).
Proof.
  unfold config_edit_turn, change_option, save_edit. repeat inv_step.
Qed.

Lemma inv_config_edit_loop fuel config_tmp config_changed :
  inv P (config_edit_loop fuel config_tmp config_changed).
Proof.
  revert config_tmp config_changed.
  induction fuel as [|n IH]; intros; simpl; [apply inv_out_of_fuel|].
  apply inv_bind; [apply inv_config_edit_turn|].
  intros [|c ch]; [apply inv_ret|apply IH].
Qed.

Lemma inv_config_edit : inv P config_edit.
Proof.
  unfold config_edit. repeat inv_step. apply inv_config_edit_loop.
Qed.

Lemma inv_rdesktop_start : inv P rdesktop_start.
Proof. unfold rdesktop_start. repeat inv_step. Qed.

Lemma inv_menu : inv P menu.
Proof.
  unfold menu, desktop_environment_start.
  pose proof inv_rdesktop_start. pose proof inv_config_edit.
  repeat inv_step; auto.
Qed.

Lemma inv_menu_loop fuel : inv P (menu_loop fuel).
Proof.
  induction fuel as [|n IH]; simpl; [apply inv_out_of_fuel|].
  pose proof inv_menu. repeat inv_step; auto.
Qed.

Lemma inv_run : inv P run.
Proof.
  unfold run. pose proof inv_first_start. repeat inv_step; auto.
  apply inv_menu_loop.
Qed.

End Invariant.

(** ** Only the save target is written *)

Lemma only_target_refl st : only_target st st.
Proof. repeat split; auto. Qed.

Lemma only_target_save st0 st :
  only_target st0 st ->
  only_target st0
    (with_files (<[resolve st (config_path st) :=
                     ConfigParser.write (config st)]> (files st)) st).
Proof.
  intros (Hp & Hl & Hf & Hs). split; [exact Hp|]. split; [exact Hl|].
  simpl. rewrite Hp, Hl. split.
  - intros f Hne. rewrite lookup_insert_ne by congruence. now apply Hf.
  - intros f H.
    destruct (decide (resolve st0 (config_path st0) = f)) as [->|Hne].
    + rewrite lookup_insert_eq. eauto.
    + rewrite lookup_insert_ne by assumption. now apply Hs.
Qed.

Lemma run_only_target st : only_target st (final (run st)).
Proof.
  apply (wp_final _ (only_target st)).
  apply (inv_run (only_target st)); try (intros; assumption).
  - apply only_target_save.
  - apply only_target_refl.
Qed.

(** What loading leaves behind: the files and the links as they were
    and one of the two candidates as the save target. *)
Lemma read_config_frame st :
  files (final (read_config st)) = files st
  /\ resolve (final (read_config st)) = resolve st
  /\ (forall u st', read_config st = Ret u st' ->
        config_path st' = first_candidate st
        \/ config_path st' = second_candidate st).
Proof.
  unfold read_config, CANDIDATES, read_candidates. run_M.
  unfold isfile, config_read, file_at. simpl.
  fold (first_candidate st).
  destruct (files st !! resolve st (first_candidate st)) as [t1|] eqn:E1.
  - simpl. rewrite E1.
    assert (Hk : forall c,
              (if Text.is_empty (first_candidate st)
               then fun st0 : state =>
                      Ret tt (with_config_path (first_candidate st) st0)
               else fun st0 : state => Ret tt st0)
                (with_config_path (first_candidate st) c)
              = Ret tt (with_config_path (first_candidate st) c))
      by (intros c; now rewrite first_candidate_not_empty).
    destruct (unreadable st (first_candidate st)); simpl.
    + rewrite Hk. repeat split. intros u st' [= E]. subst st'. now left.
    + destruct (ConfigParser.read_string t1); simpl;
        [|repeat split; discriminate].
      rewrite Hk. repeat split. intros u st' [= E]. subst st'. now left.
  - simpl. fold (second_candidate st).
    destruct (files st !! resolve st (second_candidate st)) as [t2|] eqn:E2.
    + simpl. rewrite E2.
      assert (Hk : forall c,
                (if Text.is_empty (second_candidate st)
                 then fun st0 : state =>
                        Ret tt (with_config_path (first_candidate st) st0)
                 else fun st0 : state => Ret tt st0)
                  (with_config_path (second_candidate st) c)
                = Ret tt (with_config_path (second_candidate st) c))
        by (intros c; now rewrite second_candidate_not_empty).
      destruct (unreadable st (second_candidate st)); simpl.
      * rewrite Hk. repeat split. intros u st' [= E]. subst st'. now right.
      * destruct (ConfigParser.read_string t2); simpl;
          [|repeat split; discriminate].
        rewrite Hk. repeat split. intros u st' [= E]. subst st'. now right.
    + simpl. repeat split. intros u st' [= E]. subst st'. now left.
Qed.

(** A save target that is a symbolic link: the file it leads to is
    loaded and rewritten, under the name of the link. *)
Lemma save_follows_link :
  exists st',
    main linked_editor = Blocked st'
    /\ config_path st' = "/home/pi/.raptic"
    /\ stored (config st') "server" = Some "192.168.1.1"
    /\ files st' !! "/etc/raptic.conf" = Some (ConfigParser.write (config st'))
    /\ files st' !! "/home/pi/.raptic" = None.
Proof.
  eexists. split; [vm_compute; reflexivity|].
  repeat split; vm_compute; reflexivity.
Qed.

(** X16.  The process writes no file but the one its save target leads
    to.  However the run goes (whatever the files, the links, the
    answers and the errors), a file other than the two the candidates
    lead to holds at the end what it held at the start, no file has
    disappeared, and once the configuration is loaded the save target
    never changes.  (What the launched programs do to the files is not
    the process's doing and is left out.) *)
Theorem only_save_target_written st :
  (forall f, f <> resolve st (first_candidate st) ->
     f <> resolve st (second_candidate st) ->
     files (final (main st)) !! f = files st !! f)
  /\ (forall f, is_Some (files st !! f) ->
        is_Some (files (final (main st)) !! f))
  /\ (forall st0, only_target st0 (final (run st0))).
Proof.
  destruct (read_config_frame st) as (Hf & Hl & Hp).
  assert (Hmain : main st = match read_config st with
                            | Ret _ st1 => run st1
                            | Raised e st1 => Raised e st1
                            | Exited c st1 => Exited c st1
                            | Blocked st1 => Blocked st1
                            | OutOfFuel st1 => OutOfFuel st1
                            end) by reflexivity.
  split; [|split; [|apply run_only_target]].
  - intros f H1 H2. rewrite Hmain.
    destruct (read_config st) as [u st1| | | |] eqn:E; simpl in *;
      try (now rewrite Hf).
    destruct (run_only_target st1) as (_ & _ & Hfiles & _).
    rewrite Hfiles, Hf; [reflexivity|]. rewrite Hl.
    destruct (Hp u st1 eq_refl) as [-> | ->]; assumption.
  - intros f H. rewrite Hmain.
    destruct (read_config st) as [u st1| | | |] eqn:E; simpl in *;
      try (now rewrite Hf).
    destruct (run_only_target st1) as (_ & _ & _ & Hsome).
    apply Hsome. now rewrite Hf.
Qed.

(** ** How the process leaves *)

Lemma wpx_bind {A B : Type} (m : M A) (f : A -> M B) Q X st :
  wpx m (fun a => wpx (f a) Q X) X st -> wpx (m ≫= f) Q X st.
Proof. unfold wpx, mbind, M_bind. now destruct (m st). Qed.

Lemma wpx_mono {A : Type} (m : M A) (Q Q' : A -> state -> Prop) X st :
  (forall a st', Q a st' -> Q' a st') -> wpx m Q X st -> wpx m Q' X st.
Proof. unfold wpx. destruct (m st); auto. Qed.

Lemma wpx_leaves {A : Type} (m : M A) (Q : A -> state -> Prop) X st :
  leaves X m -> (forall a st', Q a st') -> wpx m Q X st.
Proof. intros Hm HQ. eapply wpx_mono; [|apply Hm]. auto. Qed.

Section Leaving.

Variable X : Z -> state -> Prop.
Hypothesis X_one : forall st, X 1 (with_log (log st ++ [Clear]) st).

Lemma leaves_ret {A : Type} (a : A) : leaves X (mret a).
Proof. now intros st. Qed.

Lemma leaves_bind {A B : Type} (m : M A) (f : A -> M B) :
  leaves X m -> (forall a, leaves X (f a)) -> leaves X (m ≫= f).
Proof.
  intros Hm Hf st. apply wpx_bind.
  eapply wpx_mono; [|apply Hm]. intros a st' _. apply Hf.
Qed.

Lemma leaves_lift {A : Type} (r : result A) : leaves X (lift r).
Proof. intros st. now destruct r. Qed.

Lemma leaves_show e : leaves X (show e).
Proof. intros st. unfold wpx, show. now destruct (answers st). Qed.

Lemma leaves_exit_one {A : Type} : leaves X (exit 1 : M A).
Proof. intros st. apply X_one. Qed.

Lemma leaves_config_save : leaves X config_save.
Proof.
  intros st. unfold wpx, config_save.
  now destruct (open_error st (config_path st)).
Qed.

Lemma leaves_try {A : Type} (body handler : M A) :
  leaves X body -> leaves X handler ->
  leaves X (try_except_FileNotFoundError body handler).
Proof.
  intros Hb Hh st. specialize (Hb st).
  unfold wpx, try_except_FileNotFoundError in *.
  destruct (body st) as [| e st'| | |]; try assumption.
  destruct e; try exact I. apply Hh.
Qed.

Lemma leaves_for_each {A : Type} (body : A -> M unit) l :
  (forall a, leaves X (body a)) -> leaves X (for_each body l).
Proof.
  intros Hb. induction l as [|a l IH]; simpl; [apply leaves_ret|].
  apply leaves_bind; [apply Hb|intros _; apply IH].
Qed.

Ltac leaves_step :=
  lazymatch goal with
  | |- leaves _ (mbind _ _) => apply leaves_bind; [|intros]
  | |- leaves _ (mret _) => apply leaves_ret
  | |- leaves _ get_state => now intros ?
  | |- leaves _ (raise _) => now intros ?
  | |- leaves _ (call _) => now intros ?
  | |- leaves _ (modify _) => now intros ?
  | |- leaves _ (lift _) => apply leaves_lift
  | |- leaves _ (show _) => apply leaves_show
  | |- leaves _ (exit 1) => apply leaves_exit_one
  | |- leaves _ config_save => apply leaves_config_save
  | |- leaves _ (try_except_FileNotFoundError _ _) => apply leaves_try
  | |- leaves _ (for_each _ _) => apply leaves_for_each; intros
  | |- leaves _ (Dialog.msgbox _ _) => unfold Dialog.msgbox
  | |- leaves _ (Dialog.inputbox _ _) => unfold Dialog.inputbox
  | |- leaves _ (Dialog.menu _ _) => unfold Dialog.menu
  | |- leaves _ (Dialog.radiolist _ _ _) => unfold Dialog.radiolist
  | |- leaves _ (Dialog.yesno _) => unfold Dialog.yesno
  | |- leaves _ (match ?x with _ => _ end) => destruct x
  end.

Lemma leaves_first_start : leaves X first_start.
Proof.
  unfold first_start, first_start_save. repeat leaves_step.
  unfold first_start_option, config_set. repeat leaves_step.
Qed.

Lemma leaves_config_edit_turn config_tmp config_changed :
  leaves X (config_edit_turn config_tmp config_changed).
Proof.
  unfold config_edit_turn, change_option, save_edit. repeat leaves_step.
Qed.

Lemma leaves_config_edit_loop fuel config_tmp config_changed :
  leaves X (config_edit_loop fuel config_tmp config_changed).
Proof.
  revert config_tmp config_changed.
  induction fuel as [|n IH]; intros; simpl; [now intros st|].
  apply leaves_bind; [apply leaves_config_edit_turn|].
  intros [|c ch]; [apply leaves_ret|apply IH].
Qed.

Lemma leaves_config_edit : leaves X config_edit.
Proof.
  unfold config_edit. repeat leaves_step. apply leaves_config_edit_loop.
Qed.

Lemma leaves_rdesktop_start : leaves X rdesktop_start.
Proof. unfold rdesktop_start. repeat leaves_step. Qed.

End Leaving.

Lemma clean_exit_one st : clean_exit 1 (with_log (log st ++ [Clear]) st).
Proof. right. split; [reflexivity|]. now exists (log st). Qed.

(** A turn of the main menu returns [false] only straight after the
    menu itself. *)
Lemma menu_leaves st :
  wpx menu
    (fun continue st' =>
       continue = false ->
       exists l, log st' = l ++ [Menu WHAT_TO_DO MAIN_CHOICES])
    clean_exit st.
Proof.
  unfold menu. apply wpx_bind. unfold Dialog.menu. apply wpx_bind.
  unfold wpx at 1, show. destruct (answers st) as [|a r]; [exact I|].
  unfold wpx at 1, mret, M_ret. cbv beta iota.
  apply wpx_bind.
  destruct (bool_decide (a_code a ≠ OK)); [apply clean_exit_one|].
  unfold wpx at 1, mret, M_ret.
  pose proof (leaves_rdesktop_start clean_exit clean_exit_one) as Hr.
  pose proof (leaves_config_edit clean_exit) as He.
  repeat match goal with
         | |- wpx (if ?b then _ else _) _ _ _ => destruct b
         end.
  - apply wpx_bind. eapply wpx_mono; [|apply Hr]. now intros.
  - apply wpx_bind. eapply wpx_mono; [|apply He]. now intros.
  - apply wpx_bind. unfold desktop_environment_start.
    unfold wpx at 1, call, modify. now intros.
  - unfold wpx, mret, M_ret. intros _. simpl. now eexists.
  - unfold wpx, mret, M_ret. discriminate.
Qed.

Lemma menu_loop_leaves fuel st :
  wpx (menu_loop fuel) (fun _ _ => False) clean_exit st.
Proof.
  revert st. induction fuel as [|n IH]; intros st; [exact I|].
  simpl. apply wpx_bind.
  eapply wpx_mono; [|apply menu_leaves].
  intros continue st' Hl. cbv beta. apply wpx_bind.
  destruct continue.
  - unfold wpx at 1, mret, M_ret. apply IH.
  - unfold wpx, exit. destruct (Hl eq_refl) as [l Hlog]. left.
    split; [reflexivity|]. exists l. simpl. rewrite Hlog.
    now rewrite <- app_assoc.
Qed.

Lemma run_leaves st : wpx run (fun _ _ => False) clean_exit st.
Proof.
  unfold run. apply wpx_bind. unfold wpx at 1, get_state. apply wpx_bind.
  eapply wpx_mono with (Q := fun _ _ => True).
  - intros _ st' _. apply wpx_bind. unfold wpx at 1, get_state.
    apply menu_loop_leaves.
  - destruct (bool_decide _).
    + apply (leaves_first_start clean_exit clean_exit_one).
    + exact I.
Qed.

Lemma read_config_outcome st :
  (exists st', read_config st = Ret tt st')
  \/ (exists e st', read_config st = Raised e st').
Proof.
  unfold read_config, CANDIDATES, read_candidates. run_M.
  unfold isfile, config_read, file_at. simpl.
  fold (first_candidate st).
  destruct (files st !! resolve st (first_candidate st)) as [t1|] eqn:E1.
  - simpl. rewrite E1.
    destruct (unreadable st (first_candidate st)); simpl.
    + left. destruct (Text.is_empty _); eauto.
    + destruct (ConfigParser.read_string t1); simpl; [|right; eauto].
      left. destruct (Text.is_empty _); eauto.
  - simpl. fold (second_candidate st).
    destruct (files st !! resolve st (second_candidate st)) as [t2|] eqn:E2.
    + simpl. rewrite E2.
      destruct (unreadable st (second_candidate st)); simpl.
      * left. destruct (Text.is_empty _); eauto.
      * destruct (ConfigParser.read_string t2); simpl; [|right; eauto].
        left. destruct (Text.is_empty _); eauto.
    + simpl. left. eauto.
Qed.

(** X17.  The ways the process ends.  [run] never returns and its loops
    never run out of turns.  The process ends by [exit(0)], and then the
    last thing on the screen was the main menu; or by [exit(1)]; in both
    cases the screen is cleared last.  Otherwise an exception has
    escaped or the process is waiting for the user. *)
Theorem process_ends_cleanly st : ends_cleanly (main st).
Proof.
  unfold main, mbind, M_bind.
  destruct (read_config_outcome st) as [[st' ->]|(e & st' & ->)];
    [|exact I].
  pose proof (run_leaves st') as Hl. pose proof (total_run st') as Ht.
  unfold wpx in Hl. unfold ends_cleanly.
  destruct (run st'); assumption.
Qed.

(** ** Toggling fullscreen *)

Lemma config_edit_turn_changed config_tmp config_changed choices st a rest
    tag r st2 :
  edit_choices config_tmp (map snd configuration_options) = Ok choices ->
  answers st = a :: rest ->
  a_code a = OK ->
  Dialog.selected (map fst choices) (hd "" (map fst choices)) (a_pick a)
    = tag ->
  change_option config_tmp tag
    (with_answers rest (with_log (log st ++ [Menu WHAT_SETTING choices]) st))
    = Ret r st2 ->
  config_edit_turn config_tmp config_changed st =
    Ret (Again (fst r) (snd r || config_changed)) st2.
Proof.
  intros Hch Ha H0 Htag Hchange.
  rewrite (config_edit_turn_menu _ _ _ st a rest Hch Ha).
  rewrite H0. cbv zeta iota. rewrite Htag.
  rewrite (bind_Ret _ _ _ _ _ Hchange). now destruct r.
Qed.

Lemma change_option_fullscreen_confirmed config_tmp b c' st a rest :
  ConfigParser.getboolean config_tmp "general" "fullscreen" = Ok b ->
  answers st = a :: rest ->
  a_code a = OK ->
  ConfigParser.section_set config_tmp "general" "fullscreen"
    (Dialog.selected ["yes"; "no"] (if b then "yes" else "no") (a_pick a))
    = Ok c' ->
  change_option config_tmp "Fullscreen" st =
    Ret (c', true)
      (with_answers rest
         (with_log (log st ++ [Radiolist "Fullscreen" (yes_no_items b)]) st)).
Proof.
  intros Hb Ha Hc Hset. unfold change_option.
  change (dict_get "Fullscreen" configuration_options) with (Some Fullscreen).
  cbv iota beta. simpl option_type. cbv iota. simpl name. simpl label.
  rewrite Hb. change (lift (Ok ?x)) with (mret x : M _).
  rewrite ?bind_assoc.
  unfold mbind at 1, M_bind at 1, mret at 1, M_ret at 1.
  unfold Dialog.radiolist. rewrite ?bind_assoc.
  unfold mbind at 1, M_bind at 1, show at 1. rewrite Ha.
  unfold mbind at 1, M_bind at 1, mret at 1, M_ret at 1.
  cbv beta iota. rewrite Hc.
  change (map (fun c : string * string * bool => fst (fst c))
            [("yes", "", b); ("no", "", negb b)]) with ["yes"; "no"].
  change (bool_decide (OK = OK)) with true. cbv iota.
  rewrite Hset. reflexivity.
Qed.

Lemma percent_free_yes_no (b : bool) (pick : nat) :
  percent_free (Dialog.selected ["yes"; "no"] (if b then "yes" else "no") pick)
  = true.
Proof. destruct (selected_yes_or_no b pick) as [-> | ->]; reflexivity. Qed.

(** X18.  Toggling fullscreen and saving.  From a tidy configuration
    that holds the three options, with a value of [fullscreen] that
    reads as a truth value, picking [Fullscreen] shows a radio list of
    [yes] and [no] with the current one on; confirming an item and
    pressing SAVE stores that item's tag, leaves the other options as
    they were and writes the new configuration to the save target. *)
Theorem fullscreen_toggle_saves st s u f b value a0 a1 a2 a3 rest :
  tidy (config st) = true ->
  complete (config st) s u f ->
  ConfigParser.convert_to_boolean f = Ok b ->
  open_error st (config_path st) = None ->
  answers st = a0 :: a1 :: a2 :: a3 :: rest ->
  a_code a0 = OK ->
  a_pick a0 = 2 ->
  a_code a1 = OK ->
  nth_error ["yes"; "no"] (a_pick a1) = Some value ->
  a_code a2 = EXTRA ->
  exists st',
    config_edit st = Ret tt st'
    /\ stored (config st') "fullscreen" = Some value
    /\ (forall k, k <> "fullscreen" ->
          stored (config st') k = stored (config st) k)
    /\ files st' =
         <[resolve st (config_path st) :=
             ConfigParser.write (config st')]> (files st)
    /\ log st' =
         log st ++ [ Menu WHAT_SETTING (choices_of s u f);
                     Radiolist "Fullscreen" (yes_no_items b);
                     Menu WHAT_SETTING (choices_of s u value);
                     Msgbox SAVED "RAPTIC" ]
    /\ answers st' = rest.
Proof.
  intros Ht Hc Hb Ho Ha H0 Hp H1 Hval H2.
  pose proof Hc as (Hs & Hu & Hf).
  assert (Hsel : Dialog.selected ["yes"; "no"] (if b then "yes" else "no")
                   (a_pick a1) = value).
  { unfold Dialog.selected.
    destruct (a_pick a1) as [|[|n]]; simpl in Hval.
    - now injection Hval as <-.
    - now injection Hval as <-.
    - now destruct n. }
  assert (Hv : percent_free value = true)
    by (rewrite <- Hsel; apply percent_free_yes_no).
  destruct (section_set_stored _ _ _ _ Ht Hf Hv)
    as (c' & Hset & Ht' & Hsec' & Hst & Hother).
  assert (Hc' : complete c' s u value).
  { split; [|split; [|exact Hst]];
      (rewrite Hother by discriminate; assumption). }
  assert (Hgb : ConfigParser.getboolean (config st) "general" "fullscreen"
                = Ok b).
  { unfold ConfigParser.getboolean. now rewrite (get_stored _ _ _ Ht Hf). }
  rewrite (config_edit_tidy st Ht), Ha.
  change (length (a0 :: a1 :: a2 :: a3 :: rest))
    with (S (S (S (S (length rest))))).
  rewrite config_edit_loop_S.
  erewrite (bind_Ret (config_edit_turn _ _)).
  2:{ apply (config_edit_turn_changed _ _ (choices_of s u f) st a0
               (a1 :: a2 :: a3 :: rest) "Fullscreen");
        [now apply edit_choices_stored|exact Ha|exact H0
        |simpl; now rewrite Hp|].
      apply (change_option_fullscreen_confirmed _ b c' _ a1 (a2 :: a3 :: rest));
        [exact Hgb|reflexivity|exact H1|now rewrite Hsel]. }
  cbv iota beta. simpl fst. simpl snd. rewrite config_edit_loop_S.
  erewrite (bind_Ret (config_edit_turn _ _)).
  2:{ rewrite (config_edit_turn_menu _ _ (choices_of s u value) _ a2
                 (a3 :: rest)); [|now apply edit_choices_stored|reflexivity].
      rewrite H2. cbv zeta iota.
      erewrite (bind_Ret (save_edit c'));
        [reflexivity
        |apply (save_edit_ok _ _ a3 rest);
         [exact Ht'|now rewrite Hsec'|exact Ho|reflexivity]]. }
  eexists. split; [reflexivity|]. simpl.
  split; [exact Hst|]. split; [exact Hother|]. split; [reflexivity|].
  split; [|reflexivity].
  rewrite <- !app_assoc. reflexivity.
Qed.

Lemma fullscreen_toggle_saves_witness :
  exists st',
    config_edit
      (alice_start "yes" [choose OK 2; choose OK 1; choose EXTRA 0; press OK])
      = Ret tt st'
    /\ stored (config st') "fullscreen" = Some "no"
    /\ (forall k, k <> "fullscreen" ->
          stored (config st') k =
          stored
            (config
               (alice_start "yes"
                  [choose OK 2; choose OK 1; choose EXTRA 0; press OK])) k)
    /\ files st' =
         <[resolve
             (alice_start "yes"
                [choose OK 2; choose OK 1; choose EXTRA 0; press OK])
             (config_path
                (alice_start "yes"
                   [choose OK 2; choose OK 1; choose EXTRA 0; press OK])) :=
             ConfigParser.write (config st')]>
           (files
              (alice_start "yes"
                 [choose OK 2; choose OK 1; choose EXTRA 0; press OK]))
    /\ log st' =
         log (alice_start "yes"
                [choose OK 2; choose OK 1; choose EXTRA 0; press OK])
         ++ [ Menu WHAT_SETTING (choices_of "10.0.0.5" "alice" "yes");
              Radiolist "Fullscreen" (yes_no_items true);
              Menu WHAT_SETTING (choices_of "10.0.0.5" "alice" "no");
              Msgbox SAVED "RAPTIC" ]
    /\ answers st' = [].
Proof.
  apply (fullscreen_toggle_saves
           (alice_start "yes"
              [choose OK 2; choose OK 1; choose EXTRA 0; press OK])
           "10.0.0.5" "alice" "yes" true "no"
           (choose OK 2) (choose OK 1) (choose EXTRA 0) (press OK) []);
    try (vm_compute; reflexivity).
  split; [|split]; reflexivity.
Defined.

(** ** Leaving the editor without saving *)

Lemma config_edit_turn_back config_tmp choices st a rest :
  edit_choices config_tmp (map snd configuration_options) = Ok choices ->
  answers st = a :: rest ->
  a_code a = CANCEL ->
  config_edit_turn config_tmp false st =
    Ret Return
      (with_answers rest (with_log (log st ++ [Menu WHAT_SETTING choices]) st)).
Proof.
  intros Hch Ha Hc.
  rewrite (config_edit_turn_menu _ _ _ st a rest Hch Ha), Hc. reflexivity.
Qed.

Lemma config_edit_turn_discard config_tmp choices st a a' rest :
  edit_choices config_tmp (map snd configuration_options) = Ok choices ->
  answers st = a :: a' :: rest ->
  a_code a = CANCEL ->
  a_code a' = OK ->
  config_edit_turn config_tmp true st =
    Ret Return
      (with_answers rest
         (with_log (log st ++ [Menu WHAT_SETTING choices; Yesno REALLY_BACK])
            st)).
Proof.
  intros Hch Ha Hc Hc'.
  rewrite (config_edit_turn_menu _ _ _ st a (a' :: rest) Hch Ha), Hc.
  cbv zeta iota. unfold Dialog.yesno, show. run_M. rewrite Hc'. simpl.
  rewrite <- !app_assoc. reflexivity.
Qed.

Lemma change_option_cancelled config_tmp tag option init st a rest :
  dict_get tag configuration_options = Some option ->
  option_type option = str ->
  ConfigParser.section_get config_tmp "general" (name option) = Ok init ->
  answers st = a :: rest ->
  a_code a <> OK ->
  change_option config_tmp tag st =
    Ret (config_tmp, false)
      (with_answers rest
         (with_log (log st ++ [Inputbox (label option) init]) st)).
Proof.
  intros Ht Hty Hi Ha Hc. unfold change_option. rewrite Ht, Hty, Hi.
  change (lift (Ok ?x)) with (mret x : M _).
  rewrite ?bind_assoc.
  unfold mbind at 1, M_bind at 1, mret at 1, M_ret at 1.
  step (inputbox_answer (label option) init st a rest Ha).
  cbv beta iota. now rewrite bool_decide_eq_false_2.
Qed.

Lemma config_edit_turn_declined config_tmp choices st a a' rest :
  edit_choices config_tmp (map snd configuration_options) = Ok choices ->
  answers st = a :: a' :: rest ->
  a_code a = CANCEL ->
  a_code a' <> OK ->
  config_edit_turn config_tmp true st =
    Ret (Again config_tmp true)
      (with_answers rest
         (with_log (log st ++ [Menu WHAT_SETTING choices; Yesno REALLY_BACK])
            st)).
Proof.
  intros Hch Ha Hc Hc'.
  rewrite (config_edit_turn_menu _ _ _ st a (a' :: rest) Hch Ha), Hc.
  cbv zeta iota. unfold Dialog.yesno, show. run_M.
  rewrite bool_decide_eq_false_2 by assumption.
  rewrite <- !app_assoc. reflexivity.
Qed.

Lemma config_edit_turn_waits config_tmp config_changed choices st :
  edit_choices config_tmp (map snd configuration_options) = Ok choices ->
  answers st = [] ->
  config_edit_turn config_tmp config_changed st =
    Blocked (with_log (log st ++ [Menu WHAT_SETTING choices]) st).
Proof.
  intros Hch Ha. unfold config_edit_turn. rewrite Hch.
  change (lift (Ok choices)) with (mret choices : M _).
  unfold mbind at 1, M_bind at 1, mret at 1, M_ret at 1.
  unfold Dialog.menu, show. run_M. now rewrite Ha.
Qed.

(** A turn of the editor in which a text option is given a new text. *)
Lemma config_edit_turn_text config_tmp config_changed s u f st key
    a0 a1 rest :
  tidy config_tmp = true ->
  complete config_tmp s u f ->
  answers st = a0 :: a1 :: rest ->
  a_code a0 = OK ->
  nth_error ["server"; "user"] (a_pick a0) = Some key ->
  a_code a1 = OK ->
  percent_free (a_text a1) = true ->
  exists c' s' u' f' title old,
    config_edit_turn config_tmp config_changed st =
      Ret (Again c' true)
        (with_answers rest
           (with_log (log st ++ [ Menu WHAT_SETTING (choices_of s u f);
                                  Inputbox title old ]) st))
    /\ tidy c' = true
    /\ complete c' s' u' f'
    /\ ConfigParser.sections c' = ConfigParser.sections config_tmp
    /\ In (a_text a1) [s'; u'].
Proof.
  intros Ht Hc Ha H0 Hkey H1 Hv.
  destruct (text_option_of _ _ Hkey)
    as (tag & option & Htag & Hopt & Hty & Hn).
  assert (Hin2 : key = "server" \/ key = "user").
  { apply nth_error_In in Hkey. destruct Hkey as [<-|[<-|[]]]; auto. }
  assert (Hin : In key ["server"; "user"; "fullscreen"]).
  { destruct Hin2 as [->| ->]; simpl; auto. }
  destruct (complete_stored _ _ _ _ _ Hc Hin) as [old Hold].
  destruct (section_set_stored _ _ _ _ Ht Hold Hv)
    as (c' & Hset & Ht' & Hsec' & Hst & Hother).
  assert (Hc' : exists s' u', complete c' s' u' f /\ In (a_text a1) [s'; u']).
  { destruct Hc as (Hs & Hu & Hf).
    destruct Hin2 as [E|E]; rewrite E in Hst, Hother.
    - exists (a_text a1), u. split; [|now left]. split; [exact Hst|].
      split; (rewrite Hother by discriminate; assumption).
    - exists s, (a_text a1). split; [|right; now left].
      split; [|split; [exact Hst|]];
        (rewrite Hother by discriminate; assumption). }
  destruct Hc' as (s' & u' & Hc' & Hin').
  exists c', s', u', f, (label option), old.
  split; [|split; [exact Ht'|split; [exact Hc'|split; [exact Hsec'|exact Hin']]]].
  apply (config_edit_turn_change _ _ s u f st tag option old c' a0 a1 rest);
    try assumption;
    [now apply edit_choices_stored
    |rewrite Hn; now apply section_get_stored|now rewrite Hn].
Qed.

(** X19.  The question about leaving without saving is asked exactly
    after a confirmed change.  From a tidy configuration that holds the
    three options: BACK as the first answer leaves the editor at once;
    so does BACK after a text prompt that was cancelled; BACK after a
    text prompt that was confirmed asks the question.  A yes then leaves
    the editor with the configuration and the files as they were; any
    other answer brings the edit menu back, with the new text in it. *)
Theorem back_asks_after_a_change st s u f :
  tidy (config st) = true ->
  complete (config st) s u f ->
  (forall a rest,
     answers st = a :: rest ->
     a_code a = CANCEL ->
     config_edit st =
       Ret tt (with_answers rest
                 (with_log
                    (log st ++ [Menu WHAT_SETTING (choices_of s u f)]) st)))
  /\ (forall a0 a1 a2 rest key,
        answers st = a0 :: a1 :: a2 :: rest ->
        a_code a0 = OK ->
        nth_error ["server"; "user"] (a_pick a0) = Some key ->
        a_code a1 <> OK ->
        a_code a2 = CANCEL ->
        exists st' l,
          config_edit st = Ret tt st'
          /\ log st' = log st ++ l
          /\ ~ asked l
          /\ answers st' = rest)
  /\ (forall a0 a1 a2 a3 rest key,
        answers st = a0 :: a1 :: a2 :: a3 :: rest ->
        a_code a0 = OK ->
        nth_error ["server"; "user"] (a_pick a0) = Some key ->
        a_code a1 = OK ->
        percent_free (a_text a1) = true ->
        a_code a2 = CANCEL ->
        a_code a3 = OK ->
        exists st' l,
          config_edit st = Ret tt st'
          /\ log st' = log st ++ l ++ [Yesno REALLY_BACK]
          /\ config st' = config st
          /\ files st' = files st
          /\ answers st' = rest)
  /\ (forall a0 a1 a2 a3 key,
        answers st = [a0; a1; a2; a3] ->
        a_code a0 = OK ->
        nth_error ["server"; "user"] (a_pick a0) = Some key ->
        a_code a1 = OK ->
        percent_free (a_text a1) = true ->
        a_code a2 = CANCEL ->
        a_code a3 <> OK ->
        exists st' l s' u' f',
          config_edit st = Blocked st'
          /\ log st' = log st ++ l ++ [ Yesno REALLY_BACK;
                                        Menu WHAT_SETTING (choices_of s' u' f') ]
          /\ In (a_text a1) [s'; u']
          /\ config st' = config st
          /\ files st' = files st).
Proof.
  intros Ht Hc.
  pose proof (edit_choices_stored _ _ _ _ Ht Hc) as Hch.
  split; [|split; [|split]].
  - intros a rest Ha Hcode.
    rewrite (config_edit_tidy st Ht), config_edit_loop_S.
    now rewrite (bind_Ret _ _ _ _ _
                   (config_edit_turn_back _ _ st a rest Hch Ha Hcode)).
  - intros a0 a1 a2 rest key Ha H0 Hkey H1 H2.
    destruct (text_option_of _ _ Hkey)
      as (tag & option & Htag & Hopt & Hty & Hn).
    assert (Hin : In key ["server"; "user"; "fullscreen"]).
    { apply nth_error_In in Hkey. destruct Hkey as [<-|[<-|[]]]; simpl; auto. }
    destruct (complete_stored _ _ _ _ _ Hc Hin) as [old Hold].
    rewrite (config_edit_tidy st Ht), Ha.
    change (length (a0 :: a1 :: a2 :: rest)) with (S (S (S (length rest)))).
    rewrite config_edit_loop_S.
    erewrite (bind_Ret (config_edit_turn _ _)).
    2:{ apply (config_edit_turn_changed _ _ (choices_of s u f) st a0
                 (a1 :: a2 :: rest) tag);
          [exact Hch|exact Ha|exact H0|exact Htag|].
        apply (change_option_cancelled _ tag option old _ a1 (a2 :: rest));
          [exact Hopt|exact Hty|rewrite Hn; now apply section_get_stored
          |reflexivity|exact H1]. }
    cbv iota beta. simpl fst. simpl snd. simpl orb.
    rewrite config_edit_loop_S.
    erewrite (bind_Ret (config_edit_turn _ _));
      [|apply (config_edit_turn_back _ (choices_of s u f) _ a2 rest);
        [exact Hch|reflexivity|exact H2]].
    eexists _, [ Menu WHAT_SETTING (choices_of s u f);
                 Inputbox (label option) old;
                 Menu WHAT_SETTING (choices_of s u f) ].
    split; [reflexivity|]. simpl. split; [|split; [|reflexivity]].
    + rewrite <- !app_assoc. reflexivity.
    + unfold asked. simpl. intros [H|[H|[H|[]]]]; discriminate.
  - intros a0 a1 a2 a3 rest key Ha H0 Hkey H1 Hv H2 H3.
    destruct (config_edit_turn_text (config st) false s u f st key a0 a1
                (a2 :: a3 :: rest) Ht Hc Ha H0 Hkey H1 Hv)
      as (c' & s' & u' & f' & title & old & Hturn & Ht' & Hc' & _ & _).
    rewrite (config_edit_tidy st Ht), Ha.
    change (length (a0 :: a1 :: a2 :: a3 :: rest))
      with (S (S (S (S (length rest))))).
    rewrite config_edit_loop_S, (bind_Ret _ _ _ _ _ Hturn).
    cbv iota beta. rewrite config_edit_loop_S.
    erewrite (bind_Ret (config_edit_turn _ _));
      [|apply (config_edit_turn_discard _ (choices_of s' u' f') _ a2 a3 rest);
        [now apply edit_choices_stored|reflexivity|exact H2|exact H3]].
    eexists _, [ Menu WHAT_SETTING (choices_of s u f); Inputbox title old;
                 Menu WHAT_SETTING (choices_of s' u' f') ].
    split; [reflexivity|]. simpl.
    split; [|split; [reflexivity|split; reflexivity]].
    rewrite <- !app_assoc. reflexivity.
  - intros a0 a1 a2 a3 key Ha H0 Hkey H1 Hv H2 H3.
    destruct (config_edit_turn_text (config st) false s u f st key a0 a1
                [a2; a3] Ht Hc Ha H0 Hkey H1 Hv)
      as (c' & s' & u' & f' & title & old & Hturn & Ht' & Hc' & _ & Hin').
    rewrite (config_edit_tidy st Ht), Ha.
    change (length [a0; a1; a2; a3]) with 4.
    rewrite config_edit_loop_S, (bind_Ret _ _ _ _ _ Hturn).
    cbv iota beta. rewrite config_edit_loop_S.
    erewrite (bind_Ret (config_edit_turn _ _));
      [|apply (config_edit_turn_declined _ (choices_of s' u' f') _ a2 a3 []);
        [now apply edit_choices_stored|reflexivity|exact H2|exact H3]].
    cbv iota beta. rewrite config_edit_loop_S.
    unfold mbind at 1, M_bind at 1.
    rewrite (config_edit_turn_waits c' true (choices_of s' u' f'));
      [|now apply edit_choices_stored|reflexivity].
    eexists _, [ Menu WHAT_SETTING (choices_of s u f); Inputbox title old;
                 Menu WHAT_SETTING (choices_of s' u' f') ], s', u', f'.
    split; [reflexivity|]. simpl.
    split; [|split; [exact Hin'|split; reflexivity]].
    rewrite <- !app_assoc. reflexivity.
Qed.

Lemma back_asks_after_a_change_witness :
  config_edit (alice_start "yes" [press CANCEL]) =
    Ret tt
      (with_answers []
         (with_log
            (log (alice_start "yes" [press CANCEL])
             ++ [Menu WHAT_SETTING (choices_of "10.0.0.5" "alice" "yes")])
            (alice_start "yes" [press CANCEL])))
  /\ (exists st' l,
        config_edit (alice_start "yes" [choose OK 0; press ESC; press CANCEL])
          = Ret tt st'
        /\ log st'
           = log (alice_start "yes" [choose OK 0; press ESC; press CANCEL])
             ++ l
        /\ ~ asked l
        /\ answers st' = [])
  /\ (exists st' l,
        config_edit (alice_start "yes" change_back_yes) = Ret tt st'
        /\ log st' = log (alice_start "yes" change_back_yes)
                     ++ l ++ [Yesno REALLY_BACK]
        /\ config st' = config (alice_start "yes" change_back_yes)
        /\ files st' = files (alice_start "yes" change_back_yes)
        /\ answers st' = [])
  /\ (exists st' l s' u' f',
        config_edit (alice_start "yes" change_back_no) = Blocked st'
        /\ log st' = log (alice_start "yes" change_back_no)
                     ++ l ++ [ Yesno REALLY_BACK;
                               Menu WHAT_SETTING (choices_of s' u' f') ]
        /\ In (a_text (enter "192.168.1.1")) [s'; u']
        /\ config st' = config (alice_start "yes" change_back_no)
        /\ files st' = files (alice_start "yes" change_back_no)).
Proof.
  split; [|split; [|split]].
  - apply (proj1 (back_asks_after_a_change (alice_start "yes" [press CANCEL])
                    "10.0.0.5" "alice" "yes" eq_refl
                    (conj eq_refl (conj eq_refl eq_refl)))
             (press CANCEL) []); reflexivity.
  - apply (proj1 (proj2 (back_asks_after_a_change
                           (alice_start "yes"
                              [choose OK 0; press ESC; press CANCEL])
                           "10.0.0.5" "alice" "yes" eq_refl
                           (conj eq_refl (conj eq_refl eq_refl))))
             (choose OK 0) (press ESC) (press CANCEL) [] "server");
      try reflexivity. discriminate.
  - apply (proj1 (proj2 (proj2 (back_asks_after_a_change
                                  (alice_start "yes" change_back_yes)
                                  "10.0.0.5" "alice" "yes" eq_refl
                                  (conj eq_refl (conj eq_refl eq_refl)))))
             (choose OK 0) (enter "192.168.1.1") (press CANCEL) (press OK)
             [] "server");
      reflexivity.
  - apply (proj2 (proj2 (proj2 (back_asks_after_a_change
                                  (alice_start "yes" change_back_no)
                                  "10.0.0.5" "alice" "yes" eq_refl
                                  (conj eq_refl (conj eq_refl eq_refl)))))
             (choose OK 0) (enter "192.168.1.1") (press CANCEL) (press ESC)
             "server");
      try reflexivity. discriminate.
Defined.

(** ** From the first start to the first launch *)

Lemma tidy_wizard_config server user :
  percent_free server = true ->
  percent_free user = true ->
  tidy (wizard_config [] server user) = true.
Proof.
  intros Hs Hu. unfold tidy, wizard_config.
  cbn [ConfigParser.defaults ConfigParser.sections_ forallb].
  unfold tidy_section, tidy_items. cbn [fst snd forallb].
  unfold tidy_item. cbn [fst snd]. rewrite Hs, Hu. reflexivity.
Qed.

(** X20.  From the first start to the first launch.  With no
    configuration file, a writable home and [rdesktop] installed: once
    the wizard's two input boxes are confirmed with texts free of [%],
    choosing "Start ThinClient" runs
    [xinit <rdesktop> -u <user> <server> -f] with the texts as typed,
    and the main menu is up again. *)
Theorem first_launch_after_wizard st out a0 a1 a2 a3 a4 rest :
  file_at st (first_candidate st) = None ->
  file_at st (second_candidate st) = None ->
  open_error st (first_candidate st) = None ->
  which_rdesktop st = Some out ->
  answers st = a0 :: a1 :: a2 :: a3 :: a4 :: rest ->
  a_code a1 = OK ->
  a_code a2 = OK ->
  percent_free (a_text a1) = true ->
  percent_free (a_text a2) = true ->
  a_code a4 = OK ->
  a_pick a4 = 0 ->
  exists st',
    main st = menu_loop (S (length rest)) st'
    /\ log st' =
         log st ++ [ Msgbox WELCOME ""; Inputbox "Server" "";
                     Inputbox "Username" ""; Msgbox WRITTEN "";
                     Menu WHAT_TO_DO MAIN_CHOICES;
                     Call ("xinit " +:+ Text.strip out +:+ " -u "
                           +:+ a_text a2 +:+ " " +:+ a_text a1 +:+ " -f") ]
    /\ answers st' = rest.
Proof.
  intros F1 F2 Ho Hw Ha H1 H2 Hv1 Hv2 H4 Hp.
  pose (st0 := with_config_path (first_candidate st)
                 (with_config ConfigParser.empty st)).
  pose (st1 := after_wizard st0 (a_text a1) (a_text a2) (a4 :: rest)).
  assert (R0 : read_config st = Ret tt st0) by now apply read_config_missing.
  assert (R1 : first_start st0 = Ret tt st1)
    by now apply (first_start_confirmed st0 a0 a1 a2 a3 (a4 :: rest)).
  pose proof (tidy_wizard_config _ _ Hv1 Hv2) as Ht.
  assert (Hc : complete (config st1) (a_text a1) (a_text a2) "yes")
    by (split; [|split]; reflexivity).
  eexists. split.
  - unfold main. rewrite (bind_Ret _ _ _ _ _ R0).
    rewrite (run_first_run st0 eq_refl). rewrite (bind_Ret _ _ _ _ _ R1).
    unfold mbind at 1, M_bind at 1, get_state at 1.
    change (length (answers st1)) with (S (length rest)).
    apply (menu_loop_thin_client (S (length rest)) st1 a4 rest out
             (a_text a2) (a_text a1) true);
      try assumption; try reflexivity.
    + apply get_stored; [exact Ht|apply Hc].
    + apply get_stored; [exact Ht|apply Hc].
  - simpl. split; [|reflexivity]. rewrite <- !app_assoc. reflexivity.
Qed.

Lemma first_launch_after_wizard_witness :
  exists st',
    main (world ∅ (wizard_answers ++ [choose OK 0])) =
      menu_loop (S (length (@nil answer))) st'
    /\ log st' =
         log (world ∅ (wizard_answers ++ [choose OK 0]))
         ++ [ Msgbox WELCOME ""; Inputbox "Server" "";
              Inputbox "Username" ""; Msgbox WRITTEN "";
              Menu WHAT_TO_DO MAIN_CHOICES;
              Call ("xinit " +:+ Text.strip "/usr/bin/rdesktop" +:+ " -u "
                    +:+ "alice" +:+ " " +:+ "10.0.0.5" +:+ " -f") ]
    /\ answers st' = [].
Proof.
  apply (first_launch_after_wizard (world ∅ (wizard_answers ++ [choose OK 0]))
           "/usr/bin/rdesktop" (press OK) (enter "10.0.0.5") (enter "alice")
           (press OK) (choose OK 0) []);
    vm_compute; reflexivity.
Defined.

(** ** An escaped percent sign *)

Lemma interpolate_escaped deeper d a b :
  percent_free a = true ->
  percent_free b = true ->
  ConfigParser.interpolate_loop deeper d None (a +:+ "%%" +:+ b)
  = Ok (a +:+ "%" +:+ b).
Proof.
  intros Ha Hb. induction a as [|c a IH].
  - change ("" +:+ "%%" +:+ b) with (String "%" (String "%" b)).
    change ("" +:+ "%" +:+ b) with (String "%" b).
    simpl. now rewrite (interpolate_loop_free deeper d b Hb).
  - apply percent_free_cons in Ha as [Hc Ha].
    rewrite !(append_cons c). simpl. rewrite Hc, (IH Ha). reflexivity.
Qed.

Lemma get_escaped_user server a b f :
  percent_free a = true ->
  percent_free b = true ->
  ConfigParser.get (escaped_user server a b f) "general" "user"
  = Ok (a +:+ "%" +:+ b).
Proof.
  intros Ha Hb. unfold ConfigParser.get. simpl.
  now apply interpolate_escaped.
Qed.

Lemma update_escaped_user server a b f :
  percent_free server = true ->
  percent_free a = true ->
  percent_free b = true ->
  stray_percent (a +:+ "%" +:+ b) = true ->
  ConfigParser.update ConfigParser.empty (escaped_user server a b f)
  = Err ValueError.
Proof.
  intros Hs Ha Hb Hstray.
  unfold ConfigParser.update.
  change (ConfigParser.default_section
            :: ConfigParser.sections (escaped_user server a b f))
    with [ConfigParser.default_section; "general"].
  unfold ConfigParser.fold_result.
  rewrite (setitem_proxy_default (escaped_user server a b f)
             ConfigParser.empty eq_refl).
  change (Ok ?x ≫= ?f) with (f x). cbv beta.
  unfold ConfigParser.setitem_proxy.
  rewrite (setitem_empty_section _ "general" eq_refl).
  change (ConfigParser.proxy_options (escaped_user server a b f) "general")
    with (Ok ["server"; "user"; "fullscreen"] : result (list string)).
  change (Ok ?x ≫= ?f) with (f x). cbv beta.
  unfold ConfigParser.fold_result.
  rewrite (proxy_getitem_tidy (escaped_user server a b f) "general"
             [ ("server", server); ("user", a +:+ "%%" +:+ b);
               ("fullscreen", f) ] "server" server)
    by (try reflexivity; assumption).
  change (Ok ?x ≫= ?f) with (f x). cbv beta.
  change (ConfigParser.optionxform "server") with "server".
  rewrite (set_tidy [] _ "general" [] "server" server)
    by (try reflexivity; assumption).
  change (Ok ?x ≫= ?f) with (f x). cbv beta.
  assert (Hg : ConfigParser.proxy_getitem (escaped_user server a b f)
                 "general" "user" = Ok (a +:+ "%" +:+ b)).
  { unfold ConfigParser.proxy_getitem.
    change (ConfigParser.has_option (escaped_user server a b f) "general"
              "user") with true.
    cbv iota. now apply get_escaped_user. }
  rewrite Hg. change (Ok ?x ≫= ?f) with (f x). cbv beta.
  unfold ConfigParser.set, ConfigParser.before_set.
  now rewrite (stray_percent_not_empty _ Hstray),
    (stray_percent_left _ Hstray).
Qed.

(** X21.  An escaped percent sign is read but cannot be edited.  When
    the stored user name holds [%%] between two texts free of [%], the
    launcher hands the name over with a single [%]; the editor, which
    copies every value through the same expansion and stores the
    result, raises [ValueError] before it shows anything. *)
Theorem escaped_percent_breaks_editor st server a b f out fullscreen :
  config st = escaped_user server a b f ->
  percent_free server = true ->
  percent_free a = true ->
  percent_free b = true ->
  percent_free f = true ->
  stray_percent (a +:+ "%" +:+ b) = true ->
  which_rdesktop st = Some out ->
  ConfigParser.convert_to_boolean f = Ok fullscreen ->
  config_edit st = Raised ValueError st
  /\ rdesktop_start st =
       Ret tt
         (with_log
            (log st ++ [Call (rdesktop_command (Text.strip out)
                                (a +:+ "%" +:+ b) server fullscreen)]) st).
Proof.
  intros Hc Hs Ha Hb Hf Hstray Hw Hfb. split.
  - unfold config_edit. unfold mbind at 1, M_bind at 1, get_state at 1.
    now rewrite Hc, (update_escaped_user server a b f).
  - apply rdesktop_start_found; [exact Hw| | |]; rewrite Hc.
    + now apply get_escaped_user.
    + apply (get_tidy _ "general"
               [ ("server", server); ("user", a +:+ "%%" +:+ b);
                 ("fullscreen", f) ]); try reflexivity; assumption.
    + unfold ConfigParser.getboolean.
      rewrite (get_tidy _ "general"
                 [ ("server", server); ("user", a +:+ "%%" +:+ b);
                   ("fullscreen", f) ] "fullscreen" f);
        try reflexivity; assumption.
Qed.

Lemma escaped_percent_breaks_editor_witness :
  config_edit
    (with_config (escaped_user "10.0.0.5" "al" "ice" "yes") (world ∅ []))
  = Raised ValueError
      (with_config (escaped_user "10.0.0.5" "al" "ice" "yes") (world ∅ []))
  /\ rdesktop_start
       (with_config (escaped_user "10.0.0.5" "al" "ice" "yes") (world ∅ []))
     = Ret tt
         (with_log
            (log (with_config (escaped_user "10.0.0.5" "al" "ice" "yes")
                    (world ∅ []))
             ++ [Call (rdesktop_command (Text.strip "/usr/bin/rdesktop")
                         ("al" +:+ "%" +:+ "ice") "10.0.0.5" true)])
            (with_config (escaped_user "10.0.0.5" "al" "ice" "yes")
               (world ∅ []))).
Proof.
  apply (escaped_percent_breaks_editor
           (with_config (escaped_user "10.0.0.5" "al" "ice" "yes") (world ∅ []))
           "10.0.0.5" "al" "ice" "yes" "/usr/bin/rdesktop" true);
    vm_compute; reflexivity.
Defined.

(** ** Files without a section *)

Lemma read_line_skipped line :
  skipped line = true ->
  ConfigParser.read_line ConfigParser.ps_init line = Ok ConfigParser.ps_init.
Proof.
  unfold skipped, ConfigParser.read_line. cbv zeta.
  destruct (ConfigParser.is_comment (Text.strip line)); [reflexivity|].
  rewrite orb_false_r. now intros ->.
Qed.

Lemma read_lines_skipped pre rest :
  forallb skipped pre = true ->
  ConfigParser.fold_result ConfigParser.read_line ConfigParser.ps_init
    (pre ++ rest)
  = ConfigParser.fold_result ConfigParser.read_line ConfigParser.ps_init rest.
Proof.
  induction pre as [|l pre IH]; [reflexivity|]. simpl.
  intros [Hl Hp]%andb_true_iff. rewrite (read_line_skipped l Hl). simpl.
  now apply IH.
Qed.

Lemma read_line_no_section line :
  skipped line = false ->
  not_a_header line = true ->
  ConfigParser.read_line ConfigParser.ps_init line
  = Err MissingSectionHeaderError.
Proof.
  unfold skipped, not_a_header, ConfigParser.read_line. cbv zeta.
  intros [He Hc]%orb_false_iff. rewrite Hc, He. simpl.
  now destruct (ConfigParser.sect_match (Text.strip line)).
Qed.

(** X22.  A configuration file must open with a section header.  When
    [~/.raptic] can be opened for reading and its first line that is
    neither blank nor a comment is not a header, loading raises
    [MissingSectionHeaderError]: the process ends before it shows
    anything and the second candidate is not tried. *)
Theorem header_required st text pre line rest :
  file_at st (first_candidate st) = Some text ->
  unreadable st (first_candidate st) = false ->
  Text.lines text = pre ++ line :: rest ->
  forallb skipped pre = true ->
  skipped line = false ->
  not_a_header line = true ->
  exists st',
    main st = Raised MissingSectionHeaderError st'
    /\ log st' = log st
    /\ files st' = files st.
Proof.
  intros Hf Hu Hl Hpre Hline Hnh.
  assert (Hr : ConfigParser.read_string text = Err MissingSectionHeaderError).
  { unfold ConfigParser.read_string. rewrite Hl, (read_lines_skipped _ _ Hpre).
    simpl. now rewrite (read_line_no_section line Hline Hnh). }
  eexists. split.
  - unfold main. apply bind_Raised.
    rewrite (read_config_first st text Hf Hu), Hr. reflexivity.
  - split; reflexivity.
Qed.

Lemma header_required_witness :
  exists st',
    main (world headless []) = Raised MissingSectionHeaderError st'
    /\ log st' = log (world headless [])
    /\ files st' = files (world headless []).
Proof.
  apply (header_required (world headless []) "# my thin client
server = 10.0.0.5
" ["# my thin client"] "server = 10.0.0.5" []);
    vm_compute; reflexivity.
Defined.

(** X23.  A file of comments is a first run.  When [~/.raptic] exists
    but holds only blank lines and comments, loading yields the empty
    configuration with that file as the save target, and the process
    opens on the wizard, whose save will overwrite the file. *)
Theorem comments_only_is_first_run st text :
  file_at st (first_candidate st) = Some text ->
  forallb skipped (Text.lines text) = true ->
  exists st',
    read_config st = Ret tt st'
    /\ config st' = ConfigParser.empty
    /\ config_path st' = first_candidate st
    /\ first_screen st (main st) = Some (Msgbox WELCOME "").
Proof.
  intros Hf Hl.
  assert (Hr : ConfigParser.read_string text = Ok ConfigParser.empty).
  { unfold ConfigParser.read_string.
    rewrite <- (app_nil_r (Text.lines text)), (read_lines_skipped _ _ Hl).
    reflexivity. }
  assert (Hrc : read_config st =
            Ret tt (with_config_path (first_candidate st)
                      (with_config ConfigParser.empty
                         (with_config_path "" st)))).
  { destruct (unreadable st (first_candidate st)) eqn:Hu.
    - exact (read_config_first_unreadable st text Hf Hu).
    - now rewrite (read_config_first st text Hf Hu), Hr. }
  eexists. split; [exact Hrc|]. split; [reflexivity|]. split; [reflexivity|].
  unfold main. rewrite (bind_Ret _ _ _ _ _ Hrc).
  rewrite run_first_run by reflexivity.
  assert (Hs : starts_with (Msgbox WELCOME "")
                 (first_start ≫= fun _ =>
                  get_state ≫= fun st' => menu_loop (S (length (answers st'))))).
  { pose proof extends_menu_loop as Hm.
    apply starts_with_bind; [apply starts_with_first_start|].
    intros _. extends_auto. apply Hm. }
  exact (Hs (with_config_path (first_candidate st)
               (with_config ConfigParser.empty (with_config_path "" st)))).
Qed.

Lemma comments_only_is_first_run_witness :
  exists st',
    read_config (world comments_only []) = Ret tt st'
    /\ config st' = ConfigParser.empty
    /\ config_path st' = first_candidate (world comments_only [])
    /\ first_screen (world comments_only []) (main (world comments_only []))
       = Some (Msgbox WELCOME "").
Proof.
  apply (comments_only_is_first_run (world comments_only []) "# to be filled in

; later
"); vm_compute; reflexivity.
Defined.

(** ** What editing may change *)

Lemma edited_refl c : edited c c.
Proof. repeat split; auto. Qed.

Lemma edited_trans c1 c2 c3 : edited c1 c2 -> edited c2 c3 -> edited c1 c3.
Proof.
  intros (A1 & A2 & A3 & A4 & A5) (B1 & B2 & B3 & B4 & B5).
  split; [congruence|]. split; [congruence|]. split; [|split].
  - intros sect H. now rewrite B3, A3.
  - intros k H. now rewrite B4, A4.
  - intros k H. now apply B5, A5.
Qed.

Lemma section_set_shape c opt value c' :
  ConfigParser.section_set c "general" opt value = Ok c' ->
  exists d,
    dict_get "general" (ConfigParser.sections_ c) = Some d
    /\ c' = ConfigParser.mk (ConfigParser.defaults c)
              (dict_set "general"
                 (dict_set (ConfigParser.optionxform opt) value d)
                 (ConfigParser.sections_ c)).
Proof.
  unfold ConfigParser.section_set, ConfigParser.getitem, ConfigParser.set.
  change (String.eqb "general" ConfigParser.default_section) with false.
  change (Text.is_empty "general") with false. simpl negb. simpl andb.
  simpl orb. unfold ConfigParser.has_section, dict_mem.
  destruct (dict_get "general" (ConfigParser.sections_ c)) as [d|] eqn:Hd;
    simpl; [|discriminate].
  destruct (if Text.is_empty value then Ok value
            else ConfigParser.before_set value) as [v|] eqn:Hv;
    simpl; [|discriminate].
  assert (v = value) as ->.
  { destruct (Text.is_empty value); [congruence|].
    unfold ConfigParser.before_set in Hv.
    destruct (ConfigParser.percent_left _ _); congruence. }
  intros [= <-]. now exists d.
Qed.

Lemma section_set_edited c opt value c' :
  In (ConfigParser.optionxform opt) ["server"; "user"; "fullscreen"] ->
  ConfigParser.section_set c "general" opt value = Ok c' ->
  edited c c'.
Proof.
  intros Hin Hset.
  destruct (section_set_general _ _ _ _ Hset) as [Hk Hother].
  destruct (section_set_shape _ _ _ _ Hset) as (d & Hd & ->).
  split; [reflexivity|]. split; [|split; [|split]].
  - unfold ConfigParser.sections, dict_keys. simpl.
    apply dict_set_keys. exact (dict_get_mem _ _ _ Hd).
  - intros sect Hne. simpl. now apply dict_get_set_ne.
  - intros k Hk'. apply Hother. intros ->. now apply Hk'.
  - intros k Hsome.
    destruct (String.eqb_spec k (ConfigParser.optionxform opt)) as [->|Hne].
    + rewrite Hk. eauto.
    + now rewrite (Hother k Hne).
Qed.

Lemma change_option_edited config_tmp tag st :
  wp (change_option config_tmp tag)
    (fun r _ => edited config_tmp (fst r)) (fun _ => True) st.
Proof.
  unfold change_option.
  destruct (dict_get tag configuration_options) as [option|] eqn:Ho;
    [|now wp_step].
  apply schema_cases in Ho as [[-> ->]|[[-> ->]|[-> ->]]]; simpl.
  - repeat wp_step; auto.
    destruct (bool_decide _); repeat wp_step; auto; simpl.
    + apply (section_set_edited _ "server" (a_text a0)); [simpl; auto|].
      assumption.
    + apply edited_refl.
  - repeat wp_step; auto.
    destruct (bool_decide _); repeat wp_step; auto; simpl.
    + apply (section_set_edited _ "user" (a_text a0)); [simpl; auto|].
      assumption.
    + apply edited_refl.
  - repeat wp_step; auto.
    destruct (bool_decide _); repeat wp_step; auto; simpl.
    + eapply (section_set_edited _ "fullscreen"); [simpl; auto|].
      eassumption.
    + apply edited_refl.
Qed.

Lemma config_edit_turn_edited config_tmp config_changed st :
  wp (config_edit_turn config_tmp config_changed)
    (fun turn _ =>
       match turn with
       | Again c _ => edited config_tmp c
       | Return => True
       end)
    (fun _ => True) st.
Proof.
  unfold config_edit_turn. repeat wp_step; auto.
  destruct (a_code a0); repeat wp_step; auto; try apply edited_refl.
  - eapply wp_mono; [| |apply change_option_edited]; [|auto].
    intros [c changed] st' Hed; simpl in *. now wp_step.
  - destruct config_changed; repeat wp_step; auto.
    destruct (bool_decide _); wp_step; [exact I|apply edited_refl].
  - apply wp_any; [|auto]. intros u st'. now wp_step.
Qed.

(** X24.  What editing may change.  Over any number of turns of the
    editor, whatever the user answers, the scratch copy differs from
    what it was at most in the values of [server], [user] and
    [fullscreen] under [general]: the defaults, the other sections and
    the other options of [general] keep their values, and no option is
    removed. *)
Theorem editor_touches_only_the_schema c c' :
  rtc edit_step c c' -> edited c c'.
Proof.
  intros Hsteps. induction Hsteps as [c|c c1 c' Hstep _ IH];
    [apply edited_refl|].
  apply (edited_trans c c1 c'); [|exact IH].
  destruct Hstep as (ch & st & ch' & st' & H).
  apply (wp_fact _ _ _ _ _ _ (config_edit_turn_edited c ch st)) in H.
  exact H.
Qed.

Lemma editor_touches_only_the_schema_witness :
  edited (alice_config "yes") (alice_config "no").
Proof.
  apply (editor_touches_only_the_schema (alice_config "yes")
           (alice_config "no")).
  apply rtc_once. exists false, toggle_fullscreen, true.
  eexists. vm_compute. reflexivity.
Defined.

